(** * ToolSession: the session-and-streaming coordinator

    A shallow embedding of [src/durable-objects/ToolSession.ts] (the Durable
    Object that stores session records, counts WebSocket connections, relays
    a backend event feed and sweeps inactive sessions), followed by the
    properties of the coordinator design that the code is checked against.

    Conventions of the embedding:
    - [this.state.storage] is a finite map from keys to session records;
      [storage.list()] enumerates it in ascending key order;
    - [this.websockets] (a JS [Set]) is a duplicate-free list in insertion
      order, which is also the order in which [for ... of] visits it;
    - every [ws.send] that succeeds is appended to [outbox], every
      [ws.close()] to [closed];
    - platform calls that can throw (storage get/put/delete/list, ws.send)
      consult [faults], which gives the message of the thrown error;
    - handlers are computations in an exception-and-state monad [M];
      [try { } catch { }] is [try_catch];
    - an ISO date string is kept as the instant it denotes; a string that
      [new Date] cannot read is [NotADate] and its [getTime()] is NaN;
    - a JS number that holds an integer is kept as that integer; the
      arithmetic on the connection counter rounds the exact result to the
      nearest double, as [+] and [-] do (fractions, NaN and the infinities
      are not represented). *)

From Stdlib Require Import ZArith String Ascii List Bool Lia.
From Stdlib Require Import Sorting.Sorted.
From stdpp Require Import base option list gmap strings sorting.

Local Open Scope string_scope.
Local Open Scope list_scope.
Local Open Scope Z_scope.

(** ** JSON values, as produced by [JSON.parse] *)

#[local] Unset Elimination Schemes.
Inductive json :=
| JNull
| JBool (b : bool)
| JNum (n : Z)
| JStr (s : string)
| JArr (items : list json)
| JObj (fields : list (string * json)).
#[local] Set Elimination Schemes.

(** A JS value that may be [undefined]. *)
Definition JSValue := option json.

(** JS truthiness: [undefined], [null], [false], [0] and [""] are falsy. *)
Definition truthy (v : JSValue) : bool :=
  match v with
  | None => false
  | Some JNull => false
  | Some (JBool b) => b
  | Some (JNum n) => negb (n =? 0)
  | Some (JStr s) => negb (String.eqb s "")
  | Some (JArr _) => true
  | Some (JObj _) => true
  end.

(** [a || b] *)
Definition or_js (a b : JSValue) : JSValue := if truthy a then a else b.

Fixpoint assoc (k : string) (fields : list (string * json)) : JSValue :=
  match fields with
  | [] => None
  | (k', v) :: rest => if String.eqb k k' then Some v else assoc k rest
  end.

(** [v.k] on a value that is not [null]/[undefined]: own properties of an
    object, [undefined] on primitives and arrays for the names used here
    ([type], [data], [source], [progress]). *)
Definition prop (v : json) (k : string) : JSValue :=
  match v with
  | JObj fields => assoc k fields
  | _ => None
  end.

(** [v?.k] *)
Definition opt_prop (v : JSValue) (k : string) : JSValue :=
  match v with
  | None => None
  | Some JNull => None
  | Some o => prop o k
  end.

(** ** Dates *)

Inductive DateString :=
| ISO (ms : Z)
| NotADate (s : string).

(** [new Date(s).getTime()]; [None] is NaN. *)
Definition getTime (d : DateString) : option Z :=
  match d with
  | ISO ms => Some ms
  | NotADate _ => None
  end.

(** [a < b] on numbers where [a] may be NaN: every comparison with NaN is
    false. *)
Definition lt_num (a : option Z) (b : Z) : bool :=
  match a with
  | Some x => x <? b
  | None => false
  end.

(** ** Numbers

    A JS number is an IEEE 754 double: 53 bits of significand. Every
    integer up to [2^53] in magnitude is a double; beyond, only the
    multiples of the unit in the last place are. [to_double z] is the
    double nearest to the integer [z], ties going to the even significand.
    (An integer that this rounding takes to [2^1024] or beyond is an
    infinity in JS; adding 1 to a finite double, or taking 1 from it,
    never gives one.) *)

Definition to_double (z : Z) : Z :=
  let a := Z.abs z in
  if a <=? 2 ^ 53 then z
  else
    let ulp := 2 ^ (Z.log2 a - 52) in
    let q := a / ulp in
    let r := a mod ulp in
    let m :=
      if 2 * r <? ulp then q
      else if ulp <? 2 * r then q + 1
      else if Z.even q then q else q + 1 in
    Z.sgn z * (m * ulp).

(** [a + b] and [a - b] on doubles that hold integers: the exact result,
    rounded. *)
Definition js_add (a b : Z) : Z := to_double (a + b).
Definition js_sub (a b : Z) : Z := to_double (a - b).

(** ** The data model: [SessionData] and its tool executions *)

Module Execution.
Inductive Status := running | completed | failed.

Record t := mk {
  id : string;
  toolName : string;
  agent : string;
  status : Status;
  startTime : DateString;
  endTime : option DateString;
  progress : JSValue
}.

Definition terminal (e : t) : bool :=
  match status e with
  | running => false
  | completed | failed => true
  end.
End Execution.

Module SessionData.
Inductive Status := active | inactive | streaming.

Record t := mk {
  id : string;
  createdAt : DateString;
  updatedAt : DateString;
  status : Status;
  toolExecutions : list Execution.t;
  websocketConnections : Z;
  lastActivity : DateString
}.
End SessionData.

(** The JSON body of a create request: any subset of the session fields. *)
Module PartialSession.
Record t := mk {
  id : option string;
  createdAt : option DateString;
  updatedAt : option DateString;
  status : option SessionData.Status;
  toolExecutions : option (list Execution.t);
  websocketConnections : option Z;
  lastActivity : option DateString
}.

Definition empty : t := mk None None None None None None None.
End PartialSession.

(** [Object.assign(target, source)]: every field present in the source
    overrides the target's. *)
Definition Object_assign (target : SessionData.t) (source : PartialSession.t)
  : SessionData.t :=
  SessionData.mk
    (default (SessionData.id target) (PartialSession.id source))
    (default (SessionData.createdAt target) (PartialSession.createdAt source))
    (default (SessionData.updatedAt target) (PartialSession.updatedAt source))
    (default (SessionData.status target) (PartialSession.status source))
    (default (SessionData.toolExecutions target)
             (PartialSession.toolExecutions source))
    (default (SessionData.websocketConnections target)
             (PartialSession.websocketConnections source))
    (default (SessionData.lastActivity target)
             (PartialSession.lastActivity source)).

(** ** Messages sent over a WebSocket *)

Definition WebSocket := nat.

Module MsgType.
Inductive t :=
| progress | data | error | complete | connection | ping | pong.
End MsgType.

Module StreamMessage.

(** The shapes of the [data] field built by the coordinator. *)
Inductive Data :=
| Welcome (message sessionId : string) (capabilities : list string)
| Starting (message : string) (progress : Z) (executionId : string)
| RawEvent (eventData : string)
| ExecError (error executionId : string)
| Deleting (message sessionId : string).

Record t := mk {
  type : MsgType.t;
  timestamp : DateString;
  data : Data;
  source : string;
  sessionId : string;
  requestId : option string
}.
End StreamMessage.

(** What is handed to [JSON.stringify] before [ws.send]: a message built by
    the coordinator, or the spread
    [{...parsedData, executionId, source}] of a decoded backend event. *)
Inductive Frame :=
| Built (m : StreamMessage.t)
| Spread (parsedData : json) (executionId : string) (source : JSValue).

(** ** HTTP responses *)

Module Response.
Inductive Body :=
| Text (s : string)
| Json (s : SessionData.t)
| Upgrade (client : WebSocket).

Record t := mk { status : Z; body : Body }.
End Response.

(** ** The Durable Object's state and its environment *)

Record Faults := mkFaults {
  get_throws : string -> option string;
  put_throws : string -> option string;
  delete_throws : string -> option string;
  list_throws : option string;
  send_throws : WebSocket -> option string
}.

Definition no_faults : Faults :=
  mkFaults (fun _ => None) (fun _ => None) (fun _ => None) None (fun _ => None).

Record State := mkState {
  storage : gmap string SessionData.t;
  websockets : list WebSocket;
  outbox : list (WebSocket * Frame);
  closed : list WebSocket;
  alarm_at : option Z;
  clock : Z;
  faults : Faults
}.

Definition with_storage (f : gmap string SessionData.t -> gmap string SessionData.t)
  (st : State) : State :=
  mkState (f (storage st)) (websockets st) (outbox st) (closed st)
          (alarm_at st) (clock st) (faults st).

Definition with_websockets (f : list WebSocket -> list WebSocket)
  (st : State) : State :=
  mkState (storage st) (f (websockets st)) (outbox st) (closed st)
          (alarm_at st) (clock st) (faults st).

Definition with_outbox (f : list (WebSocket * Frame) -> list (WebSocket * Frame))
  (st : State) : State :=
  mkState (storage st) (websockets st) (f (outbox st)) (closed st)
          (alarm_at st) (clock st) (faults st).

Definition with_closed (f : list WebSocket -> list WebSocket)
  (st : State) : State :=
  mkState (storage st) (websockets st) (outbox st) (f (closed st))
          (alarm_at st) (clock st) (faults st).

Definition with_alarm (a : option Z) (st : State) : State :=
  mkState (storage st) (websockets st) (outbox st) (closed st)
          a (clock st) (faults st).

Definition with_clock (f : Z -> Z) (st : State) : State :=
  mkState (storage st) (websockets st) (outbox st) (closed st)
          (alarm_at st) (f (clock st)) (faults st).

(** ** The monad of handlers: state plus exceptions *)

Inductive Outcome (A : Type) :=
| Ok (a : A) (st : State)
| Throw (message : string) (st : State).
Arguments Ok {A} a st.
Arguments Throw {A} message st.

Definition M (A : Type) := State -> Outcome A.

Definition ret {A} (a : A) : M A := fun st => Ok a st.

Definition bind {A B} (m : M A) (k : A -> M B) : M B :=
  fun st =>
    match m st with
    | Ok a st' => k a st'
    | Throw e st' => Throw e st'
    end.

Definition throw {A} (message : string) : M A := fun st => Throw message st.

Definition try_catch {A} (body : M A) (handler : string -> M A) : M A :=
  fun st =>
    match body st with
    | Ok a st' => Ok a st'
    | Throw e st' => handler e st'
    end.

Definition final_state {A} (o : Outcome A) : State :=
  match o with
  | Ok _ st => st
  | Throw _ st => st
  end.

Declare Scope js_scope.
Delimit Scope js_scope with js.
Notation "x <- m ;; k" := (bind m (fun x => k))
  (at level 100, m at next level, right associativity) : js_scope.
Notation "m ;;; k" := (bind m (fun _ => k))
  (at level 100, right associativity) : js_scope.
Local Open Scope js_scope.

(** *** Platform primitives *)

(** [`session:${sessionId}`] *)
Definition session_key (sessionId : string) : string := "session:" +:+ sessionId.

(** [new Date().toISOString()] *)
Definition Date_toISOString : M DateString := fun st => Ok (ISO (clock st)) st.

(** [Date.now()] *)
Definition Date_now : M Z := fun st => Ok (clock st) st.

(** [this.state.storage.get(key)]; [None] is [undefined]. *)
Definition storage_get (key : string) : M (option SessionData.t) :=
  fun st =>
    match get_throws (faults st) key with
    | Some e => Throw e st
    | None => Ok (storage st !! key) st
    end.

Definition storage_put (key : string) (v : SessionData.t) : M unit :=
  fun st =>
    match put_throws (faults st) key with
    | Some e => Throw e st
    | None => Ok tt (with_storage (insert key v) st)
    end.

(** [storage.delete(key)] resolves to whether the key was present. *)
Definition storage_delete (key : string) : M bool :=
  fun st =>
    match delete_throws (faults st) key with
    | Some e => Throw e st
    | None => Ok (bool_decide (is_Some (storage st !! key)))
                 (with_storage (delete key) st)
    end.

Definition key_le (a b : string * SessionData.t) : Prop :=
  String.leb (fst a) (fst b) = true.

#[local] Instance key_le_dec : RelDecision key_le.
Proof. intros a b. unfold key_le. apply _. Defined.

(** [storage.list()]: all entries, in ascending key order. *)
Definition storage_list : M (list (string * SessionData.t)) :=
  fun st =>
    match list_throws (faults st) with
    | Some e => Throw e st
    | None => Ok (merge_sort key_le (map_to_list (storage st))) st
    end.

Definition storage_setAlarm (t : Z) : M unit :=
  fun st => Ok tt (with_alarm (Some t) st).

(** [ws.send(JSON.stringify(frame))] *)
Definition ws_send (ws : WebSocket) (frame : Frame) : M unit :=
  fun st =>
    match send_throws (faults st) ws with
    | Some e => Throw e st
    | None => Ok tt (with_outbox (fun o => o ++ [(ws, frame)]) st)
    end.

Definition ws_close (ws : WebSocket) : M unit :=
  fun st => Ok tt (with_closed (fun c => c ++ [ws]) st).

(** [this.websockets.add(ws)] *)
Definition websockets_add (ws : WebSocket) : M unit :=
  fun st =>
    Ok tt (with_websockets
             (fun l => if bool_decide (ws ∈ l) then l else l ++ [ws]) st).

(** [this.websockets.delete(ws)] *)
Definition websockets_delete (ws : WebSocket) : M unit :=
  fun st => Ok tt (with_websockets (filter (fun w => w ≠ ws)) st).

(** [this.websockets.clear()] *)
Definition websockets_clear : M unit :=
  fun st => Ok tt (with_websockets (fun _ => []) st).

Definition get_websockets : M (list WebSocket) :=
  fun st => Ok (websockets st) st.

(** ** [getSessionData] (lines 322-328) *)

Definition getSessionData (sessionId : string) : M (option SessionData.t) :=
  try_catch (storage_get (session_key sessionId)) (fun _ => ret None).

(** ** [createSession] (lines 380-402)

    [body] is the request body as read by [request.json()]: [None] when
    it is not JSON, in which case [request.json()] throws. *)

Definition request_json (body : option PartialSession.t) : M PartialSession.t :=
  match body with
  | Some d => ret d
  | None => throw "Unexpected token"
  end.

Definition default_session (sessionId : string) (now : DateString) : SessionData.t :=
  SessionData.mk sessionId now now SessionData.active [] 0 now.

Definition createSession (sessionId : string) (body : option PartialSession.t)
  : M Response.t :=
  try_catch
    (sessionData <- request_json body ;;
     now <- Date_toISOString ;;
     let session := Object_assign (default_session sessionId now) sessionData in
     storage_put (session_key sessionId) session ;;;
     ret (Response.mk 201 (Response.Json session)))
    (fun _ => ret (Response.mk 400 (Response.Text "Invalid session data"))).

(** ** [handleWebSocket] (lines 70-138)

    [server] is the server end of the fresh [WebSocketPair]. The handler
    adds it to the set, counts it on the stored session (when there is
    one) and sends the welcome message. *)

Definition welcome_frame (now : DateString) (sessionId : string) : Frame :=
  Built (StreamMessage.mk MsgType.connection now
           (StreamMessage.Welcome "WebSocket connected to ToolSession" sessionId
              ["real-time-streaming"; "tool-execution"; "progress-updates"])
           "durable-object" sessionId None).

Definition attach_session (now : DateString) (s : SessionData.t) : SessionData.t :=
  SessionData.mk (SessionData.id s) (SessionData.createdAt s)
    (SessionData.updatedAt s) SessionData.streaming
    (SessionData.toolExecutions s)
    (js_add (SessionData.websocketConnections s) 1) now.

Definition handleWebSocket (server : WebSocket) (sessionId : string)
  : M Response.t :=
  try_catch
    (websockets_add server ;;;
     session <- getSessionData sessionId ;;
     match session with
     | Some s =>
         now <- Date_toISOString ;;
         storage_put (session_key sessionId) (attach_session now s)
     | None => ret tt
     end ;;;
     now <- Date_toISOString ;;
     ws_send server (welcome_frame now sessionId) ;;;
     ret (Response.mk 101 (Response.Upgrade server)))
    (fun _ => ret (Response.mk 500 (Response.Text "WebSocket setup failed"))).

(** The ['close'] listener registered by [handleWebSocket]
    (lines 117-128). *)

Definition detach_session (now : DateString) (s : SessionData.t) : SessionData.t :=
  let n := Z.max 0 (js_sub (SessionData.websocketConnections s) 1) in
  SessionData.mk (SessionData.id s) (SessionData.createdAt s)
    (SessionData.updatedAt s)
    (if n =? 0 then SessionData.inactive else SessionData.status s)
    (SessionData.toolExecutions s) n now.

Definition on_close (server : WebSocket) (sessionId : string) : M unit :=
  websockets_delete server ;;;
  session <- getSessionData sessionId ;;
  match session with
  | Some s =>
      now <- Date_toISOString ;;
      storage_put (session_key sessionId) (detach_session now s)
  | None => ret tt
  end.

(** ** [broadcastToWebSockets] (lines 518-528)

    The loop visits the members of the set; deleting the member being
    visited does not disturb the visit of the others. *)

Fixpoint broadcast_loop (wss : list WebSocket) (message : Frame) : M unit :=
  match wss with
  | [] => ret tt
  | ws :: rest =>
      try_catch (ws_send ws message) (fun _ => websockets_delete ws) ;;;
      broadcast_loop rest message
  end.

Definition broadcastToWebSockets (message : Frame) : M unit :=
  wss <- get_websockets ;;
  broadcast_loop wss message.

(** ** [deleteSession] (lines 488-516) *)

Definition deleting_frame (now : DateString) (sessionId : string) : Frame :=
  Built (StreamMessage.mk MsgType.connection now
           (StreamMessage.Deleting "Session being deleted, closing connections"
              sessionId)
           "durable-object" sessionId None).

Fixpoint close_all (wss : list WebSocket) : M unit :=
  match wss with
  | [] => ret tt
  | ws :: rest => ws_close ws ;;; close_all rest
  end.

Definition deleteSession (sessionId : string) : M Response.t :=
  try_catch
    (now <- Date_toISOString ;;
     broadcastToWebSockets (deleting_frame now sessionId) ;;;
     wss <- get_websockets ;;
     close_all wss ;;;
     websockets_clear ;;;
     deleted <- storage_delete (session_key sessionId) ;;
     if negb deleted
     then ret (Response.mk 404 (Response.Text "Session not found"))
     else ret (Response.mk 200 (Response.Text "Session deleted")))
    (fun _ => ret (Response.mk 500 (Response.Text "Delete failed"))).

(** ** [alarm] (lines 530-554)

    The [console] calls are not modelled. *)

Definition expired (oneHourAgo : Z) (sessionData : SessionData.t) : bool :=
  let lastActivity := getTime (SessionData.lastActivity sessionData) in
  lt_num lastActivity oneHourAgo
  && (SessionData.websocketConnections sessionData =? 0).

Fixpoint sweep (sessions : list (string * SessionData.t)) (oneHourAgo : Z)
  : M unit :=
  match sessions with
  | [] => ret tt
  | (key, sessionData) :: rest =>
      (if String.prefix "session:" key
       then if expired oneHourAgo sessionData
            then _ <- storage_delete key ;; ret tt
            else ret tt
       else ret tt) ;;;
      sweep rest oneHourAgo
  end.

Definition alarm : M unit :=
  try_catch
    (sessions <- storage_list ;;
     now <- Date_now ;;
     let oneHourAgo := now - 60 * 60 * 1000 in
     sweep sessions oneHourAgo ;;;
     now' <- Date_now ;;
     storage_setAlarm (now' + 30 * 60 * 1000))
    (fun _ => ret tt).

(** ** The execution tracker steps inside [handleToolExecutionRequest]

    The source has no separate tracker functions: the steps below are the
    blocks of [handleToolExecutionRequest] that locate the execution with
    [toolExecutions.find(e => e.id === executionId)] and assign to it in
    place. *)

Definition has_id (executionId : string) (e : Execution.t) : bool :=
  String.eqb (Execution.id e) executionId.

(** [session.toolExecutions.find(e => e.id === executionId)] *)
Definition find_execution (executionId : string) (s : SessionData.t)
  : option Execution.t :=
  List.find (has_id executionId) (SessionData.toolExecutions s).

(** Assignment to the fields of the object returned by [find]: the first
    element with the id is changed, in place. *)
Fixpoint update_first (executionId : string) (f : Execution.t -> Execution.t)
  (l : list Execution.t) : list Execution.t :=
  match l with
  | [] => []
  | e :: rest =>
      if has_id executionId e then f e :: rest
      else e :: update_first executionId f rest
  end.

Definition with_executions (f : list Execution.t -> list Execution.t)
  (s : SessionData.t) : SessionData.t :=
  SessionData.mk (SessionData.id s) (SessionData.createdAt s)
    (SessionData.updatedAt s) (SessionData.status s)
    (f (SessionData.toolExecutions s))
    (SessionData.websocketConnections s) (SessionData.lastActivity s).

(** [toolExecutions.push({id, toolName, agent, status: 'running',
    startTime, progress: 0})] (lines 196-203). *)
Definition new_execution (executionId tool_name agent : string)
  (now : DateString) : Execution.t :=
  Execution.mk executionId tool_name agent Execution.running now None
    (Some (JNum 0)).

Definition startExecution (executionId tool_name agent : string)
  (now : DateString) (s : SessionData.t) : SessionData.t :=
  with_executions
    (fun l => l ++ [new_execution executionId tool_name agent now]) s.

(** [execution.progress = p || execution.progress] (line 261). *)
Definition set_progress (p : JSValue) (e : Execution.t) : Execution.t :=
  Execution.mk (Execution.id e) (Execution.toolName e) (Execution.agent e)
    (Execution.status e) (Execution.startTime e) (Execution.endTime e)
    (or_js p (Execution.progress e)).

Definition updateProgress (executionId : string) (p : JSValue)
  (s : SessionData.t) : SessionData.t :=
  with_executions (update_first executionId (set_progress p)) s.

(** Lines 292-294 ([success = true]) and lines 305-306 ([success = false]). *)
Definition complete (success : bool) (now : DateString) (e : Execution.t)
  : Execution.t :=
  if success
  then Execution.mk (Execution.id e) (Execution.toolName e) (Execution.agent e)
         Execution.completed (Execution.startTime e) (Some now)
         (Some (JNum 100))
  else Execution.mk (Execution.id e) (Execution.toolName e) (Execution.agent e)
         Execution.failed (Execution.startTime e) (Some now)
         (Execution.progress e).

Definition completeExecution (executionId : string) (success : bool)
  (now : DateString) (s : SessionData.t) : SessionData.t :=
  with_executions (update_first executionId (complete success now)) s.

(** ** Text helpers *)

(** [chunk.split('\n')] *)
Fixpoint split_newline (s : string) : list string :=
  match s with
  | EmptyString => [""]
  | String c rest =>
      if Ascii.eqb c "010"%char then "" :: split_newline rest
      else match split_newline rest with
           | [] => [String c ""]
           | l :: ls => String c l :: ls
           end
  end.

(** [line.slice(n)] *)
Fixpoint slice (n : nat) (s : string) : string :=
  match n, s with
  | O, _ => s
  | S n', String _ rest => slice n' rest
  | S _, EmptyString => ""
  end.

(** ** The backend's answer to [fetch(BACKEND_URL/execute/stream)] *)

Inductive ReadEnd :=
| Done
| ReadError (message : string).

(** A body is the sequence of chunks that [reader.read()] yields, each
    with the time that passed while waiting for it and already decoded to
    text, and the way the stream ends. *)
Inductive BackendResponse :=
| FetchRejected (message : string)
| NoBody
| Body (chunks : list (Z * string)) (terminator : ReadEnd).

Definition wait (dt : Z) : M unit :=
  fun st => Ok tt (with_clock (fun t => t + dt) st).

(** ** [handleToolExecutionRequest] (lines 188-320)

    The handler of a ['tool_execution'] message. The dispatch in
    [handleWebSocketMessage] is not modelled: the handler is run directly,
    with the generated [executionId] and the backend's answer as inputs. *)

Section Relay.
(** [JSON.parse]; [None] when it throws. *)
Variable JSON_parse : string -> option json.

(** The fields of [messageData], the generated [executionId], the
    session and the requesting socket. *)
Variables (tool_name agent : string) (request_id : option string).
Variable executionId : string.
Variable sessionId : string.
Variable websocket : WebSocket.

Definition starting_frame (now : DateString) : Frame :=
  Built (StreamMessage.mk MsgType.progress now
           (StreamMessage.Starting
              ("Starting " +:+ agent +:+ "." +:+ tool_name +:+ " execution...")
              5 executionId)
           "durable-object" sessionId request_id).

Definition raw_frame (now : DateString) (eventData : string) : Frame :=
  Built (StreamMessage.mk MsgType.data now (StreamMessage.RawEvent eventData)
           "backend-raw" sessionId request_id).

Definition error_frame (now : DateString) (message : string) : Frame :=
  Built (StreamMessage.mk MsgType.error now
           (StreamMessage.ExecError message executionId)
           "durable-object" sessionId request_id).

Definition forward_frame (parsedData : json) : Frame :=
  Spread parsedData executionId
    (or_js (prop parsedData "source")
           (Some (JStr "backend-via-durable-object"))).

(** The [catch (parseError)] block (lines 273-283). *)
Definition forward_raw (eventData : string) : M unit :=
  now <- Date_toISOString ;;
  ws_send websocket (raw_frame now eventData).

(** [parsedData.type === 'progress'] *)
Definition is_progress (parsedData : json) : bool :=
  match prop parsedData "type" with
  | Some (JStr s) => String.eqb s "progress"
  | _ => false
  end.

(** Lines 258-261: the session after the in-place progress assignment,
    when the event is a progress event, the session was found and the
    execution is in it. *)
Definition progress_update (parsedData : json)
  (session : option SessionData.t) : option SessionData.t :=
  match session with
  | Some s =>
      if is_progress parsedData then
        match find_execution executionId s with
        | Some _ =>
            Some (updateProgress executionId
                    (opt_prop (prop parsedData "data") "progress") s)
        | None => None
        end
      else None
  | None => None
  end.

(** One line of a chunk (lines 252-284). The local [session] object is
    threaded through; an assignment made before a throw stays made. *)
Definition process_line (line : string) (session : option SessionData.t)
  : M (option SessionData.t) :=
  if String.prefix "data: " line then
    let eventData := slice 6 line in
    match JSON_parse eventData with
    | None => forward_raw eventData ;;; ret session
    | Some JNull =>
        (* [parsedData.type] on [null] throws a TypeError *)
        forward_raw eventData ;;; ret session
    | Some parsedData =>
        let updated := progress_update parsedData session in
        let session' :=
          match updated with Some s' => Some s' | None => session end in
        try_catch
          (match updated with
           | Some s' => storage_put (session_key sessionId) s'
           | None => ret tt
           end ;;;
           ws_send websocket (forward_frame parsedData))
          (fun _ => forward_raw eventData) ;;;
        ret session'
    end
  else ret session.

Fixpoint process_lines (lines : list string) (session : option SessionData.t)
  : M (option SessionData.t) :=
  match lines with
  | [] => ret session
  | line :: rest =>
      session' <- process_line line session ;;
      process_lines rest session'
  end.

(** The [while (true)] loop over [reader.read()] (lines 244-286). *)
Fixpoint read_loop (chunks : list (Z * string)) (terminator : ReadEnd)
  (session : option SessionData.t) : M (option SessionData.t) :=
  match chunks with
  | [] =>
      match terminator with
      | Done => ret session
      | ReadError message => throw message
      end
  | (dt, chunk) :: rest =>
      wait dt ;;;
      session' <- process_lines (split_newline chunk) session ;;
      read_loop rest terminator session'
  end.

(** Lines 193-205. *)
Definition record_start : M (option SessionData.t) :=
  session <- getSessionData sessionId ;;
  match session with
  | Some s =>
      now <- Date_toISOString ;;
      let s' := startExecution executionId tool_name agent now s in
      storage_put (session_key sessionId) s' ;;;
      ret (Some s')
  | None => ret None
  end.

(** Lines 288-297 ([success = true], on the local session) and lines
    301-309 ([success = false], on the session read back from storage). *)
Definition record_end (success : bool) (session : option SessionData.t)
  : M unit :=
  match session with
  | Some s =>
      match find_execution executionId s with
      | Some _ =>
          now <- Date_toISOString ;;
          storage_put (session_key sessionId)
            (completeExecution executionId success now s)
      | None => ret tt
      end
  | None => ret tt
  end.

Definition handleToolExecutionRequest (backend : BackendResponse) : M unit :=
  try_catch
    (session <- record_start ;;
     now <- Date_toISOString ;;
     ws_send websocket (starting_frame now) ;;;
     match backend with
     | FetchRejected message => throw message
     | NoBody => throw "No response body from backend"
     | Body chunks terminator =>
         session' <- read_loop chunks terminator session ;;
         record_end true session'
     end)
    (fun message =>
       session <- getSessionData sessionId ;;
       record_end false session ;;;
       now <- Date_toISOString ;;
       ws_send websocket (error_frame now message)).
End Relay.

(** ** [getSession] (lines 330-342) *)

Definition getSession (sessionId : string) : M Response.t :=
  try_catch
    (session <- storage_get (session_key sessionId) ;;
     match session with
     | None => ret (Response.mk 404 (Response.Text "Session not found"))
     | Some s => ret (Response.mk 200 (Response.Json s))
     end)
    (fun _ => ret (Response.mk 500 (Response.Text "Internal error"))).

(** ** Server-sent event responses

    [getSessionStream] and [createStreamingSession] answer with a
    [ReadableStream] whose [start] enqueues one [data: ...] event; the
    event is kept as the message handed to [JSON.stringify], and
    [closed] tells whether [start] called [controller.close()]. *)

Module SseMessage.
Inductive Data :=
| Current (session : SessionData.t)
| Created (message : string) (session : SessionData.t).

Record t := mk {
  type : MsgType.t;
  timestamp : DateString;
  data : Data;
  source : string;
  sessionId : string
}.
End SseMessage.

Module StreamResponse.
Inductive Body :=
| Text (s : string)
| Events (messages : list SseMessage.t) (closed : bool).

Record t := mk { status : Z; body : Body }.
End StreamResponse.

(** ** [getSessionStream] (lines 344-378) *)

Definition getSessionStream (sessionId : string) : M StreamResponse.t :=
  try_catch
    (session <- getSessionData sessionId ;;
     match session with
     | None =>
         ret (StreamResponse.mk 404 (StreamResponse.Text "Session not found"))
     | Some s =>
         now <- Date_toISOString ;;
         ret (StreamResponse.mk 200
                (StreamResponse.Events
                   [SseMessage.mk MsgType.data now (SseMessage.Current s)
                      "durable-object-stream" sessionId]
                   false))
     end)
    (fun _ =>
       ret (StreamResponse.mk 500 (StreamResponse.Text "Stream setup failed"))).

(** ** [createStreamingSession] (lines 404-451) *)

Definition default_streaming_session (sessionId : string) (now : DateString)
  : SessionData.t :=
  SessionData.mk sessionId now now SessionData.streaming [] 0 now.

Definition createStreamingSession (sessionId : string)
  (body : option PartialSession.t) : M StreamResponse.t :=
  try_catch
    (sessionData <- request_json body ;;
     now <- Date_toISOString ;;
     let session :=
       Object_assign (default_streaming_session sessionId now) sessionData in
     storage_put (session_key sessionId) session ;;;
     now' <- Date_toISOString ;;
     ret (StreamResponse.mk 201
            (StreamResponse.Events
               [SseMessage.mk MsgType.data now'
                  (SseMessage.Created "Streaming session created" session)
                  "durable-object" sessionId]
               true)))
    (fun _ =>
       ret (StreamResponse.mk 400 (StreamResponse.Text "Invalid session data"))).

(** ** Sequences of connection events on one session *)

Inductive ConnEvent :=
| Attach (ws : WebSocket)
| Detach (ws : WebSocket).

Definition run_event (sessionId : string) (st : State) (ev : ConnEvent) : State :=
  match ev with
  | Attach ws => final_state (handleWebSocket ws sessionId st)
  | Detach ws => final_state (on_close ws sessionId st)
  end.

Definition run_events (sessionId : string) (evs : list ConnEvent) (st : State)
  : State :=
  fold_left (run_event sessionId) evs st.

(** A socket is attached when its pair is created and its ['close'] event
    fires at most once, after that: [open] is the set of sockets attached
    and not yet closed. *)
Fixpoint well_formed (open : gset WebSocket) (evs : list ConnEvent) : bool :=
  match evs with
  | [] => true
  | Attach ws :: rest =>
      bool_decide (ws ∉ open) && well_formed (open ∪ {[ws]}) rest
  | Detach ws :: rest =>
      bool_decide (ws ∈ open) && well_formed (open ∖ {[ws]}) rest
  end.

Fixpoint attaches (evs : list ConnEvent) : Z :=
  match evs with
  | [] => 0
  | Attach _ :: rest => 1 + attaches rest
  | Detach _ :: rest => attaches rest
  end.

Fixpoint detaches (evs : list ConnEvent) : Z :=
  match evs with
  | [] => 0
  | Attach _ :: rest => detaches rest
  | Detach _ :: rest => 1 + detaches rest
  end.

(** ** Vocabulary of the statements *)

(** The way a backend answer fails, if it does: a rejected [fetch], a
    missing body, or a read error at the end of the feed. *)
Definition failure_of (backend : BackendResponse) : option string :=
  match backend with
  | FetchRejected message => Some message
  | NoBody => Some "No response body from backend"
  | Body _ (ReadError message) => Some message
  | Body _ Done => None
  end.

(** A frame built by the coordinator with [type: 'error']. *)
Definition is_error_frame (f : Frame) : bool :=
  match f with
  | Built m =>
      match StreamMessage.type m with
      | MsgType.error => true
      | _ => false
      end
  | Spread _ _ _ => false
  end.

(** The frames sent to [ws], oldest first. *)
Definition received (ws : WebSocket) (st : State) : list Frame :=
  map snd (filter (fun p => fst p = ws) (outbox st)).

(** The sweep's deletion test on a stored record at time [now]. *)
Definition idle_beyond_threshold (now : Z) (s : SessionData.t) : Prop :=
  SessionData.websocketConnections s = 0 /\
  exists t, getTime (SessionData.lastActivity s) = Some t /\
            now - t > 60 * 60 * 1000.

(** [clamp(p, 0, 100)], the range the design gives to [progress]. *)
Definition clamp_progress (p : Z) : Z := Z.max 0 (Z.min 100 p).

(** The double-quote character, as a string. *)
Definition quote : string := String "034"%char EmptyString.

Definition progress_event_text : string :=
  "{" +:+ quote +:+ "type" +:+ quote +:+ ":" +:+ quote +:+ "progress" +:+ quote
  +:+ "," +:+ quote +:+ "data" +:+ quote +:+ ":{" +:+ quote +:+ "progress"
  +:+ quote +:+ ":150}}".

(** The restriction of [JSON.parse] to the inputs used in the examples
    below; every other input used there is not JSON. *)
Definition sample_parse (s : string) : option json :=
  if String.eqb s progress_event_text then
    Some (JObj [("type", JStr "progress");
                ("data", JObj [("progress", JNum 150)])])
  else if String.eqb s "null" then Some JNull
  else if String.eqb s "7" then Some (JNum 7)
  else None.

Definition newline : string := String "010"%char EmptyString.

(** The socket's [send] works. *)
Definition sendable (st : State) (ws : WebSocket) : Prop :=
  send_throws (faults st) ws = None.

#[local] Instance sendable_dec st ws : Decision (sendable st ws).
Proof. unfold sendable. apply _. Defined.

(** Storage under the session's key works. *)
Definition storage_works (sessionId : string) (st : State) : Prop :=
  get_throws (faults st) (session_key sessionId) = None /\
  put_throws (faults st) (session_key sessionId) = None.

(** The stored counter equals the number of open sockets: this is kept by
    every well-formed event while the counter stays a safe integer. *)
Definition accounted (sessionId : string) (open : gset WebSocket) (st : State)
  (s : SessionData.t) : Prop :=
  storage_works sessionId st /\
  storage st !! session_key sessionId = Some s /\
  SessionData.websocketConnections s = Z.of_nat (size open).

Section RelayVocabulary.
Variable executionId : string.
Variable sessionId : string.
Variable websocket : WebSocket.

(** No platform call of the relay throws: storage under the session's
    key and [send] on the requesting socket work. *)
Definition quiet (st : State) : Prop :=
  get_throws (faults st) (session_key sessionId) = None /\
  put_throws (faults st) (session_key sessionId) = None /\
  send_throws (faults st) websocket = None.

Definition stored_execution (st : State) : Prop :=
  exists s, storage st !! session_key sessionId = Some s /\
            is_Some (find_execution executionId s).

Definition local_execution (session : option SessionData.t) : Prop :=
  exists s, session = Some s /\ is_Some (find_execution executionId s).

(** What a stretch of the relay may do to the state: send frames that
    are not coordinator errors to the requesting socket, and keep the
    execution in the stored session. *)
Definition relayed (st st' : State) : Prop :=
  faults st' = faults st /\
  websockets st' = websockets st /\
  (stored_execution st -> stored_execution st') /\
  exists sent,
    outbox st' = outbox st ++ map (fun f => (websocket, f)) sent /\
    Forall (fun f => is_error_frame f = false) sent.
End RelayVocabulary.

(** The text of an event does not decode: [JSON.parse] throws on it, or
    yields [null], on which reading [.type] throws. Both land in the
    [catch (parseError)] block. *)
Definition undecodable (JSON_parse : string -> option json)
  (eventData : string) : Prop :=
  JSON_parse eventData = None \/ JSON_parse eventData = Some JNull.

(** A line the relay looks at. *)
Definition is_data_line (line : string) : Prop :=
  String.prefix "data: " line = true.

#[local] Instance is_data_line_dec line : Decision (is_data_line line).
Proof. unfold is_data_line. apply _. Defined.

(** An entry the sweep deletes: a session key whose record is expired. *)
Definition eligible (oneHourAgo : Z) (entry : string * SessionData.t) : bool :=
  String.prefix "session:" (fst entry) && expired oneHourAgo (snd entry).

(** The Store after the sweep has gone through [entries] without a
    failure. *)
Definition swept (oneHourAgo : Z) (entries : list (string * SessionData.t))
  (m : gmap string SessionData.t) : gmap string SessionData.t :=
  fold_left (fun m entry =>
               if eligible oneHourAgo entry then delete (fst entry) m else m)
    entries m.

(** [storage.list()] when it does not throw. *)
Definition sorted_entries (st : State) : list (string * SessionData.t) :=
  merge_sort key_le (map_to_list (storage st)).

(** ** Vocabulary of the further properties *)

(** The status agrees with the counter. *)
Definition status_follows_counter (s : SessionData.t) : Prop :=
  0 <= SessionData.websocketConnections s /\
  (0 < SessionData.websocketConnections s ->
   SessionData.status s = SessionData.streaming) /\
  (SessionData.websocketConnections s = 0 ->
   SessionData.status s = SessionData.inactive).

(** The chunks of a backend answer that has a body. *)
Definition chunks_of (backend : BackendResponse) : list (Z * string) :=
  match backend with
  | Body chunks _ => chunks
  | _ => []
  end.

(** Whether a backend answer fails. *)
Definition failed (backend : BackendResponse) : bool :=
  match failure_of backend with
  | Some _ => true
  | None => false
  end.

(** The number of lines starting with [data: ] in a feed. *)
Definition data_line_count (chunks : list (Z * string)) : nat :=
  length (filter is_data_line
            (flat_map (fun chunk => split_newline (snd chunk)) chunks)).

(** [s] is [s0] with one execution more, at the end, started by this
    request. *)
Definition extended_by (executionId tool_name agent : string)
  (start : DateString) (s0 s : SessionData.t) : Prop :=
  exists e,
    s = with_executions (fun _ => SessionData.toolExecutions s0 ++ [e]) s0 /\
    Execution.id e = executionId /\
    Execution.toolName e = tool_name /\
    Execution.agent e = agent /\
    Execution.startTime e = start.

(** The lines of a chunk, joined again by newlines. *)
Fixpoint join_newline (lines : list string) : string :=
  match lines with
  | [] => ""
  | [line] => line
  | line :: rest => line +:+ newline +:+ join_newline rest
  end.

(** ** The frames of a relay run, written out *)

Section RelayFrames.
Variable JSON_parse : string -> option json.
Variables (tool_name agent : string) (request_id : option string).
Variable executionId : string.
Variable sessionId : string.

(** The start notice: a ['progress'] message of the coordinator with
    progress 5. *)
Definition start_notice (now : DateString) : Frame :=
  Built (StreamMessage.mk MsgType.progress now
           (StreamMessage.Starting
              ("Starting " +:+ agent +:+ "." +:+ tool_name +:+ " execution...")
              5 executionId)
           "durable-object" sessionId request_id).

(** The raw fallback: a ['data'] message of source ['backend-raw']
    carrying the text of the event. *)
Definition raw_event (now : DateString) (eventData : string) : Frame :=
  Built (StreamMessage.mk MsgType.data now (StreamMessage.RawEvent eventData)
           "backend-raw" sessionId request_id).

(** A decoded event, passed on with the execution id and a source. *)
Definition decoded_event (parsedData : json) : Frame :=
  Spread parsedData executionId
    (if truthy (prop parsedData "source") then prop parsedData "source"
     else Some (JStr "backend-via-durable-object")).

(** The error notice: an ['error'] message of the coordinator. *)
Definition error_notice (now : DateString) (message : string) : Frame :=
  Built (StreamMessage.mk MsgType.error now
           (StreamMessage.ExecError message executionId)
           "durable-object" sessionId request_id).

(** The frame that one line of a chunk gives rise to: none for a line
    that does not start with [data: ]; for a data line, the decoded event
    when the text after the prefix decodes, the raw fallback otherwise. *)
Definition line_frame (now : DateString) (line : string) : option Frame :=
  if bool_decide (is_data_line line) then
    match JSON_parse (slice 6 line) with
    | None | Some JNull => Some (raw_event now (slice 6 line))
    | Some parsedData => Some (decoded_event parsedData)
    end
  else None.

(** The frames of a chunk read at time [now], line by line. *)
Definition chunk_frames (now : DateString) (chunk : string) : list Frame :=
  omap (line_frame now) (split_newline chunk).

(** The frames of a feed whose reading starts at time [now]. *)
Fixpoint feed_frames (now : Z) (chunks : list (Z * string)) : list Frame :=
  match chunks with
  | [] => []
  | (dt, chunk) :: rest =>
      chunk_frames (ISO (now + dt)) chunk ++ feed_frames (now + dt) rest
  end.

(** The time spent waiting for the chunks of a feed. *)
Fixpoint feed_time (chunks : list (Z * string)) : Z :=
  match chunks with
  | [] => 0
  | (dt, _) :: rest => dt + feed_time rest
  end.

(** The frames of a whole relay run started at time [now]: the start
    notice, the frames of the feed and, when the backend answer fails,
    the error notice. *)
Definition relay_frames (now : Z) (backend : BackendResponse) : list Frame :=
  start_notice (ISO now)
  :: feed_frames now (chunks_of backend)
  ++ match failure_of backend with
     | Some message =>
         [error_notice (ISO (now + feed_time (chunks_of backend))) message]
     | None => []
     end.
End RelayFrames.

Section RelayInvariantVocabulary.
Variable sessionId : string.
Variable websocket : WebSocket.

(** A property of the session that the tracker steps keep. *)
Variable I : SessionData.t -> Prop.

Local Abbreviation key := (session_key sessionId).

(** What a stretch of the relay does to the state: it sends the frames
    [sent] to the requesting socket, and either leaves the Store alone or
    has put a session with the property under the session's key. *)
Definition kept (st st' : State) (sent : list Frame) : Prop :=
  faults st' = faults st /\
  websockets st' = websockets st /\
  closed st' = closed st /\
  alarm_at st' = alarm_at st /\
  (storage st' = storage st \/
   exists s', I s' /\ storage st' = <[key := s']> (storage st)) /\
  outbox st' = outbox st ++ map (fun f => (websocket, f)) sent.

(** The local session is absent, or has the property. *)
Definition local_ok (session : option SessionData.t) : Prop :=
  match session with
  | Some s => I s
  | None => True
  end.

(** Nothing the loop calls throws: the socket can be written and, when
    there is a session, the Store too. *)
Definition loop_quiet (st : State) (session : option SessionData.t) : Prop :=
  send_throws (faults st) websocket = None /\
  (session <> None -> put_throws (faults st) key = None).
End RelayInvariantVocabulary.

(** ** Proof tools *)

Ltac run_monad :=
  unfold bind, ret, throw, try_catch, Date_toISOString, Date_now,
    get_websockets, websockets_add, websockets_delete, websockets_clear,
    storage_setAlarm, ws_close, wait in *.

(** * Properties *)

(** ** Running the monad *)

Lemma storage_put_ok st key v :
  put_throws (faults st) key = None ->
  storage_put key v st = Ok tt (with_storage (insert key v) st).
Proof. intros H. unfold storage_put. by rewrite H. Qed.

Lemma storage_get_ok st key :
  get_throws (faults st) key = None ->
  storage_get key st = Ok (storage st !! key) st.
Proof. intros H. unfold storage_get. by rewrite H. Qed.

Lemma getSessionData_ok st sessionId :
  get_throws (faults st) (session_key sessionId) = None ->
  getSessionData sessionId st = Ok (storage st !! session_key sessionId) st.
Proof. intros H. unfold getSessionData, try_catch. by rewrite storage_get_ok. Qed.

Lemma ws_send_ok st ws frame :
  send_throws (faults st) ws = None ->
  ws_send ws frame st = Ok tt (with_outbox (fun o => o ++ [(ws, frame)]) st).
Proof. intros H. unfold ws_send. by rewrite H. Qed.

(** ** Session creation *)

(** C1 (as the code has it). [createSession] never looks at the Store
    before writing: with a JSON body it stores, and returns with status
    201, the record made of the defaults overridden by the body's fields,
    whatever was stored under the id; the other keys are untouched. *)
Theorem createSession_overwrites st sessionId d :
  put_throws (faults st) (session_key sessionId) = None ->
  let session :=
    Object_assign (default_session sessionId (ISO (clock st))) d in
  exists st',
    createSession sessionId (Some d) st
      = Ok (Response.mk 201 (Response.Json session)) st' /\
    storage st' !! session_key sessionId = Some session /\
    forall k, k <> session_key sessionId -> storage st' !! k = storage st !! k.
Proof.
  intros Hput session.
  exists (with_storage (insert (session_key sessionId) session) st).
  split; [|split].
  - unfold createSession, request_json. run_monad.
    rewrite storage_put_ok by done. done.
  - simpl. apply lookup_insert_eq.
  - intros k Hk. simpl. by apply lookup_insert_ne.
Qed.

Lemma createSession_overwrites_witness :
  exists st',
    createSession "s1" (Some PartialSession.empty)
      (mkState ∅ [] [] [] None 1000 no_faults)
      = Ok (Response.mk 201
              (Response.Json (default_session "s1" (ISO 1000)))) st'.
Proof.
  destruct (createSession_overwrites (mkState ∅ [] [] [] None 1000 no_faults)
              "s1" PartialSession.empty eq_refl) as (st' & H & _).
  exists st'. exact H.
Defined.

(** C1 (as stated) fails: a session with two live connections and status
    [streaming] is stored under ["s1"]; creating ["s1"] again with an
    empty body replaces it by a fresh [active] record with no
    connections. *)
Lemma createSession_replaces_existing :
  let existing :=
    SessionData.mk "s1" (ISO 0) (ISO 0) SessionData.streaming [] 2 (ISO 0) in
  let st :=
    mkState {[ session_key "s1" := existing ]} [1%nat; 2%nat] [] [] None 5000
      no_faults in
  let after := createSession "s1" (Some PartialSession.empty) st in
  storage st !! session_key "s1" = Some existing /\
  after = Ok (Response.mk 201 (Response.Json (default_session "s1" (ISO 5000))))
             (final_state after) /\
  storage (final_state after) !! session_key "s1"
    = Some (default_session "s1" (ISO 5000)) /\
  default_session "s1" (ISO 5000) <> existing.
Proof.
  cbv zeta. split; [|split; [|split]].
  - apply lookup_singleton_eq.
  - reflexivity.
  - simpl. apply lookup_insert_eq.
  - discriminate.
Qed.

(** ** Broadcast *)

Lemma filter_iff_on {A} (P1 P2 : A -> Prop)
    `{!forall x, Decision (P1 x), !forall x, Decision (P2 x)} (l : list A) :
  (forall x, x ∈ l -> P1 x <-> P2 x) -> filter P1 l = filter P2 l.
Proof.
  induction l as [|a l IH]; intros Hiff; [done|].
  rewrite !filter_cons.
  assert (P1 a <-> P2 a) as Ha by (apply Hiff; by left).
  rewrite IH by (intros x Hx; apply Hiff; by right).
  destruct (decide (P1 a)), (decide (P2 a)); tauto || done.
Qed.

Lemma filter_id_on {A} (P : A -> Prop) `{!forall x, Decision (P x)} (l : list A) :
  (forall x, x ∈ l -> P x) -> filter P l = l.
Proof.
  induction l as [|a l IH]; intros HP; [done|].
  rewrite filter_cons_True by (apply HP; by left).
  f_equal. apply IH. intros x Hx. apply HP. by right.
Qed.

(** The loop never throws: it delivers to every socket of [wss] whose
    [send] works, in order, and drops from the set exactly the sockets of
    [wss] whose [send] throws. *)
Lemma broadcast_loop_spec wss message st :
  broadcast_loop wss message st
  = Ok tt (mkState (storage st)
             (filter (fun w => ~ (w ∈ wss /\ ~ sendable st w)) (websockets st))
             (outbox st ++ map (fun ws => (ws, message))
                             (filter (sendable st) wss))
             (closed st) (alarm_at st) (clock st) (faults st)).
Proof.
  revert st. induction wss as [|ws rest IH]; intros st.
  - simpl. unfold ret. f_equal. destruct st as [sto wl ob cl al ck fl]; simpl.
    f_equal.
    + symmetry. apply filter_id_on. intros w _ [Hin _].
      by apply elem_of_nil in Hin.
    + by rewrite app_nil_r.
  - simpl. unfold bind at 1. unfold try_catch, ws_send.
    destruct (send_throws (faults st) ws) as [e|] eqn:Hs.
    + unfold websockets_delete. rewrite IH. simpl. f_equal. f_equal.
      * rewrite list_filter_filter. apply list_filter_iff. intros w.
        unfold sendable; simpl. rewrite elem_of_cons. split.
        -- intros [H1 H2] [[->|Hin] Hns]; [done|]. apply H1. by split.
        -- intros H. split.
           ++ intros [Hin Hns]. apply H. split; [by right|done].
           ++ intros ->. apply H. split; [by left|]. by rewrite Hs.
      * f_equal. rewrite filter_cons_False; [done|].
        unfold sendable. by rewrite Hs.
    + rewrite IH. simpl. f_equal. f_equal.
      * apply list_filter_iff. intros w. unfold sendable; simpl.
        rewrite elem_of_cons. split.
        -- intros H [[->|Hin] Hns]; [done|]. apply H. by split.
        -- intros H [Hin Hns]. apply H. split; [by right|done].
      * rewrite filter_cons_True by done.
        rewrite <- app_assoc. done.
Qed.

Lemma broadcastToWebSockets_spec message st :
  broadcastToWebSockets message st
  = Ok tt (mkState (storage st)
             (filter (sendable st) (websockets st))
             (outbox st ++ map (fun ws => (ws, message))
                             (filter (sendable st) (websockets st)))
             (closed st) (alarm_at st) (clock st) (faults st)).
Proof.
  unfold broadcastToWebSockets, bind, get_websockets.
  rewrite broadcast_loop_spec. f_equal. f_equal.
  apply filter_iff_on. intros w Hw. split.
  - intros H. destruct (decide (sendable st w)) as [|Hn]; [done|].
    exfalso. apply H. by split.
  - intros H [_ Hn]. done.
Qed.

(** C5. With [N] sockets in the set, exactly one of which throws on
    [send], [broadcastToWebSockets] returns normally, has sent the message
    to each of the other [N-1] sockets (in the order of the set) and has
    removed the failing socket, and only it, from the set. *)
Theorem broadcast_isolation st message broken :
  NoDup (websockets st) ->
  broken ∈ websockets st ->
  ~ sendable st broken ->
  (forall ws, ws ∈ websockets st -> ws <> broken -> sendable st ws) ->
  exists st',
    broadcastToWebSockets message st = Ok tt st' /\
    websockets st' = filter (fun ws => ws <> broken) (websockets st) /\
    outbox st' = outbox st ++ map (fun ws => (ws, message)) (websockets st') /\
    length (websockets st') = (length (websockets st) - 1)%nat /\
    (forall ws, ws ∈ websockets st -> ws <> broken ->
                (ws, message) ∈ outbox st' /\ ws ∈ websockets st') /\
    storage st' = storage st.
Proof.
  intros Hnd Hin Hbad Hgood.
  rewrite broadcastToWebSockets_spec. eexists. split; [reflexivity|].
  simpl.
  assert (filter (sendable st) (websockets st)
          = filter (fun ws => ws <> broken) (websockets st)) as Hf.
  { apply filter_iff_on. intros w Hw. split.
    - intros Hs ->. done.
    - intros Hne. by apply Hgood. }
  rewrite Hf. split; [done|]. split; [done|]. split; [|split; [|done]].
  - clear Hf Hbad Hgood. revert Hnd Hin.
    generalize (websockets st). intros l Hnd Hin.
    induction Hnd as [|a l Ha Hnd IH]; [by apply elem_of_nil in Hin|].
    apply elem_of_cons in Hin as [->|Hin].
    + rewrite filter_cons_False by (intros H; by apply H).
      rewrite filter_id_on; [simpl; lia|].
      intros x Hx ->. done.
    + rewrite filter_cons_True by (intros ->; done).
      simpl. rewrite IH by done.
      destruct l; [by apply elem_of_nil in Hin|simpl; lia].
  - intros ws Hws Hne.
    assert (ws ∈ filter (fun ws => ws <> broken) (websockets st)) as Hmem
      by (apply list_elem_of_filter; by split).
    split; [|done].
    apply elem_of_app. right.
    apply (list_elem_of_fmap_2 (fun ws0 : WebSocket => (ws0, message))) in Hmem.
    exact Hmem.
Qed.

Lemma broadcast_isolation_witness :
  exists st',
    broadcastToWebSockets (deleting_frame (ISO 0) "s1")
      (mkState ∅ [1%nat; 2%nat; 3%nat] [] [] None 0
         (mkFaults (fun _ => None) (fun _ => None) (fun _ => None) None
            (fun ws => if Nat.eqb ws 2 then Some "closed" else None)))
    = Ok tt st' /\
    websockets st' = [1%nat; 3%nat] /\
    map fst (outbox st') = [1%nat; 3%nat].
Proof.
  destruct (broadcast_isolation
              (mkState ∅ [1%nat; 2%nat; 3%nat] [] [] None 0
                 (mkFaults (fun _ => None) (fun _ => None) (fun _ => None) None
                    (fun ws => if Nat.eqb ws 2 then Some "closed" else None)))
              (deleting_frame (ISO 0) "s1") 2%nat)
    as (st' & Hrun & Hws & Hout & _).
  - simpl. apply (bool_decide_unpack _). reflexivity.
  - simpl. apply (bool_decide_unpack _). reflexivity.
  - unfold sendable. simpl. discriminate.
  - intros ws Hws Hne. unfold sendable. simpl.
    destruct (Nat.eqb_spec ws 2); [done|done].
  - exists st'. split; [exact Hrun|].
    rewrite Hout, Hws. simpl. split; reflexivity.
Defined.

(** ** Deletion *)

Lemma close_all_spec wss st :
  close_all wss st = Ok tt (with_closed (fun c => c ++ wss) st).
Proof.
  revert st. induction wss as [|ws rest IH]; intros st.
  - simpl. unfold ret, with_closed. rewrite app_nil_r. by destruct st.
  - simpl. unfold bind, ws_close. rewrite IH. unfold with_closed. simpl.
    by rewrite <- app_assoc.
Qed.

(** C10. When nothing is stored under the session's key (and
    [storage.delete] does not throw), [deleteSession] has, by the time it
    answers 404, sent the shutdown message to every socket of the set
    whose [send] works, in the order of the set: a message of type
    ['connection'] and source ['durable-object'], carrying the text
    "Session being deleted, closing connections", the session's id and
    the time of the call. It has closed exactly those sockets and emptied
    the set: a socket whose [send] throws is removed from the set without
    being closed. The Store is as it was. When every [send] works, the
    sockets reached are all the attached ones. *)
Theorem deleteSession_absent_still_disconnects st sessionId :
  storage st !! session_key sessionId = None ->
  delete_throws (faults st) (session_key sessionId) = None ->
  let reached := filter (sendable st) (websockets st) in
  let shutdown :=
    Built (StreamMessage.mk MsgType.connection (ISO (clock st))
             (StreamMessage.Deleting
                "Session being deleted, closing connections" sessionId)
             "durable-object" sessionId None) in
  exists st',
    deleteSession sessionId st
      = Ok (Response.mk 404 (Response.Text "Session not found")) st' /\
    outbox st' = outbox st ++ map (fun ws => (ws, shutdown)) reached /\
    closed st' = closed st ++ reached /\
    websockets st' = [] /\
    storage st' = storage st /\
    (forall ws, ws ∈ reached <-> ws ∈ websockets st /\ sendable st ws) /\
    ((forall ws, ws ∈ websockets st -> sendable st ws) ->
     reached = websockets st).
Proof.
  intros Habs Hdel reached shutdown.
  unfold deleteSession, try_catch.
  unfold bind at 1. unfold Date_toISOString.
  unfold bind at 1. rewrite broadcastToWebSockets_spec.
  unfold bind at 1. unfold get_websockets. cbn [websockets].
  unfold bind at 1. rewrite close_all_spec.
  unfold bind at 1. unfold websockets_clear.
  unfold bind at 1. unfold storage_delete. cbn [faults with_websockets with_closed storage].
  rewrite Hdel. rewrite Habs.
  rewrite bool_decide_eq_false_2 by (intros [? ?]; done).
  cbn [negb]. unfold ret. eexists. split; [reflexivity|].
  cbn. rewrite delete_id by done.
  split; [done|]. split; [done|]. split; [done|]. split; [done|]. split.
  - intros ws. unfold reached. rewrite list_elem_of_filter. tauto.
  - intros Hall. by apply filter_id_on.
Qed.

Lemma deleteSession_absent_still_disconnects_witness :
  let st :=
    mkState ∅ [1%nat; 2%nat; 3%nat] [] [] None 7
      (mkFaults (fun _ => None) (fun _ => None) (fun _ => None) None
         (fun ws => if (ws =? 2)%nat then Some "socket closed" else None)) in
  let shutdown :=
    Built (StreamMessage.mk MsgType.connection (ISO 7)
             (StreamMessage.Deleting
                "Session being deleted, closing connections" "ghost")
             "durable-object" "ghost" None) in
  exists st',
    deleteSession "ghost" st
    = Ok (Response.mk 404 (Response.Text "Session not found")) st' /\
    outbox st' = [(1%nat, shutdown); (3%nat, shutdown)] /\
    closed st' = [1%nat; 3%nat] /\
    websockets st' = [] /\
    storage st' = ∅.
Proof.
  cbv zeta.
  destruct (deleteSession_absent_still_disconnects
              (mkState ∅ [1%nat; 2%nat; 3%nat] [] [] None 7
                 (mkFaults (fun _ => None) (fun _ => None) (fun _ => None) None
                    (fun ws => if (ws =? 2)%nat then Some "socket closed"
                               else None)))
              "ghost")
    as (st' & Hrun & Hout & Hcl & Hws & Hsto & _).
  - apply lookup_empty.
  - reflexivity.
  - exists st'. split; [exact Hrun|].
    rewrite Hout, Hcl, Hws, Hsto. repeat split; reflexivity.
Defined.

(** C10 (as stated) fails: an attached socket whose [send] throws gets
    no shutdown message and is not closed, because the broadcast removes
    it from the set before the closing loop runs. *)
Lemma unreachable_socket_is_dropped_unclosed :
  let st :=
    mkState ∅ [1%nat; 2%nat] [] [] None 7
      (mkFaults (fun _ => None) (fun _ => None) (fun _ => None) None
         (fun ws => if (ws =? 2)%nat then Some "socket closed" else None)) in
  storage st !! session_key "ghost" = None /\
  2%nat ∈ websockets st /\
  exists st',
    deleteSession "ghost" st
    = Ok (Response.mk 404 (Response.Text "Session not found")) st' /\
    received 2%nat st' = [] /\
    (2%nat ∉ closed st') /\
    closed st' = [1%nat] /\
    websockets st' = [].
Proof.
  cbv zeta. split; [apply lookup_empty|].
  split; [apply elem_of_cons; right; apply elem_of_cons; by left|].
  eexists. split; [vm_compute; reflexivity|].
  cbn [closed websockets]. split; [vm_compute; reflexivity|].
  split; [|done].
  intros Hin. apply list_elem_of_singleton in Hin. discriminate.
Qed.

(** ** Numbers *)

Lemma to_double_exact z : Z.abs z <= 2 ^ 53 -> to_double z = z.
Proof.
  intros H. unfold to_double.
  destruct (Z.leb_spec (Z.abs z) (2 ^ 53)); [reflexivity|lia].
Qed.

(** Beyond [2^53] rounding keeps the sign and never reaches 0. *)
Lemma to_double_magnitude z :
  2 ^ 53 < Z.abs z ->
  exists k, 0 < k /\ to_double z = Z.sgn z * k.
Proof.
  intros H. unfold to_double.
  destruct (Z.leb_spec (Z.abs z) (2 ^ 53)) as [Hle|_]; [lia|].
  set (a := Z.abs z) in *.
  assert (53 <= Z.log2 a) as Hlog.
  { rewrite <- (Z.log2_pow2 53) by lia. apply Z.log2_le_mono. lia. }
  set (ulp := 2 ^ (Z.log2 a - 52)).
  assert (0 < ulp) as Hulp by (apply Z.pow_pos_nonneg; lia).
  assert (ulp <= a) as Hua.
  { transitivity (2 ^ Z.log2 a).
    - apply Z.pow_le_mono_r; lia.
    - apply Z.log2_spec. lia. }
  assert (0 < a / ulp) as Hq by (apply Z.div_str_pos; lia).
  eexists. split; [|reflexivity].
  apply Z.mul_pos_pos; [|assumption].
  destruct (2 * (a mod ulp) <? ulp); [assumption|].
  destruct (ulp <? 2 * (a mod ulp)); [lia|].
  destruct (Z.even (a / ulp)); lia.
Qed.

Lemma to_double_pos z : 0 < z -> 0 < to_double z.
Proof.
  intros Hz. destruct (Z_le_gt_dec (Z.abs z) (2 ^ 53)) as [Hle|Hgt].
  - rewrite to_double_exact; assumption.
  - destruct (to_double_magnitude z) as (k & Hk & ->); [lia|].
    rewrite Z.sgn_pos by assumption. lia.
Qed.

Lemma to_double_nonpos z : z <= 0 -> to_double z <= 0.
Proof.
  intros Hz. destruct (Z_le_gt_dec (Z.abs z) (2 ^ 53)) as [Hle|Hgt].
  - rewrite to_double_exact; assumption.
  - destruct (to_double_magnitude z) as (k & Hk & ->); [lia|].
    rewrite Z.sgn_neg by lia. lia.
Qed.

(** Counting up by one is exact as long as the result is at most [2^53],
    counting down by one as long as the start is. *)
Lemma js_add_one_exact n : 0 <= n -> n + 1 <= 2 ^ 53 -> js_add n 1 = n + 1.
Proof. intros H0 H1. apply to_double_exact. lia. Qed.

Lemma js_sub_one_exact n : 0 <= n -> n <= 2 ^ 53 -> js_sub n 1 = n - 1.
Proof. intros H0 H1. apply to_double_exact. lia. Qed.

(** At [2^53] the counter stops counting: [2^53 + 1] is not a double. *)
Example counter_saturates : js_add (2 ^ 53) 1 = 2 ^ 53.
Proof. vm_compute. reflexivity. Qed.

(** ** Attach and detach *)

(** What an event stores when the Store works, whether or not the welcome
    message can be sent: the [put] comes before the [send]. *)
Lemma run_event_stores st sessionId s ev :
  storage_works sessionId st ->
  storage st !! session_key sessionId = Some s ->
  storage_works sessionId (run_event sessionId st ev) /\
  storage (run_event sessionId st ev) !! session_key sessionId
  = Some (match ev with
          | Attach _ => attach_session (ISO (clock st)) s
          | Detach _ => detach_session (ISO (clock st)) s
          end).
Proof.
  intros [Hget Hput] Hs. unfold storage_works.
  destruct ev as [ws|ws]; unfold run_event.
  - unfold handleWebSocket, try_catch, bind, websockets_add, getSessionData,
      try_catch, storage_get, ret, Date_toISOString, storage_put, ws_send.
    cbn [faults storage with_websockets]. rewrite Hget, Hs.
    cbn [faults storage with_websockets]. rewrite Hput.
    cbn [faults storage with_storage with_websockets].
    destruct (send_throws (faults st) ws);
      cbn [final_state faults storage with_storage with_websockets with_outbox];
      (split; [by split|apply lookup_insert_eq]).
  - unfold on_close, bind, websockets_delete, getSessionData,
      try_catch, storage_get, ret, Date_toISOString, storage_put.
    cbn [faults storage with_websockets]. rewrite Hget, Hs.
    cbn [faults storage with_websockets]. rewrite Hput.
    cbn [final_state faults storage with_storage with_websockets].
    split; [by split|apply lookup_insert_eq].
Qed.

Lemma attaches_nonneg evs : 0 <= attaches evs.
Proof. induction evs as [|[ws|ws] evs IH]; simpl; lia. Qed.

Lemma attaches_take n evs : attaches (take n evs) <= attaches evs.
Proof.
  revert n. induction evs as [|[ws|ws] evs IH]; intros [|n]; simpl;
    try lia; try (pose proof (attaches_nonneg evs); lia);
    specialize (IH n); lia.
Qed.

Lemma accounted_attach sessionId open st s ws :
  accounted sessionId open st s -> ws ∉ open ->
  SessionData.websocketConnections s + 1 <= 2 ^ 53 ->
  exists s',
    accounted sessionId (open ∪ {[ws]}) (run_event sessionId st (Attach ws)) s' /\
    SessionData.websocketConnections s'
      = SessionData.websocketConnections s + 1.
Proof.
  intros (Hw & Hs & Hc) Hnew Hmax.
  destruct (run_event_stores st sessionId s (Attach ws) Hw Hs) as [Hw' Hs'].
  exists (attach_session (ISO (clock st)) s).
  assert (SessionData.websocketConnections (attach_session (ISO (clock st)) s)
          = SessionData.websocketConnections s + 1) as Hone.
  { unfold attach_session. simpl. apply js_add_one_exact; lia. }
  split; [|exact Hone]. split; [done|]. split; [done|].
  rewrite Hone, size_union by (by apply disjoint_singleton_r).
  rewrite size_singleton. lia.
Qed.

Lemma accounted_detach sessionId open st s ws :
  accounted sessionId open st s -> ws ∈ open ->
  SessionData.websocketConnections s <= 2 ^ 53 ->
  exists s',
    accounted sessionId (open ∖ {[ws]}) (run_event sessionId st (Detach ws)) s' /\
    SessionData.websocketConnections s'
      = SessionData.websocketConnections s - 1.
Proof.
  intros (Hw & Hs & Hc) Hin Hmax.
  destruct (run_event_stores st sessionId s (Detach ws) Hw Hs) as [Hw' Hs'].
  exists (detach_session (ISO (clock st)) s).
  assert (1 <= size open)%nat as Hpos.
  { rewrite <- (size_singleton (C:=gset WebSocket) ws).
    apply subseteq_size. by apply singleton_subseteq_l. }
  assert (size (open ∖ {[ws]}) = (size open - 1)%nat) as Hsz.
  { rewrite size_difference by (by apply singleton_subseteq_l).
    by rewrite size_singleton. }
  assert (SessionData.websocketConnections (detach_session (ISO (clock st)) s)
          = SessionData.websocketConnections s - 1) as Hone.
  { unfold detach_session. simpl. rewrite js_sub_one_exact by lia. lia. }
  split; [|exact Hone]. split; [done|]. split; [done|].
  rewrite Hone, Hsz. lia.
Qed.

Lemma accounting_from sessionId evs :
  forall open st s n,
    accounted sessionId open st s ->
    well_formed open evs = true ->
    SessionData.websocketConnections s + attaches evs <= 2 ^ 53 ->
    exists s',
      storage (run_events sessionId (take n evs) st) !! session_key sessionId
        = Some s' /\
      SessionData.websocketConnections s'
        = SessionData.websocketConnections s
          + attaches (take n evs) - detaches (take n evs) /\
      0 <= SessionData.websocketConnections s'.
Proof.
  induction evs as [|ev evs IH]; intros open st s n Hacc Hwf Hmax.
  - rewrite take_nil. simpl. exists s.
    destruct Hacc as (_ & Hs & Hc).
    split; [done|]. split; lia.
  - destruct n as [|n].
    + simpl. exists s.
      destruct Hacc as (_ & Hs & Hc).
      split; [done|]. split; lia.
    + pose proof (attaches_nonneg evs) as Hnn.
      pose proof Hacc as (_ & _ & Hsize).
      simpl in Hwf, Hmax. destruct ev as [ws|ws];
        apply andb_true_iff in Hwf as [Hws Hwf];
        apply bool_decide_eq_true in Hws.
      * destruct (accounted_attach _ _ _ _ _ Hacc Hws) as (s1 & Hacc1 & Hc1);
          [lia|].
        destruct (IH _ _ _ n Hacc1 Hwf) as (s' & Hs' & Hc' & Hpos); [lia|].
        exists s'. simpl. split; [done|]. split; [lia|done].
      * destruct (accounted_detach _ _ _ _ _ Hacc Hws) as (s1 & Hacc1 & Hc1);
          [lia|].
        destruct (IH _ _ _ n Hacc1 Hwf) as (s' & Hs' & Hc' & Hpos); [lia|].
        exists s'. simpl. split; [done|]. split; [lia|done].
Qed.

Lemma status_follows_counter_step now s ev :
  0 <= SessionData.websocketConnections s ->
  (0 < SessionData.websocketConnections s ->
   SessionData.status s = SessionData.streaming) ->
  status_follows_counter
    (match ev with
     | Attach _ => attach_session now s
     | Detach _ => detach_session now s
     end).
Proof.
  intros Hc Hst. destruct ev; unfold status_follows_counter; simpl.
  - assert (0 < js_add (SessionData.websocketConnections s) 1) as Hpos
      by (apply to_double_pos; lia).
    split; [lia|]. split; [done|lia].
  - destruct (Z.eqb_spec
                (Z.max 0 (js_sub (SessionData.websocketConnections s) 1)) 0)
      as [He|Hne].
    + split; [lia|]. split; [lia|done].
    + split; [lia|]. split; [|lia]. intros _. apply Hst.
      destruct (Z_le_gt_dec (SessionData.websocketConnections s) 0) as [Hle|Hgt];
        [|lia].
      pose proof (to_double_nonpos (SessionData.websocketConnections s - 1))
        as Hn. unfold js_sub in Hne. lia.
Qed.

(** After at least one event the status agrees with the counter. *)
Lemma status_follows_counter_from sessionId evs : forall st s,
  storage_works sessionId st ->
  storage st !! session_key sessionId = Some s ->
  0 <= SessionData.websocketConnections s ->
  (0 < SessionData.websocketConnections s ->
   SessionData.status s = SessionData.streaming) ->
  evs <> [] ->
  exists s',
    storage (run_events sessionId evs st) !! session_key sessionId = Some s' /\
    status_follows_counter s'.
Proof.
  induction evs as [|ev evs IH]; intros st s Hw Hs Hc Hst Hne; [done|].
  destruct (run_event_stores st sessionId s ev Hw Hs) as [Hw1 Hs1].
  pose proof (status_follows_counter_step (ISO (clock st)) s ev Hc Hst)
    as (H0 & Hpos & Hzero).
  destruct evs as [|ev' evs].
  - eexists. split; [exact Hs1|]. done.
  - simpl. eapply (IH _ _ Hw1 Hs1); done.
Qed.



(** C2. Take a stored session that counts no connection, whatever its
    status, a Store that works (the welcome message may fail to be sent:
    the upgrade is then answered 500 and stays counted), and any sequence
    of at most [2^53] attaches and any number of detaches in which a
    socket is detached only while attached. After every prefix of the
    sequence the stored [websocketConnections] is the number of attaches
    minus the number of detaches so far, and it is not negative. Before the
    first event the record is as it was stored; after every non-empty
    prefix the stored status is [streaming] exactly when the counter is
    positive, and [inactive] exactly when it is 0. *)
Theorem attach_detach_accounting st sessionId s0 evs :
  storage_works sessionId st ->
  storage st !! session_key sessionId = Some s0 ->
  SessionData.websocketConnections s0 = 0 ->
  well_formed ∅ evs = true ->
  attaches evs <= 2 ^ 53 ->
  forall n,
    exists s,
      storage (run_events sessionId (take n evs) st) !! session_key sessionId
        = Some s /\
      SessionData.websocketConnections s
        = attaches (take n evs) - detaches (take n evs) /\
      0 <= SessionData.websocketConnections s /\
      (take n evs = [] -> s = s0) /\
      (take n evs <> [] ->
       (SessionData.status s = SessionData.streaming
        <-> 0 < SessionData.websocketConnections s) /\
       (SessionData.status s = SessionData.inactive
        <-> SessionData.websocketConnections s = 0)).
Proof.
  intros Hw Hs Hc Hwf Hmax n.
  destruct (accounting_from sessionId evs ∅ st s0 n) as (s & H1 & H2 & H3).
  - split; [done|]. split; [done|]. by rewrite size_empty.
  - done.
  - lia.
  - exists s. split; [done|]. split; [lia|]. split; [done|]. split.
    + intros Hnil. rewrite Hnil in H1. simpl in H1. congruence.
    + intros Hne.
      destruct (status_follows_counter_from sessionId (take n evs) st s0)
        as (s' & Hs' & H0 & Hpos & Hzero); [done|done|lia|lia|done|].
      assert (s' = s) as -> by congruence.
      split; split.
      * intros Hstr.
        destruct (Z.eq_dec (SessionData.websocketConnections s) 0) as [Hz|Hnz];
          [|lia].
        rewrite Hzero in Hstr by done. discriminate.
      * exact Hpos.
      * intros Hin.
        destruct (Z.eq_dec (SessionData.websocketConnections s) 0) as [Hz|Hnz];
          [done|].
        rewrite Hpos in Hin by lia. discriminate.
      * exact Hzero.
Qed.

Lemma attach_detach_accounting_witness :
  let evs := [Attach 1%nat; Attach 2%nat; Detach 1%nat; Attach 3%nat] in
  let st :=
    mkState
      {[ session_key "s2" := default_streaming_session "s2" (ISO 0) ]}
      [] [] [] None 0
      (mkFaults (fun _ => None) (fun _ => None) (fun _ => None) None
         (fun ws => if (ws =? 2)%nat then Some "socket closed" else None)) in
  well_formed ∅ evs = true /\ attaches evs <= 2 ^ 53 /\
  exists s,
    storage (run_events "s2" (take 3 evs) st) !! session_key "s2" = Some s /\
    SessionData.websocketConnections s
      = attaches (take 3 evs) - detaches (take 3 evs) /\
    0 <= SessionData.websocketConnections s /\
    (take 3 evs = [] -> s = default_streaming_session "s2" (ISO 0)) /\
    (take 3 evs <> [] ->
     (SessionData.status s = SessionData.streaming
      <-> 0 < SessionData.websocketConnections s) /\
     (SessionData.status s = SessionData.inactive
      <-> SessionData.websocketConnections s = 0)).
Proof.
  cbv zeta. split; [vm_compute; reflexivity|].
  split; [vm_compute; discriminate|].
  apply (attach_detach_accounting _ "s2"
           (default_streaming_session "s2" (ISO 0))).
  - split; reflexivity.
  - apply lookup_singleton_eq.
  - reflexivity.
  - vm_compute; reflexivity.
  - vm_compute; discriminate.
Defined.

(** C2 (as stated) fails: the record that [createStreamingSession]
    stores has status [streaming] and counts no connection, so before the
    first attach the status is [streaming] although the counter is 0. *)
Lemma streaming_session_counts_nobody :
  let evs := [Attach 1%nat; Detach 1%nat] in
  let st :=
    final_state
      (createStreamingSession "s1" (Some PartialSession.empty)
         (mkState ∅ [] [] [] None 10 no_faults)) in
  well_formed ∅ evs = true /\
  exists s,
    storage (run_events "s1" (take 0 evs) st) !! session_key "s1" = Some s /\
    SessionData.websocketConnections s
      = attaches (take 0 evs) - detaches (take 0 evs) /\
    SessionData.status s = SessionData.streaming /\
    ~ (SessionData.status s = SessionData.streaming
       <-> 0 < SessionData.websocketConnections s).
Proof.
  cbv zeta. split; [vm_compute; reflexivity|].
  exists (default_streaming_session "s1" (ISO 10)).
  split; [vm_compute; reflexivity|].
  split; [reflexivity|]. split; [reflexivity|].
  simpl. intros [H _]. specialize (H eq_refl). lia.
Qed.

(** The scenario of the design: two sockets attach, one detaches (the
    session still counts one and is [streaming]), the other detaches (the
    session counts none and is [inactive]). *)
Example two_sockets_scenario :
  let st :=
    mkState {[ session_key "s2" := default_session "s2" (ISO 0) ]}
      [] [] [] None 0 no_faults in
  let st3 := run_events "s2" [Attach 1%nat; Attach 2%nat; Detach 1%nat] st in
  let st4 := run_event "s2" st3 (Detach 2%nat) in
  (SessionData.websocketConnections <$> storage st3 !! session_key "s2",
   SessionData.status <$> storage st3 !! session_key "s2") =
    (Some 1, Some SessionData.streaming) /\
  (SessionData.websocketConnections <$> storage st4 !! session_key "s2",
   SessionData.status <$> storage st4 !! session_key "s2") =
    (Some 0, Some SessionData.inactive).
Proof. vm_compute. split; reflexivity. Qed.

(** An upgrade whose welcome message cannot be sent is answered 500 and
    its socket gets no ['close'] listener, yet it has been counted: the
    session is [streaming] with one connection. *)
Example failed_upgrade_stays_counted :
  let st :=
    mkState {[ session_key "s2" := default_session "s2" (ISO 0) ]}
      [] [] [] None 0
      (mkFaults (fun _ => None) (fun _ => None) (fun _ => None) None
         (fun _ => Some "socket closed")) in
  exists st',
    handleWebSocket 1%nat "s2" st
      = Ok (Response.mk 500 (Response.Text "WebSocket setup failed")) st' /\
    (SessionData.websocketConnections <$> storage st' !! session_key "s2",
     SessionData.status <$> storage st' !! session_key "s2") =
      (Some 1, Some SessionData.streaming).
Proof. eexists. split; vm_compute; reflexivity. Qed.

(** ** The execution tracker *)

Lemma find_update_first executionId f l :
  (forall e, Execution.id (f e) = Execution.id e) ->
  List.find (has_id executionId) (update_first executionId f l)
  = f <$> List.find (has_id executionId) l.
Proof.
  intros Hid. induction l as [|e rest IH]; [done|].
  simpl. destruct (has_id executionId e) eqn:He.
  - simpl. unfold has_id in *. rewrite Hid, He. done.
  - simpl. rewrite He. exact IH.
Qed.

Lemma find_updateProgress executionId p s :
  find_execution executionId (updateProgress executionId p s)
  = set_progress p <$> find_execution executionId s.
Proof. unfold find_execution. simpl. by apply find_update_first. Qed.

Lemma find_completeExecution executionId success now s :
  find_execution executionId (completeExecution executionId success now s)
  = complete success now <$> find_execution executionId s.
Proof.
  unfold find_execution. simpl. apply find_update_first.
  intros e. by destruct success.
Qed.

Lemma find_startExecution executionId tool_name agent now s :
  is_Some (find_execution executionId
             (startExecution executionId tool_name agent now s)).
Proof.
  unfold find_execution. simpl.
  induction (SessionData.toolExecutions s) as [|e rest IH]; simpl.
  - unfold has_id. simpl. rewrite String.eqb_refl. by eexists.
  - destruct (has_id executionId e); [by eexists|exact IH].
Qed.

(** C4 (as the code has it). The progress step has no guard on the status
    and no clamp: on the execution found under the id, terminal or not,
    it stores the received value as it is when that value is truthy
    (for a number: not 0), and keeps the old progress otherwise; status
    and end time are untouched. *)
Theorem updateProgress_stores_value s executionId e p :
  find_execution executionId s = Some e ->
  exists e',
    find_execution executionId (updateProgress executionId p s) = Some e' /\
    Execution.progress e' = (if truthy p then p else Execution.progress e) /\
    Execution.status e' = Execution.status e /\
    Execution.endTime e' = Execution.endTime e.
Proof.
  intros Hfind. exists (set_progress p e).
  rewrite find_updateProgress, Hfind. done.
Qed.

Lemma updateProgress_stores_value_witness :
  let s := startExecution "exec_1" "scan" "bug_hunter" (ISO 0)
             (default_session "s1" (ISO 0)) in
  find_execution "exec_1" s
    = Some (new_execution "exec_1" "scan" "bug_hunter" (ISO 0)) /\
  exists e',
    find_execution "exec_1" (updateProgress "exec_1" (Some (JNum 50)) s)
      = Some e' /\
    Execution.progress e' = Some (JNum 50) /\
    Execution.status e' = Execution.running /\
    Execution.endTime e' = None.
Proof.
  cbv zeta. split; [reflexivity|].
  apply (updateProgress_stores_value _ "exec_1"
           (new_execution "exec_1" "scan" "bug_hunter" (ISO 0))
           (Some (JNum 50))).
  reflexivity.
Defined.

(** C4 (as stated) fails on both counts: progress 150 on a running
    execution is stored as 150, not as the clamped 100; and progress 50
    on an execution that has completed (progress 100) is stored too. *)
Lemma progress_neither_clamped_nor_guarded :
  let s := startExecution "exec_1" "scan" "bug_hunter" (ISO 0)
             (default_session "s1" (ISO 0)) in
  let done_ := completeExecution "exec_1" true (ISO 10) s in
  (Execution.status <$> find_execution "exec_1" s) = Some Execution.running /\
  (Execution.progress <$>
     find_execution "exec_1" (updateProgress "exec_1" (Some (JNum 150)) s))
    = Some (Some (JNum 150)) /\
  clamp_progress 150 = 100 /\
  (Execution.terminal <$> find_execution "exec_1" done_) = Some true /\
  (Execution.progress <$> find_execution "exec_1" done_)
    = Some (Some (JNum 100)) /\
  (Execution.progress <$>
     find_execution "exec_1" (updateProgress "exec_1" (Some (JNum 50)) done_))
    = Some (Some (JNum 50)).
Proof. cbv zeta. repeat split; reflexivity. Qed.

(** ** The relay *)

Lemma bind_ok {A B} (m : M A) (k : A -> M B) st a st' :
  m st = Ok a st' -> bind m k st = k a st'.
Proof. intros H. unfold bind. by rewrite H. Qed.

Lemma bind_throw {A B} (m : M A) (k : A -> M B) st e st' :
  m st = Throw e st' -> bind m k st = Throw e st'.
Proof. intros H. unfold bind. by rewrite H. Qed.

Lemma try_ok {A} (m : M A) h st a st' :
  m st = Ok a st' -> try_catch m h st = Ok a st'.
Proof. intros H. unfold try_catch. by rewrite H. Qed.

Lemma try_throw {A} (m : M A) h st e st' :
  m st = Throw e st' -> try_catch m h st = h e st'.
Proof. intros H. unfold try_catch. by rewrite H. Qed.

Section RelayProperties.
Variable JSON_parse : string -> option json.
Variables (tool_name agent : string) (request_id : option string).
Variable executionId : string.
Variable sessionId : string.
Variable websocket : WebSocket.

Local Abbreviation process_line' :=
  (process_line JSON_parse request_id executionId sessionId websocket).
Local Abbreviation process_lines' :=
  (process_lines JSON_parse request_id executionId sessionId websocket).
Local Abbreviation read_loop' :=
  (read_loop JSON_parse request_id executionId sessionId websocket).
Local Abbreviation relay :=
  (handleToolExecutionRequest JSON_parse tool_name agent request_id
     executionId sessionId websocket).
Local Abbreviation quiet' := (quiet sessionId websocket).
Local Abbreviation stored' := (stored_execution executionId sessionId).
Local Abbreviation local' := (local_execution executionId).
Local Abbreviation relayed' := (relayed executionId sessionId websocket).

Lemma relayed_refl st : relayed' st st.
Proof.
  split; [done|]. split; [done|]. split; [done|].
  exists []. simpl. by rewrite app_nil_r.
Qed.

Lemma relayed_trans st1 st2 st3 :
  relayed' st1 st2 -> relayed' st2 st3 -> relayed' st1 st3.
Proof.
  intros (Hf1 & Hw1 & Hs1 & sent1 & Ho1 & Hn1)
         (Hf2 & Hw2 & Hs2 & sent2 & Ho2 & Hn2).
  split; [congruence|]. split; [congruence|]. split; [tauto|].
  exists (sent1 ++ sent2). split.
  - rewrite Ho2, Ho1, map_app, app_assoc. done.
  - by apply Forall_app.
Qed.

Lemma quiet_relayed st st' : quiet' st -> relayed' st st' -> quiet' st'.
Proof. intros Hq (Hf & _). unfold quiet. by rewrite Hf. Qed.

Lemma relayed_send st frame :
  is_error_frame frame = false ->
  relayed' st (with_outbox (fun o => o ++ [(websocket, frame)]) st).
Proof.
  intros Hne. split; [done|]. split; [done|]. split; [done|].
  exists [frame]. split; [done|]. by constructor.
Qed.

Lemma relayed_put st s :
  is_Some (find_execution executionId s) ->
  relayed' st (with_storage (insert (session_key sessionId) s) st).
Proof.
  intros Hfind. split; [done|]. split; [done|]. split.
  - intros _. exists s. split; [|done]. simpl. apply lookup_insert_eq.
  - exists []. simpl. by rewrite app_nil_r.
Qed.

Lemma relayed_wait st dt : relayed' st (with_clock (fun t => t + dt) st).
Proof.
  split; [done|]. split; [done|]. split; [done|].
  exists []. simpl. by rewrite app_nil_r.
Qed.

Lemma forward_raw_ok st eventData :
  quiet' st ->
  forward_raw request_id sessionId websocket eventData st
  = Ok tt (with_outbox
             (fun o => o ++ [(websocket,
                              raw_frame request_id sessionId
                                (ISO (clock st)) eventData)]) st).
Proof.
  intros (_ & _ & Hsend). unfold forward_raw, bind, Date_toISOString.
  by rewrite ws_send_ok.
Qed.

Lemma progress_update_keeps parsedData session s' :
  progress_update executionId parsedData session = Some s' ->
  is_Some (find_execution executionId s').
Proof.
  unfold progress_update. destruct session as [s|]; [|done].
  destruct (is_progress parsedData); [|done].
  destruct (find_execution executionId s) as [e|] eqn:He; [|done].
  intros [= <-]. rewrite find_updateProgress, He. by eexists.
Qed.

(** With a working platform, a line that decodes to a value other than
    [null] is forwarded as the spread frame, after the stored progress
    update if there is one. *)
Lemma process_decoded_ok st eventData parsedData session :
  quiet' st ->
  let updated := progress_update executionId parsedData session in
  let session' := match updated with Some s' => Some s' | None => session end in
  exists st',
    (try_catch
       (match updated with
        | Some s' => storage_put (session_key sessionId) s'
        | None => ret tt
        end ;;;
        ws_send websocket (forward_frame executionId parsedData))
       (fun _ => forward_raw request_id sessionId websocket eventData) ;;;
     ret session') st = Ok session' st' /\
    relayed' st st' /\
    (local' session -> local' session').
Proof.
  intros Hq updated session'. pose proof Hq as (Hget & Hput & Hsend).
  destruct updated as [s'|] eqn:Hup; subst session'.
  - pose proof (progress_update_keeps _ _ _ Hup) as Hkeep.
    eexists. split.
    + erewrite bind_ok; [reflexivity|]. apply try_ok.
      erewrite bind_ok; [|by apply storage_put_ok].
      by apply ws_send_ok.
    + split.
      * eapply relayed_trans; [by apply relayed_put|].
        apply (relayed_send (with_storage _ st)). done.
      * intros _. by exists s'.
  - eexists. split.
    + erewrite bind_ok; [reflexivity|]. apply try_ok.
      erewrite bind_ok; [|reflexivity].
      by apply ws_send_ok.
    + split; [by apply relayed_send|done].
Qed.

Lemma process_line_ok st line session :
  quiet' st ->
  exists session' st',
    process_line' line session st = Ok session' st' /\
    relayed' st st' /\
    (local' session -> local' session').
Proof.
  intros Hq. unfold process_line.
  destruct (String.prefix "data: " line).
  - destruct (JSON_parse (slice 6 line)) as [parsedData|].
    + destruct parsedData as [|b|n|s|items|fields].
      1: { exists session. eexists. split.
           - erewrite bind_ok; [reflexivity|]. by apply forward_raw_ok.
           - split; [by apply relayed_send|done]. }
      all: match goal with
           | |- context [forward_frame _ ?p] =>
               pose proof (process_decoded_ok st (slice 6 line) p session Hq)
                 as Hdec
           end;
           cbv zeta in Hdec; destruct Hdec as (st' & Hrun & Hrel & Hloc);
           eexists; exists st'; split; [exact Hrun|by split].
    + exists session. eexists. split.
      * erewrite bind_ok; [reflexivity|]. by apply forward_raw_ok.
      * split; [by apply relayed_send|done].
  - exists session, st. split; [done|]. split; [apply relayed_refl|done].
Qed.

Lemma process_lines_ok lines : forall st session,
  quiet' st ->
  exists session' st',
    process_lines' lines session st = Ok session' st' /\
    relayed' st st' /\
    (local' session -> local' session').
Proof.
  induction lines as [|line rest IH]; intros st session Hq.
  - exists session, st. split; [done|]. split; [apply relayed_refl|done].
  - destruct (process_line_ok st line session Hq) as (s1 & st1 & H1 & R1 & L1).
    destruct (IH st1 s1 (quiet_relayed _ _ Hq R1)) as (s2 & st2 & H2 & R2 & L2).
    exists s2, st2. split.
    + simpl. erewrite bind_ok; [|exact H1]. exact H2.
    + split; [exact (relayed_trans _ _ _ R1 R2)|tauto].
Qed.

(** The read loop ends the way the feed ends. *)
Lemma read_loop_ok chunks terminator : forall st session,
  quiet' st ->
  exists st',
    relayed' st st' /\
    match terminator with
    | Done =>
        exists session',
          read_loop' chunks terminator session st = Ok session' st' /\
          (local' session -> local' session')
    | ReadError message =>
        read_loop' chunks terminator session st = Throw message st'
    end.
Proof.
  induction chunks as [|[dt chunk] rest IH]; intros st session Hq.
  - exists st. split; [apply relayed_refl|].
    destruct terminator; simpl; [by exists session|done].
  - pose proof (relayed_wait st dt) as R0.
    destruct (process_lines_ok (split_newline chunk) _ session
                (quiet_relayed _ _ Hq R0)) as (s1 & st1 & H1 & R1 & L1).
    assert (relayed' st st1) as R01 by exact (relayed_trans _ _ _ R0 R1).
    destruct (IH st1 s1 (quiet_relayed _ _ Hq R01)) as (st2 & R2 & H2).
    exists st2. split; [exact (relayed_trans _ _ _ R01 R2)|].
    destruct terminator.
    + destruct H2 as (s2 & H2 & L2). exists s2. split; [|tauto].
      simpl. erewrite bind_ok; [|reflexivity].
      erewrite bind_ok; [|exact H1]. exact H2.
    + simpl. erewrite bind_ok; [|reflexivity].
      erewrite bind_ok; [|exact H1]. exact H2.
Qed.
Lemma record_end_ok st success s :
  quiet' st ->
  is_Some (find_execution executionId s) ->
  record_end executionId sessionId success (Some s) st
  = Ok tt (with_storage
             (insert (session_key sessionId)
                (completeExecution executionId success (ISO (clock st)) s))
             st).
Proof.
  intros (_ & Hput & _) [e He]. unfold record_end. rewrite He.
  unfold bind, Date_toISOString. by rewrite storage_put_ok.
Qed.

(** The [catch] block of the relay (lines 299-319), entered with the
    execution in the stored session. *)
Lemma failure_handler_ok st message :
  quiet' st ->
  stored' st ->
  exists st' s e,
    (session <- getSessionData sessionId ;;
     record_end executionId sessionId false session ;;;
     now <- Date_toISOString ;;
     ws_send websocket
       (error_frame request_id executionId sessionId now message)) st
    = Ok tt st' /\
    storage st' !! session_key sessionId = Some s /\
    find_execution executionId s = Some e /\
    Execution.status e = Execution.failed /\
    Execution.endTime e = Some (ISO (clock st')) /\
    outbox st' = outbox st ++
      [(websocket,
        error_frame request_id executionId sessionId (ISO (clock st'))
          message)] /\
    websockets st' = websockets st.
Proof.
  intros Hq (s & Hs & [e He]). pose proof Hq as (Hget & Hput & Hsend).
  eexists. exists (completeExecution executionId false (ISO (clock st)) s).
  exists (complete false (ISO (clock st)) e).
  split.
  - erewrite bind_ok; [|by apply getSessionData_ok]. rewrite Hs.
    erewrite bind_ok; [|by apply record_end_ok].
    erewrite bind_ok; [|reflexivity].
    by apply ws_send_ok.
  - simpl. split; [apply lookup_insert_eq|].
    split; [by rewrite find_completeExecution, He|]. done.
Qed.

(** C6 (as the code has it). For a stored session and a working
    platform, the relay returns normally and leaves the execution in the
    stored session with the end time of the moment it finished. When the
    feed ends cleanly the execution is [completed] with progress 100 and
    no coordinator error frame was sent. When [fetch] is rejected, the
    body is missing or a read fails, the execution is [failed] and,
    after the frames forwarded so far, exactly one coordinator error
    frame was sent, carrying the failure message and the execution id.
    Every frame of the relay, the error frame included, goes to the
    socket that made the request and to no other; the set of sockets is
    untouched. *)
Theorem relay_outcome st s0 backend :
  storage st !! session_key sessionId = Some s0 ->
  quiet' st ->
  exists st' s e sent,
    relay backend st = Ok tt st' /\
    storage st' !! session_key sessionId = Some s /\
    find_execution executionId s = Some e /\
    Execution.endTime e = Some (ISO (clock st')) /\
    Forall (fun f => is_error_frame f = false) sent /\
    websockets st' = websockets st /\
    match failure_of backend with
    | None =>
        Execution.status e = Execution.completed /\
        Execution.progress e = Some (JNum 100) /\
        outbox st' = outbox st ++ map (fun f => (websocket, f)) sent
    | Some reason =>
        Execution.status e = Execution.failed /\
        outbox st' = outbox st ++
          map (fun f => (websocket, f))
            (sent ++ [error_frame request_id executionId sessionId
                        (ISO (clock st')) reason])
    end.
Proof.
  intros Hs0 Hq. pose proof Hq as (Hget & Hput & Hsend).
  set (s1 := startExecution executionId tool_name agent (ISO (clock st)) s0).
  set (st1 := with_storage (insert (session_key sessionId) s1) st).
  set (start := starting_frame tool_name agent request_id executionId
                  sessionId (ISO (clock st))).
  set (st2 := with_outbox (fun o => o ++ [(websocket, start)]) st1).
  assert (record_start tool_name agent executionId sessionId st
          = Ok (Some s1) st1) as Hstart.
  { unfold record_start.
    erewrite bind_ok; [|by apply getSessionData_ok]. rewrite Hs0.
    erewrite bind_ok; [|reflexivity].
    erewrite bind_ok; [|by apply storage_put_ok]. done. }
  assert (is_Some (find_execution executionId s1)) as Hfind1
    by apply find_startExecution.
  assert (quiet' st2) as Hq2 by done.
  assert (stored' st2) as Hst2.
  { exists s1. split; [|done]. simpl. apply lookup_insert_eq. }
  assert (local' (Some s1)) as Hloc1 by (by exists s1).
  (* the failure path, from the state in which the exception is thrown *)
  assert (forall st3 sent reason,
            quiet' st3 -> stored' st3 ->
            websockets st3 = websockets st ->
            outbox st3 = outbox st ++ map (fun f => (websocket, f)) sent ->
            Forall (fun f => is_error_frame f = false) sent ->
            exists st' s e,
              (session <- getSessionData sessionId ;;
               record_end executionId sessionId false session ;;;
               now <- Date_toISOString ;;
               ws_send websocket
                 (error_frame request_id executionId sessionId now reason)) st3
              = Ok tt st' /\
              storage st' !! session_key sessionId = Some s /\
              find_execution executionId s = Some e /\
              Execution.endTime e = Some (ISO (clock st')) /\
              websockets st' = websockets st /\
              Execution.status e = Execution.failed /\
              outbox st' = outbox st ++
                map (fun f => (websocket, f))
                  (sent ++ [error_frame request_id executionId sessionId
                              (ISO (clock st')) reason])) as Hfail.
  { intros st3 sent reason Hq3 Hst3 Hw3 Ho3 Hne3.
    destruct (failure_handler_ok st3 reason Hq3 Hst3)
      as (st' & s & e & Hrun & Hs & He & Hstat & Hend & Hout & Hws).
    exists st', s, e. split; [exact Hrun|].
    split; [done|]. split; [done|]. split; [done|].
    split; [congruence|]. split; [done|].
    rewrite Hout, Ho3, map_app, <- app_assoc. done. }
  assert (Forall (fun f => is_error_frame f = false) [start]) as Hne_start
    by (by constructor).
  unfold handleToolExecutionRequest.
  destruct backend as [message| |chunks terminator].
  - (* fetch rejected *)
    destruct (Hfail st2 [start] message Hq2 Hst2 eq_refl eq_refl Hne_start)
      as (st' & s & e & Hrun & Hs & He & Hend & Hws & Hstat & Hout).
    exists st', s, e, [start].
    split; [|by repeat (split; [done|])].
    erewrite try_throw; [exact Hrun|].
    erewrite bind_ok; [|exact Hstart].
    erewrite bind_ok; [|reflexivity].
    erewrite bind_ok; [|by apply ws_send_ok]. reflexivity.
  - (* no body *)
    destruct (Hfail st2 [start] "No response body from backend"
                Hq2 Hst2 eq_refl eq_refl Hne_start)
      as (st' & s & e & Hrun & Hs & He & Hend & Hws & Hstat & Hout).
    exists st', s, e, [start].
    split; [|by repeat (split; [done|])].
    erewrite try_throw; [exact Hrun|].
    erewrite bind_ok; [|exact Hstart].
    erewrite bind_ok; [|reflexivity].
    erewrite bind_ok; [|by apply ws_send_ok]. reflexivity.
  - (* a body: the read loop runs *)
    destruct (read_loop_ok chunks terminator st2 (Some s1) Hq2)
      as (st3 & (Hf3 & Hw3 & Hsto3 & sent & Ho3 & Hne3) & Hloop).
    assert (quiet' st3) as Hq3 by (unfold quiet; by rewrite Hf3).
    assert (outbox st3
            = outbox st ++ map (fun f => (websocket, f)) (start :: sent))
      as Ho3'.
    { rewrite Ho3. simpl. rewrite <- app_assoc. done. }
    assert (Forall (fun f => is_error_frame f = false) (start :: sent))
      as Hne3' by (by constructor).
    destruct terminator as [|message].
    + (* clean end of stream *)
      destruct Hloop as (session' & Hloop & Hloc).
      destruct (Hloc Hloc1) as (s3 & -> & [e3 He3]).
      exists (with_storage
                (insert (session_key sessionId)
                   (completeExecution executionId true (ISO (clock st3)) s3))
                st3).
      exists (completeExecution executionId true (ISO (clock st3)) s3).
      exists (complete true (ISO (clock st3)) e3), (start :: sent).
      split.
      * apply try_ok.
        erewrite bind_ok; [|exact Hstart].
        erewrite bind_ok; [|reflexivity].
        erewrite bind_ok; [|by apply ws_send_ok].
        erewrite bind_ok; [|exact Hloop].
        apply record_end_ok; [done|by eexists].
      * simpl. split; [apply lookup_insert_eq|].
        split; [by rewrite find_completeExecution, He3|].
        split; [done|]. split; [done|]. split; [done|]. done.
    + (* read error *)
      destruct (Hfail st3 (start :: sent) message Hq3 (Hsto3 Hst2) Hw3 Ho3'
                  Hne3')
        as (st' & s & e & Hrun & Hs & He & Hend & Hws & Hstat & Hout).
      exists st', s, e, (start :: sent).
      split; [|by repeat (split; [done|])].
      erewrite try_throw; [exact Hrun|].
      erewrite bind_ok; [|exact Hstart].
      erewrite bind_ok; [|reflexivity].
      erewrite bind_ok; [|by apply ws_send_ok].
      erewrite bind_throw; [reflexivity|exact Hloop].
Qed.
End RelayProperties.

Lemma relay_outcome_witness :
  let st :=
    mkState {[ session_key "s1" := default_session "s1" (ISO 0) ]}
      [1%nat] [] [] None 100 no_faults in
  let backend :=
    Body [(5, "data: " +:+ progress_event_text +:+ newline)] (ReadError "boom") in
  quiet "s1" 1%nat st /\
  exists st' s e sent,
    handleToolExecutionRequest sample_parse "scan" "bug_hunter" (Some "req-1")
      "exec_1" "s1" 1%nat backend st = Ok tt st' /\
    storage st' !! session_key "s1" = Some s /\
    find_execution "exec_1" s = Some e /\
    Execution.endTime e = Some (ISO (clock st')) /\
    Forall (fun f => is_error_frame f = false) sent /\
    websockets st' = [1%nat] /\
    Execution.status e = Execution.failed /\
    outbox st' = [] ++
      map (fun f => (1%nat, f))
        (sent ++ [error_frame (Some "req-1") "exec_1" "s1" (ISO (clock st'))
                    "boom"]).
Proof.
  cbv zeta. split; [by repeat split|].
  exact (relay_outcome sample_parse "scan" "bug_hunter" (Some "req-1")
           "exec_1" "s1" 1%nat
           (mkState {[ session_key "s1" := default_session "s1" (ISO 0) ]}
              [1%nat] [] [] None 100 no_faults)
           (default_session "s1" (ISO 0))
           (Body [(5, "data: " +:+ progress_event_text +:+ newline)]
              (ReadError "boom"))
           (lookup_singleton_eq _ _)
           (conj eq_refl (conj eq_refl eq_refl))).
Defined.

(** The same run, evaluated: the backend's progress value 150 is stored
    as it came, the execution ends [failed] at time 105, and the socket
    has received the start notice, the forwarded event and the error. *)
Example relay_run_with_read_error :
  let st :=
    mkState {[ session_key "s1" := default_session "s1" (ISO 0) ]}
      [1%nat] [] [] None 100 no_faults in
  let st' :=
    final_state
      (handleToolExecutionRequest sample_parse "scan" "bug_hunter"
         (Some "req-1") "exec_1" "s1" 1%nat
         (Body [(5, "data: " +:+ progress_event_text +:+ newline)]
            (ReadError "boom")) st) in
  (storage st' !! session_key "s1") ≫= find_execution "exec_1"
    = Some (Execution.mk "exec_1" "scan" "bug_hunter" Execution.failed
              (ISO 100) (Some (ISO 105)) (Some (JNum 150))) /\
  map is_error_frame (received 1%nat st') = [false; false; true].
Proof. vm_compute. split; reflexivity. Qed.

(** C6 (as stated) fails: sockets 1 and 2 are attached to the session and
    socket 1 asks for an execution whose [fetch] is rejected. The
    execution ends [failed] and socket 1 receives the error frame, but
    socket 2, attached all along, receives nothing: the error is sent,
    not broadcast. *)
Lemma relay_error_reaches_requester_only :
  let session :=
    SessionData.mk "s1" (ISO 0) (ISO 0) SessionData.streaming [] 2 (ISO 0) in
  let st :=
    mkState {[ session_key "s1" := session ]} [1%nat; 2%nat] [] [] None 100
      no_faults in
  let st' :=
    final_state
      (handleToolExecutionRequest sample_parse "scan" "bug_hunter"
         (Some "req-1") "exec_1" "s1" 1%nat
         (FetchRejected "connection refused") st) in
  websockets st' = [1%nat; 2%nat] /\
  (Execution.status <$>
     ((storage st' !! session_key "s1") ≫= find_execution "exec_1"))
    = Some Execution.failed /\
  received 1%nat st'
    = [starting_frame "scan" "bug_hunter" (Some "req-1") "exec_1" "s1" (ISO 100);
       error_frame (Some "req-1") "exec_1" "s1" (ISO 100) "connection refused"] /\
  received 2%nat st' = [].
Proof. vm_compute. repeat split; reflexivity. Qed.

(** The completion and progress steps reach a terminal execution when a
    generated execution id repeats within a session (the id is made of
    the clock and [Math.random()], and is not checked against the ids
    already stored): [find] returns the older, terminal execution. Here a
    first run completes ["exec_1"] at time 100; a second run under the
    same id, whose feed breaks at time 205 after a progress event,
    leaves that execution [failed], with end time 205 and progress 150,
    and its own new entry still [running]. *)
Example repeated_id_reopens_terminal_execution :
  let st :=
    mkState {[ session_key "s1" := default_session "s1" (ISO 0) ]}
      [1%nat] [] [] None 100 no_faults in
  let run backend st :=
    final_state
      (handleToolExecutionRequest sample_parse "scan" "bug_hunter"
         (Some "req-1") "exec_1" "s1" 1%nat backend st) in
  let executions st :=
    SessionData.toolExecutions <$> (storage st !! session_key "s1") in
  let st1 := run (Body [] Done) st in
  let st2 :=
    run (Body [(5, "data: " +:+ progress_event_text)] (ReadError "reset"))
        (with_clock (fun _ => 200) st1) in
  executions st1
    = Some [Execution.mk "exec_1" "scan" "bug_hunter" Execution.completed
              (ISO 100) (Some (ISO 100)) (Some (JNum 100))] /\
  executions st2
    = Some [Execution.mk "exec_1" "scan" "bug_hunter" Execution.failed
              (ISO 100) (Some (ISO 205)) (Some (JNum 150));
            Execution.mk "exec_1" "scan" "bug_hunter" Execution.running
              (ISO 200) None (Some (JNum 0))].
Proof. vm_compute. split; reflexivity. Qed.

(** ** The relay, whatever the session *)

Section RelayInvariant.
Variable JSON_parse : string -> option json.
Variables (tool_name agent : string) (request_id : option string).
Variable executionId : string.
Variable sessionId : string.
Variable websocket : WebSocket.

(** A property of the session that the tracker steps keep. *)
Variable I : SessionData.t -> Prop.
Hypothesis I_find : forall s, I s -> is_Some (find_execution executionId s).
Hypothesis I_progress :
  forall s p, I s -> I (updateProgress executionId p s).

Local Abbreviation key := (session_key sessionId).
Local Abbreviation kept' := (kept sessionId websocket I).
Local Abbreviation local_ok' := (local_ok I).
Local Abbreviation loop_quiet' := (loop_quiet sessionId websocket).

Local Abbreviation line_frame' :=
  (line_frame JSON_parse request_id executionId sessionId).
Local Abbreviation feed_frames' :=
  (feed_frames JSON_parse request_id executionId sessionId).
Local Abbreviation relay_frames' :=
  (relay_frames JSON_parse tool_name agent request_id executionId sessionId).

Lemma kept_refl st : kept' st st [].
Proof.
  repeat (split; [done|]). split; [by left|].
  simpl. by rewrite app_nil_r.
Qed.

Lemma kept_trans st1 st2 st3 sent1 sent2 :
  kept' st1 st2 sent1 -> kept' st2 st3 sent2 -> kept' st1 st3 (sent1 ++ sent2).
Proof.
  intros (Hf1 & Hw1 & Hc1 & Ha1 & Hs1 & Ho1)
         (Hf2 & Hw2 & Hc2 & Ha2 & Hs2 & Ho2).
  split; [congruence|]. split; [congruence|]. split; [congruence|].
  split; [congruence|]. split.
  - destruct Hs2 as [->|(s2 & HI2 & ->)]; [exact Hs1|]. right.
    exists s2. split; [done|].
    destruct Hs1 as [->|(s1 & _ & ->)]; [done|].
    by rewrite insert_insert_eq.
  - rewrite Ho2, Ho1, map_app, app_assoc. done.
Qed.

Lemma kept_send st frame :
  kept' st (with_outbox (fun o => o ++ [(websocket, frame)]) st) [frame].
Proof. repeat (split; [done|]). split; [by left|done]. Qed.

Lemma kept_put st s :
  I s -> kept' st (with_storage (insert key s) st) [].
Proof.
  intros HI. repeat (split; [done|]). split; [right; by exists s|].
  simpl. by rewrite app_nil_r.
Qed.

Lemma kept_wait st dt : kept' st (with_clock (fun t => t + dt) st) [].
Proof.
  repeat (split; [done|]). split; [by left|].
  simpl. by rewrite app_nil_r.
Qed.

Lemma loop_quiet_kept st st' sent session session' :
  loop_quiet' st session -> kept' st st' sent ->
  (session = None -> session' = None) ->
  loop_quiet' st' session'.
Proof.
  intros [Hsend Hput] (Hf & _) Hnone. unfold loop_quiet. rewrite Hf.
  split; [done|]. intros Hs. apply Hput. intros ->. by apply Hs, Hnone.
Qed.

(** One line: the frame sent is the one [line_frame] names, and no time
    passes. *)
Lemma process_line_kept st line session :
  loop_quiet' st session -> local_ok' session ->
  exists session' st',
    process_line JSON_parse request_id executionId sessionId websocket
      line session st = Ok session' st' /\
    kept' st st' (option_list (line_frame' (ISO (clock st)) line)) /\
    clock st' = clock st /\
    local_ok' session' /\
    (session = None <-> session' = None) /\
    (session = None -> storage st' = storage st).
Proof.
  intros [Hsend Hput] Hloc.
  assert (forall eventData,
            forward_raw request_id sessionId websocket eventData st
            = Ok tt (with_outbox
                       (fun o => o ++ [(websocket,
                                        raw_frame request_id sessionId
                                          (ISO (clock st)) eventData)]) st))
    as Hraw.
  { intros eventData. unfold forward_raw, bind, Date_toISOString.
    by rewrite ws_send_ok. }
  unfold process_line, line_frame.
  destruct (decide (is_data_line line)) as [Hd|Hd].
  2: { rewrite bool_decide_eq_false_2 by done.
       unfold is_data_line in Hd. apply not_true_is_false in Hd. rewrite Hd.
       exists session, st. split; [done|]. split; [apply kept_refl|done]. }
  rewrite bool_decide_eq_true_2 by done.
  unfold is_data_line in Hd. rewrite Hd.
  assert (exists st',
            (forward_raw request_id sessionId websocket (slice 6 line) ;;;
             ret session) st = Ok session st' /\
            kept' st st' [raw_event request_id sessionId (ISO (clock st))
                            (slice 6 line)] /\
            clock st' = clock st /\ local_ok' session /\
            (session = None <-> session = None) /\
            (session = None -> storage st' = storage st))
    as (st_raw & Hrawcase).
  { eexists. split; [erewrite bind_ok; [reflexivity|apply Hraw]|].
    split; [apply kept_send|done]. }
  assert (forall parsedData,
          exists session' st',
            (let updated := progress_update executionId parsedData session in
             let session' :=
               match updated with Some s' => Some s' | None => session end in
             try_catch
               (match updated with
                | Some s' => storage_put key s'
                | None => ret tt
                end ;;;
                ws_send websocket (forward_frame executionId parsedData))
               (fun _ =>
                  forward_raw request_id sessionId websocket (slice 6 line)) ;;;
             ret session') st = Ok session' st' /\
            kept' st st' [decoded_event executionId parsedData] /\
            clock st' = clock st /\ local_ok' session' /\
            (session = None <-> session' = None) /\
            (session = None -> storage st' = storage st))
    as Hdecoded.
  { intros parsedData. cbv zeta.
    destruct (progress_update executionId parsedData session) as [s'|] eqn:Hup.
    - assert (I s' /\ session <> None) as [HI Hsome].
      { unfold progress_update in Hup. destruct session as [s|]; [|done].
        destruct (is_progress parsedData); [|done].
        destruct (find_execution executionId s); [|done].
        injection Hup as <-. split; [by apply I_progress|done]. }
      exists (Some s'). eexists. split.
      + erewrite bind_ok; [reflexivity|]. apply try_ok.
        erewrite bind_ok; [|apply storage_put_ok; by apply Hput].
        by apply ws_send_ok.
      + split.
        * apply (kept_trans st (with_storage (insert key s') st) _
                   [] [_]); [by apply kept_put|].
          apply kept_send.
        * split; [done|]. split; [done|]. split; [done|].
          intros ->. by destruct Hsome.
    - exists session. eexists. split.
      + erewrite bind_ok; [reflexivity|]. apply try_ok.
        erewrite bind_ok; [|reflexivity]. by apply ws_send_ok.
      + split; [apply kept_send|done]. }
  destruct (JSON_parse (slice 6 line)) as [parsedData|];
    [|exists session, st_raw; exact Hrawcase].
  destruct parsedData as [|b|n|str|items|fields];
    [exists session, st_raw; exact Hrawcase|..];
    match goal with
    | |- context [forward_frame _ ?p] => exact (Hdecoded p)
    end.
Qed.

Lemma omap_cons_option_list {A B} (f : A -> option B) x l :
  omap f (x :: l) = option_list (f x) ++ omap f l.
Proof. simpl. by destruct (f x). Qed.

Lemma process_lines_kept lines : forall st session,
  loop_quiet' st session -> local_ok' session ->
  exists session' st',
    process_lines JSON_parse request_id executionId sessionId websocket
      lines session st = Ok session' st' /\
    kept' st st' (omap (line_frame' (ISO (clock st))) lines) /\
    clock st' = clock st /\
    local_ok' session' /\
    (session = None <-> session' = None) /\
    (session = None -> storage st' = storage st).
Proof.
  induction lines as [|line rest IH]; intros st session Hq Hloc.
  - exists session, st. split; [done|]. split; [apply kept_refl|done].
  - destruct (process_line_kept st line session Hq Hloc)
      as (s1 & st1 & H1 & K1 & C1 & L1 & N1 & E1).
    destruct (IH st1 s1) as (s2 & st2 & H2 & K2 & C2 & L2 & N2 & E2); [|done|].
    { eapply loop_quiet_kept; [exact Hq|exact K1|]. apply N1. }
    exists s2, st2. split; [|split; [|split; [|split; [|split]]]].
    + simpl. erewrite bind_ok; [|exact H1]. exact H2.
    + rewrite omap_cons_option_list. rewrite C1 in K2.
      exact (kept_trans _ _ _ _ _ K1 K2).
    + congruence.
    + done.
    + by rewrite N1.
    + intros Hn. rewrite E2 by (by apply N1). by apply E1.
Qed.

Lemma read_loop_kept chunks terminator : forall st session,
  loop_quiet' st session -> local_ok' session ->
  exists st',
    kept' st st' (feed_frames' (clock st) chunks) /\
    clock st' = clock st + feed_time chunks /\
    (session = None -> storage st' = storage st) /\
    match terminator with
    | Done =>
        exists session',
          read_loop JSON_parse request_id executionId sessionId websocket
            chunks terminator session st = Ok session' st' /\
          local_ok' session' /\ (session = None <-> session' = None)
    | ReadError message =>
        read_loop JSON_parse request_id executionId sessionId websocket
          chunks terminator session st = Throw message st'
    end.
Proof.
  induction chunks as [|[dt chunk] rest IH]; intros st session Hq Hloc.
  - exists st. split; [apply kept_refl|]. split; [simpl; lia|].
    split; [done|].
    destruct terminator; simpl; [by exists session|done].
  - pose proof (kept_wait st dt) as K0.
    destruct (process_lines_kept (split_newline chunk)
                (with_clock (fun t => t + dt) st) session)
      as (s1 & st1 & H1 & K1 & C1 & L1 & N1 & E1); [by destruct Hq|done|].
    pose proof (kept_trans _ _ _ _ _ K0 K1) as K01.
    cbn [clock with_clock] in K01, C1.
    destruct (IH st1 s1) as (st2 & K2 & C2 & E2 & H2); [|done|].
    { eapply loop_quiet_kept; [exact Hq|exact K01|]. apply N1. }
    exists st2. split; [|split; [|split]].
    + rewrite C1 in K2. exact (kept_trans _ _ _ _ _ K01 K2).
    + rewrite C2, C1. simpl. lia.
    + intros Hn. rewrite E2 by (by apply N1). by apply E1.
    + destruct terminator.
      * destruct H2 as (s2 & H2 & L2 & N2). exists s2.
        split; [|split; [done|]].
        -- simpl. erewrite bind_ok; [|reflexivity].
           erewrite bind_ok; [|exact H1]. exact H2.
        -- by rewrite N1.
      * simpl. erewrite bind_ok; [|reflexivity].
        erewrite bind_ok; [|exact H1]. exact H2.
Qed.

Lemma kept_stored st st' sent s base :
  kept' st st' sent ->
  storage st = <[key := s]> base -> I s ->
  exists s', I s' /\ storage st' = <[key := s']> base.
Proof.
  intros (_ & _ & _ & _ & [->|(s' & HI' & ->)] & _) Hbase HI.
  - by exists s.
  - exists s'. split; [done|]. by rewrite Hbase, insert_insert_eq.
Qed.

(** The [catch] block when the session is stored with the property. *)
Lemma failure_handler_stored st s base message :
  get_throws (faults st) key = None ->
  put_throws (faults st) key = None ->
  send_throws (faults st) websocket = None ->
  storage st = <[key := s]> base -> I s ->
  exists st',
    (session <- getSessionData sessionId ;;
     record_end executionId sessionId false session ;;;
     now <- Date_toISOString ;;
     ws_send websocket
       (error_frame request_id executionId sessionId now message)) st
    = Ok tt st' /\
    storage st'
    = <[key := completeExecution executionId false (ISO (clock st)) s]> base /\
    outbox st' = outbox st ++
      [(websocket,
        error_frame request_id executionId sessionId (ISO (clock st)) message)] /\
    websockets st' = websockets st /\ closed st' = closed st /\
    alarm_at st' = alarm_at st /\ faults st' = faults st /\
    clock st' = clock st.
Proof.
  intros Hget Hput Hsend Hbase HI.
  destruct (I_find s HI) as [e He].
  eexists. split.
  - erewrite bind_ok; [|by apply getSessionData_ok].
    rewrite Hbase, lookup_insert_eq.
    erewrite bind_ok.
    2: { unfold record_end. rewrite He.
         erewrite bind_ok; [|reflexivity]. by apply storage_put_ok. }
    erewrite bind_ok; [|reflexivity].
    by apply ws_send_ok.
  - simpl. rewrite Hbase, insert_insert_eq. done.
Qed.

(** The [catch] block when no session can be read. *)
Lemma failure_handler_absent st message :
  get_throws (faults st) key = None ->
  send_throws (faults st) websocket = None ->
  storage st !! key = None ->
  (session <- getSessionData sessionId ;;
   record_end executionId sessionId false session ;;;
   now <- Date_toISOString ;;
   ws_send websocket
     (error_frame request_id executionId sessionId now message)) st
  = Ok tt (with_outbox
             (fun o => o ++
                [(websocket,
                  error_frame request_id executionId sessionId
                    (ISO (clock st)) message)]) st).
Proof.
  intros Hget Hsend Habs.
  erewrite bind_ok; [|by apply getSessionData_ok]. rewrite Habs.
  erewrite bind_ok; [|reflexivity].
  erewrite bind_ok; [|reflexivity].
  by apply ws_send_ok.
Qed.

(** The whole relay with a working platform, session or not: the frames
    sent are those of [relay_frames], the time that passes is the time
    spent waiting for the feed, and the session stored at the end is one
    with the property, completed at the end of the run. *)
Lemma relay_kept st backend :
  get_throws (faults st) key = None ->
  send_throws (faults st) websocket = None ->
  (storage st !! key <> None -> put_throws (faults st) key = None) ->
  (forall s0, storage st !! key = Some s0 ->
              I (startExecution executionId tool_name agent
                   (ISO (clock st)) s0)) ->
  exists st',
    handleToolExecutionRequest JSON_parse tool_name agent request_id
      executionId sessionId websocket backend st = Ok tt st' /\
    faults st' = faults st /\
    websockets st' = websockets st /\
    closed st' = closed st /\
    alarm_at st' = alarm_at st /\
    clock st' = clock st + feed_time (chunks_of backend) /\
    outbox st' = outbox st ++
      map (fun f => (websocket, f)) (relay_frames' (clock st) backend) /\
    match storage st !! key with
    | None => storage st' = storage st
    | Some _ =>
        exists s',
          I s' /\
          storage st'
          = <[key := completeExecution executionId
                       (negb (failed backend)) (ISO (clock st')) s']>
              (storage st)
    end.
Proof.
  intros Hget Hsend Hput Hstart.
  set (start := starting_frame tool_name agent request_id executionId
                  sessionId (ISO (clock st))).
  unfold handleToolExecutionRequest, relay_frames.
  destruct (storage st !! key) as [s0|] eqn:Hs0.
  - (* the session is stored *)
    specialize (Hput ltac:(done)). specialize (Hstart s0 eq_refl).
    set (s1 := startExecution executionId tool_name agent (ISO (clock st)) s0)
      in *.
    set (st1 := with_storage (insert key s1) st).
    set (st2 := with_outbox (fun o => o ++ [(websocket, start)]) st1).
    assert (record_start tool_name agent executionId sessionId st
            = Ok (Some s1) st1) as Hrs.
    { unfold record_start.
      erewrite bind_ok; [|by apply getSessionData_ok]. rewrite Hs0.
      erewrite bind_ok; [|reflexivity].
      erewrite bind_ok; [|by apply storage_put_ok]. done. }
    assert (forall st3 sent message,
              faults st3 = faults st -> websockets st3 = websockets st ->
              closed st3 = closed st -> alarm_at st3 = alarm_at st ->
              (exists sx, I sx /\ storage st3 = <[key := sx]> (storage st)) ->
              outbox st3 = outbox st ++ map (fun f => (websocket, f)) sent ->
              exists st',
                (session <- getSessionData sessionId ;;
                 record_end executionId sessionId false session ;;;
                 now <- Date_toISOString ;;
                 ws_send websocket
                   (error_frame request_id executionId sessionId now message))
                  st3 = Ok tt st' /\
                faults st' = faults st /\
                websockets st' = websockets st /\
                closed st' = closed st /\
                alarm_at st' = alarm_at st /\
                clock st' = clock st3 /\
                outbox st' = outbox st ++
                  map (fun f => (websocket, f))
                    (sent ++ [error_frame request_id executionId sessionId
                                (ISO (clock st3)) message]) /\
                exists s',
                  I s' /\
                  storage st'
                  = <[key := completeExecution executionId false
                               (ISO (clock st')) s']>
                      (storage st)) as Hfail.
    { intros st3 sent message Hf3 Hw3 Hc3 Ha3 (sx & HIx & Hsto3) Ho3.
      destruct (failure_handler_stored st3 sx (storage st) message)
        as (st' & Hrun & Hsto & Hout & Hws & Hcl & Hal & Hfa & Hck);
        [by rewrite Hf3..|done|done|].
      exists st'. split; [exact Hrun|].
      split; [congruence|]. split; [congruence|]. split; [congruence|].
      split; [congruence|]. split; [done|].
      split; [by rewrite Hout, Ho3, map_app, <- app_assoc|].
      exists sx. split; [done|]. by rewrite Hck. }
    assert (exists sx, I sx /\ storage st2 = <[key := sx]> (storage st))
      as Hsto2 by (by exists s1).
    destruct backend as [message| |chunks terminator].
    + destruct (Hfail st2 [start] message)
        as (st' & Hrun & Hfa & Hws & Hcl & Hal & Hck & Hout & Hsto); [done..|].
      exists st'. split.
      { erewrite try_throw; [exact Hrun|].
        erewrite bind_ok; [|exact Hrs].
        erewrite bind_ok; [|reflexivity].
        erewrite bind_ok; [|by apply ws_send_ok]. reflexivity. }
      repeat (split; [done|]).
      split; [rewrite Hck; simpl; lia|].
      split; [|exact Hsto].
      rewrite Hout. cbn [chunks_of feed_frames feed_time failure_of app].
      by rewrite Z.add_0_r.
    + destruct (Hfail st2 [start] "No response body from backend")
        as (st' & Hrun & Hfa & Hws & Hcl & Hal & Hck & Hout & Hsto); [done..|].
      exists st'. split.
      { erewrite try_throw; [exact Hrun|].
        erewrite bind_ok; [|exact Hrs].
        erewrite bind_ok; [|reflexivity].
        erewrite bind_ok; [|by apply ws_send_ok]. reflexivity. }
      repeat (split; [done|]).
      split; [rewrite Hck; simpl; lia|].
      split; [|exact Hsto].
      rewrite Hout. cbn [chunks_of feed_frames feed_time failure_of app].
      by rewrite Z.add_0_r.
    + destruct (read_loop_kept chunks terminator st2 (Some s1))
        as (st3 & K & Hck3 & _ & Hloop); [by split|done|].
      pose proof K as (Hf3 & Hw3 & Hc3 & Ha3 & _ & Ho3).
      cbn [clock st2 st1 with_outbox with_storage] in Hck3, Ho3, K.
      destruct (kept_stored _ _ _ s1 (storage st) K) as (sx & HIx & Hsto3);
        [done|done|].
      assert (outbox st3
              = outbox st ++
                map (fun f => (websocket, f))
                  (start :: feed_frames' (clock st) chunks))
        as Ho3'.
      { rewrite Ho3. simpl. rewrite <- app_assoc. done. }
      destruct terminator as [|message].
      * destruct Hloop as (session' & Hloop & Hloc & Hiff).
        destruct session' as [s3|]; [|by destruct Hiff as [_ Hn];
                                        specialize (Hn eq_refl)].
        simpl in Hloc. destruct (I_find s3 Hloc) as [e3 He3].
        eexists. split.
        -- apply try_ok.
           erewrite bind_ok; [|exact Hrs].
           erewrite bind_ok; [|reflexivity].
           erewrite bind_ok; [|by apply ws_send_ok].
           erewrite bind_ok; [|exact Hloop].
           unfold record_end. rewrite He3.
           erewrite bind_ok; [|reflexivity].
           apply storage_put_ok. by rewrite Hf3.
        -- cbn [faults websockets closed alarm_at clock outbox storage
                  with_storage chunks_of failure_of].
           repeat (split; [done|]). rewrite app_nil_r.
           split; [done|]. exists s3. split; [done|].
           by rewrite Hsto3, insert_insert_eq.
      * destruct (Hfail st3 (start :: feed_frames' (clock st) chunks) message)
          as (st' & Hrun & Hfa & Hws & Hcl & Hal & Hck & Hout & Hsto);
          [by eauto..|].
        exists st'. split.
        { erewrite try_throw; [exact Hrun|].
          erewrite bind_ok; [|exact Hrs].
          erewrite bind_ok; [|reflexivity].
          erewrite bind_ok; [|by apply ws_send_ok].
          erewrite bind_throw; [reflexivity|exact Hloop]. }
        repeat (split; [done|]).
        split; [cbn [chunks_of]; congruence|].
        split; [|exact Hsto].
        rewrite Hout. cbn [chunks_of failure_of]. by rewrite Hck3.
  - (* no session *)
    set (st2 := with_outbox (fun o => o ++ [(websocket, start)]) st).
    assert (record_start tool_name agent executionId sessionId st
            = Ok None st) as Hrs.
    { unfold record_start.
      erewrite bind_ok; [|by apply getSessionData_ok]. by rewrite Hs0. }
    assert (forall st3 sent message,
              faults st3 = faults st -> websockets st3 = websockets st ->
              closed st3 = closed st -> alarm_at st3 = alarm_at st ->
              storage st3 = storage st ->
              outbox st3 = outbox st ++ map (fun f => (websocket, f)) sent ->
              exists st',
                (session <- getSessionData sessionId ;;
                 record_end executionId sessionId false session ;;;
                 now <- Date_toISOString ;;
                 ws_send websocket
                   (error_frame request_id executionId sessionId now message))
                  st3 = Ok tt st' /\
                faults st' = faults st /\
                websockets st' = websockets st /\
                closed st' = closed st /\
                alarm_at st' = alarm_at st /\
                clock st' = clock st3 /\
                outbox st' = outbox st ++
                  map (fun f => (websocket, f))
                    (sent ++ [error_frame request_id executionId sessionId
                                (ISO (clock st3)) message]) /\
                storage st' = storage st) as Hfail.
    { intros st3 sent message Hf3 Hw3 Hc3 Ha3 Hsto3 Ho3.
      eexists. split.
      - apply failure_handler_absent; [by rewrite Hf3..|by rewrite Hsto3].
      - cbn [faults websockets closed alarm_at clock outbox storage
               with_outbox].
        repeat (split; [done|]).
        split; [by rewrite Ho3, map_app, <- app_assoc|done]. }
    destruct backend as [message| |chunks terminator].
    + destruct (Hfail st2 [start] message)
        as (st' & Hrun & Hfa & Hws & Hcl & Hal & Hck & Hout & Hsto); [done..|].
      exists st'. split.
      { erewrite try_throw; [exact Hrun|].
        erewrite bind_ok; [|exact Hrs].
        erewrite bind_ok; [|reflexivity].
        erewrite bind_ok; [|by apply ws_send_ok]. reflexivity. }
      repeat (split; [done|]).
      split; [rewrite Hck; simpl; lia|].
      split; [|exact Hsto].
      rewrite Hout. cbn [chunks_of feed_frames feed_time failure_of app].
      by rewrite Z.add_0_r.
    + destruct (Hfail st2 [start] "No response body from backend")
        as (st' & Hrun & Hfa & Hws & Hcl & Hal & Hck & Hout & Hsto); [done..|].
      exists st'. split.
      { erewrite try_throw; [exact Hrun|].
        erewrite bind_ok; [|exact Hrs].
        erewrite bind_ok; [|reflexivity].
        erewrite bind_ok; [|by apply ws_send_ok]. reflexivity. }
      repeat (split; [done|]).
      split; [rewrite Hck; simpl; lia|].
      split; [|exact Hsto].
      rewrite Hout. cbn [chunks_of feed_frames feed_time failure_of app].
      by rewrite Z.add_0_r.
    + destruct (read_loop_kept chunks terminator st2 None)
        as (st3 & K & Hck3 & Hsame & Hloop); [by split|done|].
      pose proof K as (Hf3 & Hw3 & Hc3 & Ha3 & _ & Ho3).
      cbn [clock st2 with_outbox] in Hck3, Ho3.
      specialize (Hsame eq_refl).
      assert (outbox st3
              = outbox st ++
                map (fun f => (websocket, f))
                  (start :: feed_frames' (clock st) chunks))
        as Ho3'.
      { rewrite Ho3. simpl. rewrite <- app_assoc. done. }
      destruct terminator as [|message].
      * destruct Hloop as (session' & Hloop & _ & Hiff).
        assert (session' = None) as -> by (by apply Hiff).
        exists st3. split.
        -- apply try_ok.
           erewrite bind_ok; [|exact Hrs].
           erewrite bind_ok; [|reflexivity].
           erewrite bind_ok; [|by apply ws_send_ok].
           erewrite bind_ok; [|exact Hloop]. reflexivity.
        -- cbn [chunks_of failure_of]. rewrite app_nil_r.
           repeat (split; [done|]). done.
      * destruct (Hfail st3 (start :: feed_frames' (clock st) chunks) message)
          as (st' & Hrun & Hfa & Hws & Hcl & Hal & Hck & Hout & Hsto);
          [done..|].
        exists st'. split.
        { erewrite try_throw; [exact Hrun|].
          erewrite bind_ok; [|exact Hrs].
          erewrite bind_ok; [|reflexivity].
          erewrite bind_ok; [|by apply ws_send_ok].
          erewrite bind_throw; [reflexivity|exact Hloop]. }
        repeat (split; [done|]).
        split; [cbn [chunks_of]; congruence|].
        split; [|exact Hsto].
        rewrite Hout. cbn [chunks_of failure_of]. by rewrite Hck3.
Qed.
End RelayInvariant.

Lemma update_first_fresh executionId f l e :
  List.find (has_id executionId) l = None ->
  Execution.id e = executionId ->
  update_first executionId f (l ++ [e]) = l ++ [f e].
Proof.
  intros Hfresh Hid. induction l as [|x l IH]; simpl.
  - unfold has_id. by rewrite Hid, String.eqb_refl.
  - simpl in Hfresh. destruct (has_id executionId x); [done|].
    by rewrite IH.
Qed.

Lemma find_fresh_app executionId l e :
  List.find (has_id executionId) l = None ->
  Execution.id e = executionId ->
  List.find (has_id executionId) (l ++ [e]) = Some e.
Proof.
  intros Hfresh Hid. induction l as [|x l IH]; simpl.
  - unfold has_id. by rewrite Hid, String.eqb_refl.
  - simpl in Hfresh. destruct (has_id executionId x); [done|]. by apply IH.
Qed.

Lemma extended_by_update executionId tool_name agent start s0 s f :
  find_execution executionId s0 = None ->
  (forall e, Execution.id (f e) = Execution.id e /\
             Execution.toolName (f e) = Execution.toolName e /\
             Execution.agent (f e) = Execution.agent e /\
             Execution.startTime (f e) = Execution.startTime e) ->
  extended_by executionId tool_name agent start s0 s ->
  extended_by executionId tool_name agent start s0
    (with_executions (update_first executionId f) s).
Proof.
  intros Hfresh Hf (e & -> & Hid & Htool & Hagent & Hstart).
  destruct (Hf e) as (Hid' & Htool' & Hagent' & Hstart').
  exists (f e). split; [|repeat split; congruence].
  unfold with_executions. simpl. f_equal.
  by apply update_first_fresh.
Qed.

(** Every data line gives one frame, every other line none. *)
Lemma length_chunk_frames JSON_parse request_id executionId sessionId now lines :
  length (omap (line_frame JSON_parse request_id executionId sessionId now)
            lines)
  = length (filter is_data_line lines).
Proof.
  induction lines as [|line rest IH]; [done|].
  rewrite omap_cons_option_list, length_app, IH, filter_cons.
  unfold line_frame. destruct (decide (is_data_line line)) as [Hd|Hd].
  - rewrite bool_decide_eq_true_2 by done.
    destruct (JSON_parse (slice 6 line)) as [[| | | | |]|]; reflexivity.
  - rewrite bool_decide_eq_false_2 by done. reflexivity.
Qed.

Lemma length_feed_frames JSON_parse request_id executionId sessionId chunks :
  forall now,
    length (feed_frames JSON_parse request_id executionId sessionId now chunks)
    = data_line_count chunks.
Proof.
  induction chunks as [|[dt chunk] rest IH]; intros now; [done|].
  cbn [feed_frames]. unfold chunk_frames, data_line_count in *.
  rewrite length_app, length_chunk_frames, IH. simpl.
  by rewrite filter_app, length_app.
Qed.

(** ** Lines that do not decode *)

(** C7 (as the code has it). The relay goes through a chunk line by line,
    whatever the chunk mixes. With the requesting socket writable (and
    the Store writable when there is a session), for every line that
    starts with [data: ] and whose text after the prefix does not decode
    ([JSON.parse] throws, or yields [null]) it sends the requesting socket
    the raw fallback carrying that text: a ['data'] message of source
    ['backend-raw'] stamped with the time of the chunk. A data line that
    decodes gives the decoded event, and a line that does not start with
    [data: ] gives nothing: the frames sent for the chunk are exactly those
    of its data lines, in the order of the lines, one per data line. *)
Theorem undecodable_lines_forwarded_raw
    JSON_parse request_id executionId sessionId websocket st chunk session :
  send_throws (faults st) websocket = None ->
  (session <> None ->
   put_throws (faults st) (session_key sessionId) = None) ->
  let now := ISO (clock st) in
  let frame_of := line_frame JSON_parse request_id executionId sessionId now in
  exists session' st',
    process_lines JSON_parse request_id executionId sessionId websocket
      (split_newline chunk) session st = Ok session' st' /\
    outbox st' = outbox st ++
      map (fun f => (websocket, f)) (omap frame_of (split_newline chunk)) /\
    websockets st' = websockets st /\
    (forall line,
       line ∈ split_newline chunk -> is_data_line line ->
       undecodable JSON_parse (slice 6 line) ->
       frame_of line
       = Some (Built (StreamMessage.mk MsgType.data now
                        (StreamMessage.RawEvent (slice 6 line))
                        "backend-raw" sessionId request_id)) /\
       (websocket,
        Built (StreamMessage.mk MsgType.data now
                 (StreamMessage.RawEvent (slice 6 line))
                 "backend-raw" sessionId request_id)) ∈ outbox st') /\
    (forall line, ~ is_data_line line -> frame_of line = None) /\
    length (omap frame_of (split_newline chunk))
    = length (filter is_data_line (split_newline chunk)).
Proof.
  intros Hsend Hput now frame_of.
  destruct (process_lines_kept JSON_parse request_id executionId sessionId
              websocket (fun _ => True) (fun _ _ _ => Logic.I)
              (split_newline chunk) st session)
    as (session' & st' & Hrun & (_ & Hws & _ & _ & _ & Hout) & _);
    [by split|by destruct session|].
  assert (forall line,
            is_data_line line -> undecodable JSON_parse (slice 6 line) ->
            frame_of line
            = Some (raw_event request_id sessionId now (slice 6 line)))
    as Hraw.
  { intros line Hd Hbad. unfold frame_of, line_frame.
    rewrite bool_decide_eq_true_2 by done. by destruct Hbad as [-> | ->]. }
  exists session', st'. split; [exact Hrun|]. split; [exact Hout|].
  split; [exact Hws|]. split; [|split].
  - intros line Hline Hd Hbad. split; [by apply Hraw|].
    rewrite Hout. apply elem_of_app. right.
    apply (list_elem_of_fmap_2 (fun f => (websocket, f))).
    apply list_elem_of_omap. exists line. split; [done|]. by apply Hraw.
  - intros line Hd. unfold frame_of, line_frame.
    by rewrite bool_decide_eq_false_2.
  - apply length_chunk_frames.
Qed.

Lemma undecodable_lines_forwarded_raw_witness :
  let st := mkState ∅ [1%nat] [] [] None 100 no_faults in
  let chunk :=
    "data: 7" +:+ newline +:+ "event: note" +:+ newline +:+ "data: [1," in
  exists st',
    process_lines sample_parse (Some "req-1") "exec_1" "s1" 1%nat
      (split_newline chunk) None st = Ok None st' /\
    outbox st'
    = [(1%nat, Spread (JNum 7) "exec_1"
                 (Some (JStr "backend-via-durable-object")));
       (1%nat, Built (StreamMessage.mk MsgType.data (ISO 100)
                        (StreamMessage.RawEvent "[1,") "backend-raw" "s1"
                        (Some "req-1")))] /\
    websockets st' = [1%nat].
Proof.
  cbv zeta.
  destruct (undecodable_lines_forwarded_raw sample_parse (Some "req-1")
              "exec_1" "s1" 1%nat (mkState ∅ [1%nat] [] [] None 100 no_faults)
              ("data: 7" +:+ newline +:+ "event: note" +:+ newline
               +:+ "data: [1,")
              None eq_refl (fun H => False_ind _ (H eq_refl)))
    as (session' & st' & Hrun & Hout & Hws & _).
  exists st'. split; [|split; [exact Hout|exact Hws]].
  rewrite Hrun. f_equal.
  vm_compute in Hrun. by injection Hrun as <- _.
Defined.

(** C7 (as stated) fails: the backend's line [data: [1,2]] arrives split
    over two reads. The first chunk, [data: [1,], does not parse and is
    forwarded raw; the second chunk, [2]], decodes to nothing either, but
    it does not start with [data: ], so no frame is sent for it and its
    bytes reach nobody. *)
Lemma split_event_tail_is_dropped :
  let st :=
    mkState {[ session_key "s1" := default_session "s1" (ISO 0) ]}
      [1%nat] [] [] None 100 no_faults in
  let st' :=
    final_state
      (handleToolExecutionRequest sample_parse "scan" "bug_hunter"
         (Some "req-1") "exec_1" "s1" 1%nat
         (Body [(0, "data: [1,"); (0, "2]")] Done) st) in
  sample_parse "[1," = None /\
  sample_parse "2]" = None /\
  outbox st'
    = [(1%nat, starting_frame "scan" "bug_hunter" (Some "req-1") "exec_1" "s1"
                 (ISO 100));
       (1%nat, raw_frame (Some "req-1") "s1" (ISO 100) "[1,")] /\
  forall st0 session,
    process_lines sample_parse (Some "req-1") "exec_1" "s1" 1%nat
      (split_newline "2]") session st0 = Ok session st0.
Proof.
  cbv zeta. split; [reflexivity|]. split; [reflexivity|].
  split; [vm_compute; reflexivity|]. intros st0 session. reflexivity.
Qed.

(** ** Terminal executions and later runs *)







(** ** The sweep *)

Lemma swept_cons oneHourAgo entry rest m :
  swept oneHourAgo (entry :: rest) m
  = swept oneHourAgo rest
      (if eligible oneHourAgo entry then delete (fst entry) m else m).
Proof. reflexivity. Qed.

Lemma lookup_swept_None oneHourAgo entries : forall m k,
  swept oneHourAgo entries m !! k = None <->
  m !! k = None \/
  exists s, (k, s) ∈ entries /\ eligible oneHourAgo (k, s) = true.
Proof.
  induction entries as [|[k0 s0] rest IH]; intros m k.
  - simpl. split; [by left|]. intros [H|(s & Hin & _)]; [done|].
    by apply elem_of_nil in Hin.
  - rewrite swept_cons, IH. simpl.
    destruct (eligible oneHourAgo (k0, s0)) eqn:He.
    + rewrite lookup_delete_None. split.
      * intros [[<-|H]|(s & Hin & Hel)].
        -- right. exists s0. split; [by left|done].
        -- by left.
        -- right. exists s. split; [by right|done].
      * intros [H|(s & Hin & Hel)]; [left; by right|].
        apply elem_of_cons in Hin as [[= -> ->]|Hin]; [left; by left|].
        right. by exists s.
    + split.
      * intros [H|(s & Hin & Hel)]; [by left|].
        right. exists s. split; [by right|done].
      * intros [H|(s & Hin & Hel)]; [by left|].
        apply elem_of_cons in Hin as [[= -> ->]|Hin]; [congruence|].
        right. by exists s.
Qed.

Lemma lookup_swept_Some oneHourAgo entries : forall m k v,
  swept oneHourAgo entries m !! k = Some v -> m !! k = Some v.
Proof.
  induction entries as [|[k0 s0] rest IH]; intros m k v; [done|].
  rewrite swept_cons. intros H%IH. simpl in H.
  destruct (eligible oneHourAgo (k0, s0)); [|done].
  by apply lookup_delete_Some in H as [_ H].
Qed.

Lemma swept_app oneHourAgo l1 l2 m :
  swept oneHourAgo (l1 ++ l2) m = swept oneHourAgo l2 (swept oneHourAgo l1 m).
Proof. unfold swept. apply fold_left_app. Qed.

Lemma sweep_step_ok st oneHourAgo key sessionData :
  (eligible oneHourAgo (key, sessionData) = true ->
   delete_throws (faults st) key = None) ->
  (if String.prefix "session:" key
   then if expired oneHourAgo sessionData
        then _ <- storage_delete key ;; ret tt
        else ret tt
   else ret tt) st
  = Ok tt (with_storage
             (fun m => if eligible oneHourAgo (key, sessionData)
                       then delete key m else m) st).
Proof.
  unfold eligible. simpl. intros Hok.
  destruct (String.prefix "session:" key), (expired oneHourAgo sessionData);
    simpl; try (unfold ret; by destruct st).
  unfold bind, storage_delete. rewrite Hok by done. done.
Qed.

(** Without a failing delete the sweep goes through all its entries. *)
Lemma sweep_all entries oneHourAgo : forall st,
  (forall k s, (k, s) ∈ entries -> eligible oneHourAgo (k, s) = true ->
               delete_throws (faults st) k = None) ->
  sweep entries oneHourAgo st
  = Ok tt (with_storage (swept oneHourAgo entries) st).
Proof.
  induction entries as [|[k0 s0] rest IH]; intros st Hok.
  - simpl. unfold ret. by destruct st.
  - simpl. erewrite bind_ok.
    2: { apply sweep_step_ok. intros He. apply (Hok k0 s0); [by left|done]. }
    rewrite IH; [done|]. intros k s Hin. apply Hok. by right.
Qed.

(** A failing delete stops the sweep where it is. *)
Lemma sweep_stops before oneHourAgo key s after message : forall st,
  (forall k s', (k, s') ∈ before -> eligible oneHourAgo (k, s') = true ->
                delete_throws (faults st) k = None) ->
  eligible oneHourAgo (key, s) = true ->
  delete_throws (faults st) key = Some message ->
  sweep (before ++ (key, s) :: after) oneHourAgo st
  = Throw message (with_storage (swept oneHourAgo before) st).
Proof.
  induction before as [|[k0 s0] rest IH]; intros st Hok Hel Hthrow.
  - simpl. unfold eligible in Hel. simpl in Hel.
    apply andb_true_iff in Hel as [-> ->].
    unfold bind, storage_delete. rewrite Hthrow. by destruct st.
  - simpl. erewrite bind_ok.
    2: { apply sweep_step_ok. intros He. apply (Hok k0 s0); [by left|done]. }
    rewrite IH; [done| |done|done]. intros k s' Hin. apply Hok. by right.
Qed.

(** Whatever fails, the Store after the sweep is the Store swept over the
    entries processed so far, and nothing else has changed. *)
Lemma sweep_processed entries oneHourAgo : forall st,
  exists done_ rest,
    entries = done_ ++ rest /\
    final_state (sweep entries oneHourAgo st)
    = with_storage (swept oneHourAgo done_) st.
Proof.
  induction entries as [|[k0 s0] tail IH]; intros st.
  - exists [], []. split; [done|]. simpl. by destruct st.
  - destruct (eligible oneHourAgo (k0, s0)) eqn:Hel;
      [destruct (delete_throws (faults st) k0) as [e|] eqn:Hthrow|].
    + exists [], ((k0, s0) :: tail). split; [done|].
      pose proof (sweep_stops [] oneHourAgo k0 s0 tail e st) as Hstop.
      cbn [app] in Hstop. rewrite Hstop; [by destruct st| |done|done].
      intros k s' Hin. by apply elem_of_nil in Hin.
    + simpl. erewrite bind_ok; [|apply sweep_step_ok; by intros _].
      destruct (IH (with_storage
                      (fun m => if eligible oneHourAgo (k0, s0)
                                then delete k0 m else m) st))
        as (d & r & -> & Hfin).
      exists ((k0, s0) :: d), r. split; [done|]. rewrite Hfin. done.
    + simpl. erewrite bind_ok; [|apply sweep_step_ok; congruence].
      destruct (IH (with_storage
                      (fun m => if eligible oneHourAgo (k0, s0)
                                then delete k0 m else m) st))
        as (d & r & -> & Hfin).
      exists ((k0, s0) :: d), r. split; [done|]. rewrite Hfin. done.
Qed.

Lemma elem_of_sorted_entries st k s :
  (k, s) ∈ sorted_entries st <-> storage st !! k = Some s.
Proof.
  unfold sorted_entries. rewrite merge_sort_Permutation.
  apply elem_of_map_to_list.
Qed.

Lemma NoDup_sorted_keys st : NoDup ((sorted_entries st).*1).
Proof.
  unfold sorted_entries. rewrite merge_sort_Permutation.
  apply NoDup_fst_map_to_list.
Qed.

(** The Store after [alarm] is the Store swept over an initial part of
    its entries in key order. *)
Lemma alarm_storage st :
  exists done_ rest,
    sorted_entries st = done_ ++ rest /\
    storage (final_state (alarm st))
    = swept (clock st - 60 * 60 * 1000) done_ (storage st).
Proof.
  unfold alarm, try_catch, bind at 1, storage_list.
  fold (sorted_entries st).
  destruct (list_throws (faults st)) as [e|] eqn:Hlist.
  - exists [], (sorted_entries st). split; [done|done].
  - unfold bind at 1. unfold Date_now.
    destruct (sweep_processed (sorted_entries st)
                (clock st - 60 * 60 * 1000) st) as (d & r & Hsplit & Hfin).
    exists d, r. split; [done|].
    unfold bind.
    destruct (sweep (sorted_entries st) (clock st - 60 * 60 * 1000) st)
      as [[] st1|e st1]; simpl in *; by subst st1.
Qed.

(** When nothing throws it is swept over all of them, and the next alarm
    is set 30 minutes ahead. *)
Lemma alarm_all st :
  list_throws (faults st) = None ->
  (forall k, delete_throws (faults st) k = None) ->
  alarm st
  = Ok tt (with_alarm (Some (clock st + 30 * 60 * 1000))
             (with_storage
                (swept (clock st - 60 * 60 * 1000) (sorted_entries st)) st)).
Proof.
  intros Hlist Hall. unfold alarm. apply try_ok.
  erewrite bind_ok; [|unfold storage_list; by rewrite Hlist].
  fold (sorted_entries st).
  erewrite bind_ok; [|reflexivity].
  erewrite bind_ok; [|apply sweep_all; intros; apply Hall].
  reflexivity.
Qed.

Lemma expired_iff now s :
  expired (now - 60 * 60 * 1000) s = true <-> idle_beyond_threshold now s.
Proof.
  unfold expired, idle_beyond_threshold, lt_num.
  rewrite andb_true_iff, Z.eqb_eq. split.
  - intros [Hlt Hc]. split; [done|].
    destruct (getTime (SessionData.lastActivity s)) as [t|]; [|done].
    exists t. split; [done|]. apply Z.ltb_lt in Hlt. lia.
  - intros [Hc (t & -> & Hgt)]. split; [|done]. apply Z.ltb_lt. lia.
Qed.

Lemma session_key_prefix sessionId :
  String.prefix "session:" (session_key sessionId) = true.
Proof. unfold session_key. simpl. by destruct sessionId. Qed.

(** C8. For a record stored under a session key, one run of [alarm]
    leaves it either as it was or deleted; a record with a positive
    connection count stays, whatever its age and whatever fails; and when
    no storage call throws the record is deleted exactly when its
    connection count is 0 and its last activity is more than one hour
    (3 600 000 ms) before the time of the sweep. *)
Theorem sweep_deletes_exactly_idle st sessionId s :
  storage st !! session_key sessionId = Some s ->
  let after := storage (final_state (alarm st)) !! session_key sessionId in
  (0 < SessionData.websocketConnections s -> after = Some s) /\
  (after = Some s \/ after = None) /\
  (list_throws (faults st) = None ->
   (forall k, delete_throws (faults st) k = None) ->
   (after = None <-> idle_beyond_threshold (clock st) s)).
Proof.
  intros Hs after.
  assert (after = Some s \/
          after = None /\ idle_beyond_threshold (clock st) s) as Hcases.
  { destruct (alarm_storage st) as (d & r & Hsplit & Hsto).
    subst after. rewrite Hsto.
    destruct (swept _ d (storage st) !! session_key sessionId) as [v|] eqn:Hl.
    - left. apply lookup_swept_Some in Hl. congruence.
    - right. split; [done|].
      apply lookup_swept_None in Hl as [Hl|(s' & Hin & Hel)]; [congruence|].
      assert ((session_key sessionId, s') ∈ sorted_entries st) as Hin'
        by (rewrite Hsplit; apply elem_of_app; by left).
      apply elem_of_sorted_entries in Hin'.
      assert (s' = s) as -> by congruence.
      unfold eligible in Hel. apply andb_true_iff in Hel as [_ Hexp].
      by apply expired_iff. }
  split; [|split].
  - intros Hpos. destruct Hcases as [H|[_ [Hc _]]]; [done|lia].
  - destruct Hcases as [H|[H _]]; [by left|by right].
  - intros Hlist Hall. subst after. rewrite alarm_all by done. simpl.
    rewrite lookup_swept_None. split.
    + intros [H|(s' & Hin & Hel)]; [congruence|].
      apply elem_of_sorted_entries in Hin.
      assert (s' = s) as -> by congruence.
      unfold eligible in Hel. apply andb_true_iff in Hel as [_ Hexp].
      by apply expired_iff.
    + intros Hidle. right. exists s. split.
      * by apply elem_of_sorted_entries.
      * unfold eligible. cbn [fst snd]. rewrite session_key_prefix.
        cbn [andb]. by apply expired_iff.
Qed.

Lemma sweep_deletes_exactly_idle_witness :
  let idle :=
    SessionData.mk "old" (ISO 0) (ISO 0) SessionData.inactive [] 0 (ISO 0) in
  let st :=
    mkState {[ session_key "old" := idle ]} [] [] [] None 3600001 no_faults in
  storage st !! session_key "old" = Some idle /\
  idle_beyond_threshold (clock st) idle /\
  storage (final_state (alarm st)) !! session_key "old" = None.
Proof.
  cbv zeta.
  pose proof (sweep_deletes_exactly_idle
                (mkState {[ session_key "old" :=
                              SessionData.mk "old" (ISO 0) (ISO 0)
                                SessionData.inactive [] 0 (ISO 0) ]}
                   [] [] [] None 3600001 no_faults)
                "old" _ (lookup_singleton_eq _ _)) as (_ & _ & Hiff).
  assert (idle_beyond_threshold 3600001
            (SessionData.mk "old" (ISO 0) (ISO 0) SessionData.inactive [] 0
               (ISO 0))) as Hidle.
  { split; [reflexivity|]. exists 0. split; [reflexivity|]. simpl. lia. }
  split; [apply lookup_singleton_eq|]. split; [exact Hidle|].
  apply (Hiff eq_refl (fun _ => eq_refl)). exact Hidle.
Defined.

(** A session one hour and one millisecond old is swept when nobody is
    connected and kept when one socket is; exactly one hour old, it is
    kept. *)
Example sweep_threshold_examples :
  let record n t :=
    SessionData.mk "s" (ISO t) (ISO t) SessionData.inactive [] n (ISO t) in
  let run n t :=
    storage (final_state
               (alarm (mkState {[ session_key "s" := record n t ]}
                         [] [] [] None 3600001 no_faults)))
      !! session_key "s" in
  run 0 0 = None /\
  run 1 0 = Some (record 1 0) /\
  run 0 1 = Some (record 0 1).
Proof. vm_compute. repeat split; reflexivity. Qed.

(** C9 (as the code has it). The loop of [alarm] sits inside one
    [try]: when the delete of an expired session key throws, [alarm]
    still returns normally, but the sweep has stopped there. The entries
    before that key (in key order) have been processed, that key and
    every later key are still stored whether expired or not, and the next
    alarm has not been set. *)
Theorem sweep_stops_at_first_failure st before key s after message :
  list_throws (faults st) = None ->
  sorted_entries st = before ++ (key, s) :: after ->
  (forall k s', (k, s') ∈ before ->
                eligible (clock st - 60 * 60 * 1000) (k, s') = true ->
                delete_throws (faults st) k = None) ->
  eligible (clock st - 60 * 60 * 1000) (key, s) = true ->
  delete_throws (faults st) key = Some message ->
  exists st',
    alarm st = Ok tt st' /\
    alarm_at st' = alarm_at st /\
    storage st' !! key = Some s /\
    (forall k s', (k, s') ∈ after -> storage st' !! k = Some s') /\
    (forall k s', (k, s') ∈ before ->
       (storage st' !! k = None
        <-> eligible (clock st - 60 * 60 * 1000) (k, s') = true)).
Proof.
  intros Hlist Hsplit Hok Hel Hthrow.
  exists (with_storage (swept (clock st - 60 * 60 * 1000) before) st).
  pose proof (NoDup_sorted_keys st) as Hnd.
  rewrite Hsplit, fmap_app, fmap_cons in Hnd. simpl in Hnd.
  apply NoDup_app in Hnd as (Hnd1 & Hdisj & Hnd2).
  assert (forall k v, (k, v) ∈ before ++ (key, s) :: after ->
                      storage st !! k = Some v) as Hstored.
  { intros k v Hin. apply elem_of_sorted_entries. by rewrite Hsplit. }
  assert (forall k v, (k, v) ∈ (key, s) :: after ->
            swept (clock st - 60 * 60 * 1000) before (storage st) !! k = Some v)
    as Hkept.
  { intros k v Hin.
    destruct (swept _ before (storage st) !! k) as [v'|] eqn:Hl.
    - apply lookup_swept_Some in Hl.
      rewrite (Hstored k v) in Hl by (apply elem_of_app; by right).
      congruence.
    - exfalso. apply lookup_swept_None in Hl as [Hl|(s' & Hin' & _)].
      + rewrite (Hstored k v) in Hl by (apply elem_of_app; by right). done.
      + apply (Hdisj k).
        * apply (list_elem_of_fmap_2 fst) in Hin'. exact Hin'.
        * apply (list_elem_of_fmap_2 fst) in Hin. exact Hin. }
  split; [|split; [done|split; [|split]]].
  - unfold alarm.
    erewrite try_throw; [reflexivity|].
    erewrite bind_ok; [|unfold storage_list; by rewrite Hlist].
    fold (sorted_entries st). rewrite Hsplit.
    erewrite bind_ok; [|reflexivity].
    erewrite bind_throw; [reflexivity|].
    by apply sweep_stops.
  - simpl. apply Hkept. by left.
  - intros k s' Hin. simpl. apply Hkept. by right.
  - intros k s' Hin. simpl. rewrite lookup_swept_None. split.
    + intros [Hl|(v & Hin' & Helv)].
      * rewrite (Hstored k s') in Hl by (apply elem_of_app; by left). done.
      * assert (v = s') as ->; [|done].
        pose proof (Hstored k v) as H1. pose proof (Hstored k s') as H2.
        rewrite H1 in H2 by (apply elem_of_app; by left).
        specialize (H2 ltac:(apply elem_of_app; by left)). congruence.
    + intros Hels. right. by exists s'.
Qed.

Lemma sweep_stops_at_first_failure_witness :
  let idle id :=
    SessionData.mk id (ISO 0) (ISO 0) SessionData.inactive [] 0 (ISO 0) in
  let flaky :=
    mkFaults (fun _ => None) (fun _ => None)
      (fun k => if String.eqb k "session:a" then Some "transient" else None)
      None (fun _ => None) in
  let st :=
    mkState {[ session_key "a" := idle "a"; session_key "b" := idle "b" ]}
      [] [] [] None 3600001 flaky in
  sorted_entries st
    = [] ++ (session_key "a", idle "a") :: [(session_key "b", idle "b")] /\
  exists st',
    alarm st = Ok tt st' /\
    alarm_at st' = None /\
    storage st' !! session_key "a" = Some (idle "a") /\
    (forall k s', (k, s') ∈ [(session_key "b", idle "b")] ->
                  storage st' !! k = Some s') /\
    (forall k s', (k, s') ∈ [] ->
       (storage st' !! k = None
        <-> eligible (3600001 - 60 * 60 * 1000) (k, s') = true)).
Proof.
  cbv zeta. split; [vm_compute; reflexivity|].
  apply (sweep_stops_at_first_failure
           (mkState
              {[ session_key "a" :=
                   SessionData.mk "a" (ISO 0) (ISO 0) SessionData.inactive []
                     0 (ISO 0);
                 session_key "b" :=
                   SessionData.mk "b" (ISO 0) (ISO 0) SessionData.inactive []
                     0 (ISO 0) ]}
              [] [] [] None 3600001
              (mkFaults (fun _ => None) (fun _ => None)
                 (fun k => if String.eqb k "session:a"
                           then Some "transient" else None)
                 None (fun _ => None)))
           [] (session_key "a") _ _ "transient").
  - reflexivity.
  - vm_compute; reflexivity.
  - intros k s' Hin. by apply elem_of_nil in Hin.
  - vm_compute; reflexivity.
  - reflexivity.
Defined.

(** C9 (as stated) fails: two sessions, both without connections and
    idle for more than an hour, are stored under [session:a] and
    [session:b]. The delete of [session:a] throws. The sweep does not go
    on to [session:b]: it is still stored afterwards and no next alarm is
    set, whereas with a working Store the same sweep deletes it. *)
Lemma failed_delete_aborts_sweep :
  let idle id :=
    SessionData.mk id (ISO 0) (ISO 0) SessionData.inactive [] 0 (ISO 0) in
  let flaky :=
    mkFaults (fun _ => None) (fun _ => None)
      (fun k => if String.eqb k "session:a" then Some "transient" else None)
      None (fun _ => None) in
  let sessions :=
    {[ session_key "a" := idle "a"; session_key "b" := idle "b" ]} in
  let st := mkState sessions [] [] [] None 3600001 flaky in
  let st_ok := mkState sessions [] [] [] None 3600001 no_faults in
  expired (clock st - 60 * 60 * 1000) (idle "b") = true /\
  delete_throws (faults st) (session_key "b") = None /\
  storage (final_state (alarm st)) !! session_key "b" = Some (idle "b") /\
  alarm_at (final_state (alarm st)) = None /\
  storage (final_state (alarm st_ok)) !! session_key "b" = None /\
  alarm_at (final_state (alarm st_ok)) = Some 5400001.
Proof. vm_compute. repeat split; reflexivity. Qed.

(** * Further properties of the handlers *)

(** ** Reading a session *)

Lemma getSession_run st sessionId :
  getSession sessionId st
  = Ok (match get_throws (faults st) (session_key sessionId) with
        | Some _ => Response.mk 500 (Response.Text "Internal error")
        | None =>
            match storage st !! session_key sessionId with
            | Some s => Response.mk 200 (Response.Json s)
            | None => Response.mk 404 (Response.Text "Session not found")
            end
        end) st.
Proof.
  unfold getSession, try_catch, bind, storage_get.
  destruct (get_throws (faults st) (session_key sessionId)); [done|].
  by destruct (storage st !! session_key sessionId).
Qed.

(** X1. What [createSession] answers is what [getSession] then reads: after
    a create that the Store accepts, a get of the same id answers 200 with
    exactly the record of the 201 answer, and changes nothing. *)
Theorem created_session_is_read_back st sessionId d :
  put_throws (faults st) (session_key sessionId) = None ->
  get_throws (faults st) (session_key sessionId) = None ->
  exists session st',
    createSession sessionId (Some d) st
      = Ok (Response.mk 201 (Response.Json session)) st' /\
    getSession sessionId st'
      = Ok (Response.mk 200 (Response.Json session)) st'.
Proof.
  intros Hput Hget.
  exists (Object_assign (default_session sessionId (ISO (clock st))) d).
  eexists. split.
  - unfold createSession, request_json. apply try_ok.
    erewrite bind_ok; [|reflexivity].
    erewrite bind_ok; [|reflexivity].
    erewrite bind_ok; [|by apply storage_put_ok]. reflexivity.
  - rewrite getSession_run. simpl. rewrite Hget, lookup_insert_eq. done.
Qed.

Lemma created_session_is_read_back_witness :
  let st := mkState ∅ [] [] [] None 1000 no_faults in
  exists session st',
    createSession "s1" (Some PartialSession.empty) st
      = Ok (Response.mk 201 (Response.Json session)) st' /\
    getSession "s1" st' = Ok (Response.mk 200 (Response.Json session)) st'.
Proof.
  cbv zeta.
  exact (created_session_is_read_back
           (mkState ∅ [] [] [] None 1000 no_faults) "s1" PartialSession.empty
           eq_refl eq_refl).
Defined.

(** X2. A create that fails stores nothing and always answers 400
    "Invalid session data": both when the body is not JSON and when the
    body is fine but [storage.put] throws. *)
Theorem failed_create_stores_nothing st sessionId body :
  body = None \/ is_Some (put_throws (faults st) (session_key sessionId)) ->
  createSession sessionId body st
  = Ok (Response.mk 400 (Response.Text "Invalid session data")) st.
Proof.
  intros Hfail. unfold createSession.
  destruct body as [d|].
  - destruct Hfail as [|[e He]]; [done|].
    erewrite try_throw; [reflexivity|].
    unfold request_json.
    erewrite bind_ok; [|reflexivity].
    erewrite bind_ok; [|reflexivity].
    erewrite bind_throw; [reflexivity|].
    unfold storage_put. by rewrite He.
  - by erewrite try_throw.
Qed.

Lemma failed_create_stores_nothing_witness :
  let st :=
    mkState ∅ [] [] [] None 1000
      (mkFaults (fun _ => None) (fun _ => Some "disk full") (fun _ => None)
         None (fun _ => None)) in
  createSession "s1" (Some PartialSession.empty) st
  = Ok (Response.mk 400 (Response.Text "Invalid session data")) st.
Proof.
  cbv zeta. apply failed_create_stores_nothing.
  right. simpl. by eexists.
Defined.

(** ** Deleting a session *)

(** The state once [deleteSession] has broadcast, closed and cleared. *)
Lemma deleteSession_run st sessionId :
  let cleared :=
    mkState (storage st) []
      (outbox st ++
         map (fun ws => (ws, deleting_frame (ISO (clock st)) sessionId))
             (filter (sendable st) (websockets st)))
      (closed st ++ filter (sendable st) (websockets st))
      (alarm_at st) (clock st) (faults st) in
  deleteSession sessionId st
  = match delete_throws (faults st) (session_key sessionId) with
    | Some _ => Ok (Response.mk 500 (Response.Text "Delete failed")) cleared
    | None =>
        Ok (match storage st !! session_key sessionId with
            | Some _ => Response.mk 200 (Response.Text "Session deleted")
            | None => Response.mk 404 (Response.Text "Session not found")
            end)
           (with_storage (delete (session_key sessionId)) cleared)
    end.
Proof.
  intros cleared.
  unfold deleteSession, try_catch.
  unfold bind at 1. unfold Date_toISOString.
  unfold bind at 1. rewrite broadcastToWebSockets_spec.
  unfold bind at 1. unfold get_websockets. cbn [websockets].
  unfold bind at 1. rewrite close_all_spec.
  unfold bind at 1. unfold websockets_clear.
  unfold bind at 1. unfold storage_delete.
  cbn [faults with_websockets with_closed storage].
  destruct (delete_throws (faults st) (session_key sessionId)); [done|].
  destruct (storage st !! session_key sessionId) as [s|] eqn:Hs.
  - rewrite bool_decide_eq_true_2 by (by eexists). done.
  - rewrite bool_decide_eq_false_2 by (intros [? ?]; done). done.
Qed.

(** X3. When [storage.delete] works, [deleteSession] answers 200 if the
    session was stored and 404 if not, and in both cases the session's key
    is absent afterwards, every other key is as before, the set of
    sockets is empty, and the sockets closed are exactly those of the set
    whose [send] worked for the shutdown message. *)
Theorem deleteSession_outcome st sessionId :
  delete_throws (faults st) (session_key sessionId) = None ->
  exists st',
    deleteSession sessionId st
    = Ok (match storage st !! session_key sessionId with
          | Some _ => Response.mk 200 (Response.Text "Session deleted")
          | None => Response.mk 404 (Response.Text "Session not found")
          end) st' /\
    storage st' !! session_key sessionId = None /\
    (forall k, k <> session_key sessionId -> storage st' !! k = storage st !! k) /\
    websockets st' = [] /\
    closed st' = closed st ++ filter (sendable st) (websockets st).
Proof.
  intros Hdel. rewrite deleteSession_run, Hdel.
  eexists. split; [reflexivity|]. simpl.
  split; [apply lookup_delete_eq|]. split; [|done].
  intros k Hk. by apply lookup_delete_ne.
Qed.

Lemma deleteSession_outcome_witness :
  let st :=
    mkState {[ session_key "s1" := default_session "s1" (ISO 0) ]}
      [1%nat; 2%nat] [] [] None 10 no_faults in
  exists st',
    deleteSession "s1" st
    = Ok (Response.mk 200 (Response.Text "Session deleted")) st' /\
    storage st' !! session_key "s1" = None /\
    websockets st' = [] /\
    closed st' = [1%nat; 2%nat].
Proof.
  cbv zeta.
  destruct (deleteSession_outcome
              (mkState {[ session_key "s1" := default_session "s1" (ISO 0) ]}
                 [1%nat; 2%nat] [] [] None 10 no_faults) "s1" eq_refl)
    as (st' & Hrun & Hgone & _ & Hws & Hcl).
  exists st'. split; [|by repeat split].
  rewrite Hrun. cbn [storage]. by rewrite lookup_singleton_eq.
Defined.

(** X4. Delete, then get, then delete again: with a working Store, after
    the delete of a stored session a get answers 404 and a second delete
    answers 404 too, sends nothing (the set of sockets is already empty)
    and leaves the state as it is. *)
Theorem deleted_session_is_gone st sessionId s :
  storage st !! session_key sessionId = Some s ->
  delete_throws (faults st) (session_key sessionId) = None ->
  get_throws (faults st) (session_key sessionId) = None ->
  exists st',
    deleteSession sessionId st
      = Ok (Response.mk 200 (Response.Text "Session deleted")) st' /\
    getSession sessionId st'
      = Ok (Response.mk 404 (Response.Text "Session not found")) st' /\
    deleteSession sessionId st'
      = Ok (Response.mk 404 (Response.Text "Session not found")) st'.
Proof.
  intros Hs Hdel Hget. eexists. split; [|split].
  - rewrite deleteSession_run, Hdel, Hs. reflexivity.
  - rewrite getSession_run. cbn [faults storage with_storage].
    rewrite Hget, lookup_delete_eq. done.
  - rewrite deleteSession_run. cbn [faults storage with_storage websockets].
    rewrite Hdel, lookup_delete_eq. rewrite filter_nil. simpl.
    rewrite !app_nil_r. unfold with_storage. simpl.
    rewrite delete_id by apply lookup_delete_eq. done.
Qed.

Lemma deleted_session_is_gone_witness :
  let st :=
    mkState {[ session_key "s1" := default_session "s1" (ISO 0) ]}
      [1%nat] [] [] None 10 no_faults in
  exists st',
    deleteSession "s1" st
      = Ok (Response.mk 200 (Response.Text "Session deleted")) st' /\
    getSession "s1" st'
      = Ok (Response.mk 404 (Response.Text "Session not found")) st' /\
    deleteSession "s1" st'
      = Ok (Response.mk 404 (Response.Text "Session not found")) st'.
Proof.
  cbv zeta.
  exact (deleted_session_is_gone
           (mkState {[ session_key "s1" := default_session "s1" (ISO 0) ]}
              [1%nat] [] [] None 10 no_faults)
           "s1" (default_session "s1" (ISO 0))
           (lookup_singleton_eq _ _) eq_refl eq_refl).
Defined.

(** X5. When [storage.delete] throws, [deleteSession] answers 500 "Delete
    failed" and the Store is untouched, so the session is still stored;
    but the shutdown message has been broadcast, the sockets that took it
    have been closed and the set of sockets is empty. *)
Theorem failed_delete_still_disconnects st sessionId message :
  delete_throws (faults st) (session_key sessionId) = Some message ->
  exists st',
    deleteSession sessionId st
      = Ok (Response.mk 500 (Response.Text "Delete failed")) st' /\
    storage st' = storage st /\
    websockets st' = [] /\
    closed st' = closed st ++ filter (sendable st) (websockets st) /\
    outbox st' = outbox st ++
      map (fun ws => (ws, deleting_frame (ISO (clock st)) sessionId))
          (filter (sendable st) (websockets st)).
Proof.
  intros Hdel. rewrite deleteSession_run, Hdel.
  eexists. split; [reflexivity|]. done.
Qed.

Lemma failed_delete_still_disconnects_witness :
  let st :=
    mkState {[ session_key "s1" := default_session "s1" (ISO 0) ]}
      [1%nat; 2%nat] [] [] None 10
      (mkFaults (fun _ => None) (fun _ => None) (fun _ => Some "unavailable")
         None (fun _ => None)) in
  exists st',
    deleteSession "s1" st
      = Ok (Response.mk 500 (Response.Text "Delete failed")) st' /\
    storage st' !! session_key "s1" = Some (default_session "s1" (ISO 0)) /\
    websockets st' = [] /\
    closed st' = [1%nat; 2%nat].
Proof.
  cbv zeta.
  destruct (failed_delete_still_disconnects
              (mkState {[ session_key "s1" := default_session "s1" (ISO 0) ]}
                 [1%nat; 2%nat] [] [] None 10
                 (mkFaults (fun _ => None) (fun _ => None)
                    (fun _ => Some "unavailable") None (fun _ => None)))
              "s1" "unavailable" eq_refl)
    as (st' & Hrun & Hsto & Hws & Hcl & _).
  exists st'. split; [exact Hrun|]. rewrite Hsto, Hws, Hcl.
  split; [apply lookup_singleton_eq|]. by split.
Defined.

(** ** Event-stream responses *)

Lemma getSessionStream_run st sessionId :
  getSessionStream sessionId st
  = Ok (match get_throws (faults st) (session_key sessionId) with
        | Some _ =>
            StreamResponse.mk 404 (StreamResponse.Text "Session not found")
        | None =>
            match storage st !! session_key sessionId with
            | Some s =>
                StreamResponse.mk 200
                  (StreamResponse.Events
                     [SseMessage.mk MsgType.data (ISO (clock st))
                        (SseMessage.Current s) "durable-object-stream"
                        sessionId]
                     false)
            | None =>
                StreamResponse.mk 404 (StreamResponse.Text "Session not found")
            end
        end) st.
Proof.
  unfold getSessionStream, getSessionData, try_catch, bind, storage_get.
  destruct (get_throws (faults st) (session_key sessionId)); [done|].
  by destruct (storage st !! session_key sessionId).
Qed.

(** X6. A Store that cannot be read shows differently on the two read
    paths: when [storage.get] throws, [getSession] answers 500 "Internal
    error", while [getSessionStream], which reads through
    [getSessionData], answers 404 "Session not found" as if the session
    did not exist. Neither changes the state. *)
Theorem unreadable_store_on_the_two_read_paths st sessionId message :
  get_throws (faults st) (session_key sessionId) = Some message ->
  getSession sessionId st
    = Ok (Response.mk 500 (Response.Text "Internal error")) st /\
  getSessionStream sessionId st
    = Ok (StreamResponse.mk 404 (StreamResponse.Text "Session not found")) st.
Proof.
  intros Hget. rewrite getSession_run, getSessionStream_run, Hget. done.
Qed.

Lemma unreadable_store_on_the_two_read_paths_witness :
  let st :=
    mkState {[ session_key "s1" := default_session "s1" (ISO 0) ]}
      [] [] [] None 10
      (mkFaults (fun _ => Some "timeout") (fun _ => None) (fun _ => None)
         None (fun _ => None)) in
  getSession "s1" st
    = Ok (Response.mk 500 (Response.Text "Internal error")) st /\
  getSessionStream "s1" st
    = Ok (StreamResponse.mk 404 (StreamResponse.Text "Session not found")) st.
Proof.
  cbv zeta.
  exact (unreadable_store_on_the_two_read_paths
           (mkState {[ session_key "s1" := default_session "s1" (ISO 0) ]}
              [] [] [] None 10
              (mkFaults (fun _ => Some "timeout") (fun _ => None)
                 (fun _ => None) None (fun _ => None)))
           "s1" "timeout" eq_refl).
Defined.

(** X7. A streaming session is read back as created: after a
    [createStreamingSession] that the Store accepts, the record announced
    in the single event of the closed 201 stream is the record that
    [getSessionStream] then sends as the single event of an open 200
    stream, and that [getSession] returns. Unless the body says
    otherwise, that record has status [streaming] and no connection
    counted. *)
Theorem streaming_session_is_read_back st sessionId d :
  put_throws (faults st) (session_key sessionId) = None ->
  get_throws (faults st) (session_key sessionId) = None ->
  exists session st',
    createStreamingSession sessionId (Some d) st
      = Ok (StreamResponse.mk 201
              (StreamResponse.Events
                 [SseMessage.mk MsgType.data (ISO (clock st))
                    (SseMessage.Created "Streaming session created" session)
                    "durable-object" sessionId]
                 true)) st' /\
    getSessionStream sessionId st'
      = Ok (StreamResponse.mk 200
              (StreamResponse.Events
                 [SseMessage.mk MsgType.data (ISO (clock st))
                    (SseMessage.Current session) "durable-object-stream"
                    sessionId]
                 false)) st' /\
    getSession sessionId st'
      = Ok (Response.mk 200 (Response.Json session)) st' /\
    (PartialSession.status d = None ->
     SessionData.status session = SessionData.streaming) /\
    (PartialSession.websocketConnections d = None ->
     SessionData.websocketConnections session = 0).
Proof.
  intros Hput Hget.
  exists (Object_assign
            (default_streaming_session sessionId (ISO (clock st))) d).
  eexists. split; [|split; [|split; [|split]]].
  - unfold createStreamingSession, request_json. apply try_ok.
    erewrite bind_ok; [|reflexivity].
    erewrite bind_ok; [|reflexivity].
    erewrite bind_ok; [|by apply storage_put_ok]. reflexivity.
  - rewrite getSessionStream_run. simpl. rewrite Hget, lookup_insert_eq. done.
  - rewrite getSession_run. simpl. rewrite Hget, lookup_insert_eq. done.
  - intros Hd. simpl. by rewrite Hd.
  - intros Hd. simpl. by rewrite Hd.
Qed.

Lemma streaming_session_is_read_back_witness :
  let st := mkState ∅ [] [] [] None 1000 no_faults in
  exists session st',
    createStreamingSession "s1" (Some PartialSession.empty) st
      = Ok (StreamResponse.mk 201
              (StreamResponse.Events
                 [SseMessage.mk MsgType.data (ISO 1000)
                    (SseMessage.Created "Streaming session created" session)
                    "durable-object" "s1"]
                 true)) st' /\
    getSessionStream "s1" st'
      = Ok (StreamResponse.mk 200
              (StreamResponse.Events
                 [SseMessage.mk MsgType.data (ISO 1000)
                    (SseMessage.Current session) "durable-object-stream" "s1"]
                 false)) st' /\
    getSession "s1" st' = Ok (Response.mk 200 (Response.Json session)) st' /\
    (PartialSession.status PartialSession.empty = None ->
     SessionData.status session = SessionData.streaming) /\
    (PartialSession.websocketConnections PartialSession.empty = None ->
     SessionData.websocketConnections session = 0).
Proof.
  cbv zeta.
  exact (streaming_session_is_read_back
           (mkState ∅ [] [] [] None 1000 no_faults) "s1" PartialSession.empty
           eq_refl eq_refl).
Defined.

(** ** Connection events in any order *)

(** The set of sockets after [handleWebSocket], however it ends. *)
Lemma handleWebSocket_websockets st ws sessionId :
  websockets (final_state (handleWebSocket ws sessionId st))
  = if bool_decide (ws ∈ websockets st) then websockets st
    else websockets st ++ [ws].
Proof.
  unfold handleWebSocket, try_catch, bind, websockets_add, getSessionData,
    try_catch, storage_get, ret, Date_toISOString, storage_put, ws_send.
  simpl.
  destruct (get_throws (faults st) (session_key sessionId)); simpl;
    [|destruct (storage st !! session_key sessionId); simpl;
      [destruct (put_throws (faults st) (session_key sessionId)); simpl|]];
    try destruct (send_throws (faults st) ws); reflexivity.
Qed.

(** The set of sockets after the ['close'] listener, however it ends. *)
Lemma on_close_websockets st ws sessionId :
  websockets (final_state (on_close ws sessionId st))
  = filter (fun w => w <> ws) (websockets st).
Proof.
  unfold on_close, bind, websockets_delete, getSessionData,
    try_catch, storage_get, ret, Date_toISOString, storage_put.
  simpl.
  destruct (get_throws (faults st) (session_key sessionId)); simpl;
    [|destruct (storage st !! session_key sessionId); simpl;
      [destruct (put_throws (faults st) (session_key sessionId)); simpl|]];
    reflexivity.
Qed.

(** X8. [handleWebSocket] has no clean-up: whether it answers 101 or 500,
    and whatever throws on the way, the server socket is in the set
    afterwards and every socket that was in the set is still there. *)
Theorem upgrade_always_keeps_the_socket st ws sessionId :
  let st' := final_state (handleWebSocket ws sessionId st) in
  ws ∈ websockets st' /\
  (forall w, w ∈ websockets st -> w ∈ websockets st') /\
  (forall w, w ∈ websockets st' -> w = ws \/ w ∈ websockets st).
Proof.
  cbv zeta. rewrite handleWebSocket_websockets.
  case_bool_decide as Hin.
  - split; [done|]. split; [done|]. intros w Hw. by right.
  - split; [apply elem_of_app; right; by left|]. split.
    + intros w Hw. apply elem_of_app. by left.
    + intros w Hw. apply elem_of_app in Hw as [Hw|Hw]; [by right|].
      left. by apply list_elem_of_singleton in Hw.
Qed.

(** X9. Whatever the order of the events, even when closes outnumber
    attaches, the stored counter never goes below 0: from a stored
    session with a counter of at least 0 and a working Store, after any
    sequence of attaches and closes the counter is at least 0. As long as
    the start plus the number of attaches is at most [2^53] (beyond, the
    counter can no longer count by one) it is at least the start plus
    attaches minus closes and at most the start plus attaches. The events
    leave the session's id, creation and update times and executions as
    they were. *)
Theorem counter_never_negative st sessionId s0 evs :
  storage_works sessionId st ->
  storage st !! session_key sessionId = Some s0 ->
  0 <= SessionData.websocketConnections s0 ->
  exists s,
    storage (run_events sessionId evs st) !! session_key sessionId = Some s /\
    0 <= SessionData.websocketConnections s /\
    (SessionData.websocketConnections s0 + attaches evs <= 2 ^ 53 ->
     SessionData.websocketConnections s0 + attaches evs - detaches evs
       <= SessionData.websocketConnections s /\
     SessionData.websocketConnections s
       <= SessionData.websocketConnections s0 + attaches evs) /\
    SessionData.id s = SessionData.id s0 /\
    SessionData.createdAt s = SessionData.createdAt s0 /\
    SessionData.updatedAt s = SessionData.updatedAt s0 /\
    SessionData.toolExecutions s = SessionData.toolExecutions s0.
Proof.
  revert st s0. induction evs as [|ev evs IH]; intros st s0 Hw Hs Hc.
  - exists s0. simpl. repeat split; try done; lia.
  - destruct (run_event_stores st sessionId s0 ev Hw Hs) as [Hw1 Hs1].
    set (s1 := match ev with
               | Attach _ => attach_session (ISO (clock st)) s0
               | Detach _ => detach_session (ISO (clock st)) s0
               end) in *.
    assert (0 <= SessionData.websocketConnections s1) as Hc1.
    { destruct ev; simpl; [|lia].
      pose proof (to_double_pos (SessionData.websocketConnections s0 + 1)).
      unfold js_add. lia. }
    destruct (IH _ s1 Hw1 Hs1 Hc1)
      as (s & Hfin & H0 & Hbounds & Hid & Hcr & Hup & Hex).
    exists s. simpl. split; [exact Hfin|]. split; [done|].
    split.
    + intros Hmax. pose proof (attaches_nonneg evs) as Hnn.
      destruct ev; simpl in *.
      * rewrite js_add_one_exact in Hbounds by lia. lia.
      * rewrite js_sub_one_exact in Hbounds by lia. lia.
    + destruct ev; simpl in *; repeat split; congruence.
Qed.

Lemma counter_never_negative_witness :
  let st :=
    mkState {[ session_key "s1" := default_session "s1" (ISO 0) ]}
      [] [] [] None 10 no_faults in
  let evs := [Detach 7%nat; Detach 7%nat; Attach 1%nat] in
  exists s,
    storage (run_events "s1" evs st) !! session_key "s1" = Some s /\
    0 <= SessionData.websocketConnections s /\
    (0 + attaches evs <= 2 ^ 53 ->
     0 + attaches evs - detaches evs <= SessionData.websocketConnections s /\
     SessionData.websocketConnections s <= 0 + attaches evs) /\
    SessionData.id s = "s1" /\
    SessionData.createdAt s = ISO 0 /\
    SessionData.updatedAt s = ISO 0 /\
    SessionData.toolExecutions s = [].
Proof.
  cbv zeta.
  apply (counter_never_negative
           (mkState {[ session_key "s1" := default_session "s1" (ISO 0) ]}
              [] [] [] None 10 no_faults)
           "s1" (default_session "s1" (ISO 0))
           [Detach 7%nat; Detach 7%nat; Attach 1%nat]).
  - split; reflexivity.
  - apply lookup_singleton_eq.
  - simpl. lia.
Defined.

(** X10. Once a connection event has happened the status only says
    whether somebody is connected: from a stored session that counts no
    connection, whatever its status, after any non-empty sequence of
    attaches and closes in any order the status is [streaming] when the
    counter is positive and [inactive] when it is 0. The status [active]
    given at creation never comes back. *)
Theorem status_follows_counter_after_events st sessionId s0 evs :
  faults st = no_faults ->
  storage st !! session_key sessionId = Some s0 ->
  SessionData.websocketConnections s0 = 0 ->
  evs <> [] ->
  exists s,
    storage (run_events sessionId evs st) !! session_key sessionId = Some s /\
    status_follows_counter s /\
    SessionData.status s <> SessionData.active.
Proof.
  intros Hf Hs Hc Hne.
  destruct (status_follows_counter_from sessionId evs st s0)
    as (s & Hfin & HJ); [unfold storage_works; by rewrite Hf|done|lia|lia|done|].
  exists s. split; [exact Hfin|]. split; [exact HJ|].
  destruct HJ as (H0 & Hpos & Hzero). intros Hact.
  destruct (Z.eq_dec (SessionData.websocketConnections s) 0) as [Hz|Hnz].
  - rewrite Hzero in Hact by done. discriminate.
  - rewrite Hpos in Hact by lia. discriminate.
Qed.

Lemma status_follows_counter_after_events_witness :
  let st :=
    mkState {[ session_key "s1" := default_streaming_session "s1" (ISO 0) ]}
      [] [] [] None 10 no_faults in
  exists s,
    storage (run_events "s1" [Attach 1%nat; Detach 1%nat] st)
      !! session_key "s1" = Some s /\
    status_follows_counter s /\
    SessionData.status s <> SessionData.active.
Proof.
  cbv zeta.
  apply (status_follows_counter_after_events
           (mkState
              {[ session_key "s1" := default_streaming_session "s1" (ISO 0) ]}
              [] [] [] None 10 no_faults)
           "s1" (default_streaming_session "s1" (ISO 0))).
  - reflexivity.
  - apply lookup_singleton_eq.
  - reflexivity.
  - discriminate.
Defined.

(** ** The set of sockets and the counter *)

Lemma length_filter_remove (l : list WebSocket) ws :
  NoDup l -> ws ∈ l ->
  length (filter (fun w => w <> ws) l) = (length l - 1)%nat.
Proof.
  intros Hnd Hin. induction Hnd as [|a l Ha Hnd IH];
    [by apply elem_of_nil in Hin|].
  apply elem_of_cons in Hin as [->|Hin].
  - rewrite filter_cons_False by (intros H; by apply H).
    rewrite filter_id_on; [simpl; lia|]. intros x Hx ->. done.
  - rewrite filter_cons_True by (intros ->; done).
    simpl. rewrite IH by done.
    destruct l; [by apply elem_of_nil in Hin|simpl; lia].
Qed.

Lemma NoDup_filter_remove (l : list WebSocket) ws :
  NoDup l -> NoDup (filter (fun w => w <> ws) l).
Proof. apply NoDup_filter. Qed.

Lemma run_events_cons sessionId ev evs st :
  run_events sessionId (ev :: evs) st
  = run_events sessionId evs (run_event sessionId st ev).
Proof. reflexivity. Qed.

Lemma sockets_follow_events sessionId evs : forall open st,
  (forall w, w ∈ websockets st <-> w ∈ open) ->
  NoDup (websockets st) ->
  well_formed open evs = true ->
  NoDup (websockets (run_events sessionId evs st)) /\
  Z.of_nat (length (websockets (run_events sessionId evs st)))
  = Z.of_nat (length (websockets st)) + attaches evs - detaches evs.
Proof.
  induction evs as [|ev evs IH]; intros open st Hopen Hnd Hwf.
  - simpl. split; [done|lia].
  - simpl in Hwf. destruct ev as [ws|ws];
      apply andb_true_iff in Hwf as [Hws Hwf];
      apply bool_decide_eq_true in Hws.
    + assert (ws ∉ websockets st) as Hfresh by (by rewrite Hopen).
      destruct (IH (open ∪ {[ws]}) (run_event sessionId st (Attach ws)))
        as [Hnd' Hlen']; [| |done|].
      * intros w. unfold run_event. rewrite handleWebSocket_websockets.
        rewrite bool_decide_eq_false_2 by done.
        rewrite elem_of_app, list_elem_of_singleton, elem_of_union,
          elem_of_singleton, Hopen. done.
      * unfold run_event. rewrite handleWebSocket_websockets.
        rewrite bool_decide_eq_false_2 by done.
        apply NoDup_app. split; [done|]. split; [|apply NoDup_singleton].
        intros w Hw Hw'. apply list_elem_of_singleton in Hw'. by subst.
      * rewrite run_events_cons. split; [exact Hnd'|]. rewrite Hlen'.
        unfold run_event. rewrite handleWebSocket_websockets.
        rewrite bool_decide_eq_false_2 by done.
        rewrite length_app. cbn [attaches detaches length]. lia.
    + assert (ws ∈ websockets st) as Hin by (by rewrite Hopen).
      destruct (IH (open ∖ {[ws]}) (run_event sessionId st (Detach ws)))
        as [Hnd' Hlen']; [| |done|].
      * intros w. unfold run_event. rewrite on_close_websockets.
        rewrite list_elem_of_filter, elem_of_difference, elem_of_singleton,
          Hopen. tauto.
      * unfold run_event. rewrite on_close_websockets.
        by apply NoDup_filter_remove.
      * rewrite run_events_cons. split; [exact Hnd'|]. rewrite Hlen'.
        unfold run_event. rewrite on_close_websockets.
        rewrite length_filter_remove by done.
        cbn [attaches detaches].
        destruct (websockets st);
          [by apply elem_of_nil in Hin|cbn [length]; lia].
Qed.

(** X11. The stored counter is the size of the in-memory set: for a
    stored session that counts no connection, whatever its status, an
    empty set of sockets, a working Store and a sequence of at most
    [2^53] attaches in which a socket is closed only while attached, after
    the sequence the set holds no socket twice and its size equals the
    stored [websocketConnections]. *)
Theorem counter_is_size_of_socket_set st sessionId s0 evs :
  storage_works sessionId st ->
  storage st !! session_key sessionId = Some s0 ->
  SessionData.websocketConnections s0 = 0 ->
  websockets st = [] ->
  well_formed ∅ evs = true ->
  attaches evs <= 2 ^ 53 ->
  exists s,
    storage (run_events sessionId evs st) !! session_key sessionId = Some s /\
    NoDup (websockets (run_events sessionId evs st)) /\
    SessionData.websocketConnections s
    = Z.of_nat (length (websockets (run_events sessionId evs st))).
Proof.
  intros Hw Hs Hc Hws Hwf Hmax.
  destruct (accounting_from sessionId evs ∅ st s0 (length evs))
    as (s & Hfin & Hcount & _); [|done|lia|].
  { split; [done|]. split; [done|]. by rewrite size_empty. }
  rewrite firstn_all in Hfin, Hcount.
  destruct (sockets_follow_events sessionId evs ∅ st) as [Hnd Hlen];
    [|by rewrite Hws; constructor|done|].
  { intros w. rewrite Hws. split; intros H; [by apply elem_of_nil in H|].
    by apply elem_of_empty in H. }
  exists s. split; [exact Hfin|]. split; [exact Hnd|].
  rewrite Hlen, Hws, Hcount, Hc. simpl. lia.
Qed.

Lemma counter_is_size_of_socket_set_witness :
  let st :=
    mkState
      {[ session_key "s1" := default_streaming_session "s1" (ISO 0) ]}
      [] [] [] None 10 no_faults in
  let evs := [Attach 1%nat; Attach 2%nat; Detach 1%nat] in
  exists s,
    storage (run_events "s1" evs st) !! session_key "s1" = Some s /\
    NoDup (websockets (run_events "s1" evs st)) /\
    SessionData.websocketConnections s
    = Z.of_nat (length (websockets (run_events "s1" evs st))).
Proof.
  cbv zeta.
  apply (counter_is_size_of_socket_set
           (mkState
              {[ session_key "s1" := default_streaming_session "s1" (ISO 0) ]}
              [] [] [] None 10 no_faults)
           "s1" (default_streaming_session "s1" (ISO 0))).
  - split; reflexivity.
  - apply lookup_singleton_eq.
  - reflexivity.
  - reflexivity.
  - vm_compute; reflexivity.
  - vm_compute; discriminate.
Defined.

(** ** Upgrades without a stored session *)

(** X12. An upgrade does not create a session: when nothing is stored
    under the id (and the Store can be read and the socket written), the
    upgrade answers 101, adds the socket to the set and sends it the
    welcome message, and the Store is left as it was, so the connection
    is counted nowhere. *)
Theorem upgrade_without_session_stores_nothing st ws sessionId :
  storage st !! session_key sessionId = None ->
  get_throws (faults st) (session_key sessionId) = None ->
  send_throws (faults st) ws = None ->
  exists st',
    handleWebSocket ws sessionId st
      = Ok (Response.mk 101 (Response.Upgrade ws)) st' /\
    storage st' = storage st /\
    ws ∈ websockets st' /\
    outbox st' = outbox st ++ [(ws, welcome_frame (ISO (clock st)) sessionId)].
Proof.
  intros Hs Hget Hsend. eexists. split; [|split; [|split]].
  - unfold handleWebSocket. apply try_ok.
    erewrite bind_ok; [|reflexivity].
    erewrite bind_ok; [|apply getSessionData_ok; exact Hget].
    cbn [storage with_websockets]. rewrite Hs.
    erewrite bind_ok; [|reflexivity].
    erewrite bind_ok; [|reflexivity].
    erewrite bind_ok; [|apply ws_send_ok; exact Hsend]. reflexivity.
  - done.
  - simpl. case_bool_decide; [done|]. apply elem_of_app. right. by left.
  - done.
Qed.

Lemma upgrade_without_session_stores_nothing_witness :
  let st := mkState ∅ [] [] [] None 10 no_faults in
  exists st',
    handleWebSocket 1%nat "nobody" st
      = Ok (Response.mk 101 (Response.Upgrade 1%nat)) st' /\
    storage st' = ∅ /\
    1%nat ∈ websockets st' /\
    outbox st' = [] ++ [(1%nat, welcome_frame (ISO 10) "nobody")].
Proof.
  cbv zeta.
  exact (upgrade_without_session_stores_nothing
           (mkState ∅ [] [] [] None 10 no_faults) 1%nat "nobody"
           (lookup_empty _) eq_refl eq_refl).
Defined.

(** ** Broadcast with any number of dead sockets *)

(** X13. [broadcastToWebSockets] never throws, whatever number of sockets
    fail: it keeps in the set exactly the sockets whose [send] worked,
    has sent the message once to each of them in the order of the set,
    and touches neither the Store nor the closed sockets. A second
    broadcast right after it (no further socket breaking in between)
    reaches every socket of the set and removes none. *)
Theorem broadcast_keeps_exactly_the_reachable st message message' :
  exists st',
    broadcastToWebSockets message st = Ok tt st' /\
    (forall ws, ws ∈ websockets st' <-> ws ∈ websockets st /\ sendable st ws) /\
    outbox st' = outbox st ++ map (fun ws => (ws, message)) (websockets st') /\
    storage st' = storage st /\
    closed st' = closed st /\
    broadcastToWebSockets message' st'
    = Ok tt (with_outbox
               (fun o => o ++ map (fun ws => (ws, message')) (websockets st'))
               st').
Proof.
  rewrite broadcastToWebSockets_spec. eexists. split; [reflexivity|].
  cbn [websockets outbox storage closed].
  split; [|split; [done|split; [done|split; [done|]]]].
  - intros ws. rewrite list_elem_of_filter. tauto.
  - rewrite broadcastToWebSockets_spec.
    cbn [websockets outbox storage closed alarm_at clock faults].
    assert (filter
              (sendable
                 (mkState (storage st) (filter (sendable st) (websockets st))
                    (outbox st ++
                       map (fun ws => (ws, message))
                         (filter (sendable st) (websockets st)))
                    (closed st) (alarm_at st) (clock st) (faults st)))
              (filter (sendable st) (websockets st))
            = filter (sendable st) (websockets st)) as ->.
    { apply filter_id_on. intros w Hw.
      apply list_elem_of_filter in Hw as [Hw _]. exact Hw. }
    reflexivity.
Qed.

(** ** The sweep: what it leaves alone, and when it runs again *)

(** X14. [alarm] deletes nothing but expired session records, whatever
    fails: a stored key that does not start with [session:], a record
    whose [lastActivity] is not a date, a record last active at most one
    hour before the sweep (the boundary included), and a record whose
    counter is not 0 (a negative one too) are all still stored, unchanged,
    after the sweep. *)
Theorem sweep_spares st k s :
  storage st !! k = Some s ->
  String.prefix "session:" k = false \/
  getTime (SessionData.lastActivity s) = None \/
  (exists t, getTime (SessionData.lastActivity s) = Some t /\
             clock st - t <= 60 * 60 * 1000) \/
  SessionData.websocketConnections s <> 0 ->
  storage (final_state (alarm st)) !! k = Some s.
Proof.
  intros Hs Hspared.
  assert (eligible (clock st - 60 * 60 * 1000) (k, s) = false) as Hnot.
  { unfold eligible. cbn [fst snd]. apply andb_false_iff.
    destruct Hspared as [Hp|Hrec]; [by left|right].
    apply not_true_iff_false. rewrite expired_iff.
    intros [Hc (t & Ht & Hgt)].
    destruct Hrec as [Hnan|[(t' & Ht' & Hle)|Hcount]];
      [congruence| |done].
    assert (t' = t) as -> by congruence. lia. }
  destruct (alarm_storage st) as (d & r & Hsplit & Hsto). rewrite Hsto.
  destruct (swept _ d (storage st) !! k) as [v|] eqn:Hl.
  - apply lookup_swept_Some in Hl. congruence.
  - exfalso. apply lookup_swept_None in Hl as [Hl|(s' & Hin & Hel)];
      [congruence|].
    assert ((k, s') ∈ sorted_entries st) as Hin'
      by (rewrite Hsplit; apply elem_of_app; by left).
    apply elem_of_sorted_entries in Hin'.
    assert (s' = s) as -> by congruence. congruence.
Qed.

Lemma sweep_spares_witness :
  let odd :=
    SessionData.mk "odd" (ISO 0) (ISO 0) SessionData.inactive [] 0
      (NotADate "yesterday") in
  let st :=
    mkState {[ session_key "odd" := odd ]} [] [] [] None 99999999 no_faults in
  storage st !! session_key "odd" = Some odd /\
  storage (final_state (alarm st)) !! session_key "odd" = Some odd.
Proof.
  cbv zeta. split; [apply lookup_singleton_eq|].
  apply sweep_spares.
  - apply lookup_singleton_eq.
  - right. left. reflexivity.
Defined.

Lemma alarm_frame st :
  exists st',
    alarm st = Ok tt st' /\
    websockets st' = websockets st /\ outbox st' = outbox st /\
    closed st' = closed st /\ clock st' = clock st /\ faults st' = faults st /\
    (alarm_at st' = alarm_at st \/
     alarm_at st' = Some (clock st + 30 * 60 * 1000)).
Proof.
  unfold alarm, try_catch, bind at 1, storage_list.
  destruct (list_throws (faults st)) as [e|].
  - exists st. unfold ret. split; [done|]. repeat split; try done. by left.
  - unfold bind at 1. unfold Date_now.
    destruct (sweep_processed (merge_sort key_le (map_to_list (storage st)))
                (clock st - 60 * 60 * 1000) st) as (d & r & Hsplit & Hfin).
    unfold bind at 1.
    destruct (sweep _ _ st) as [[] st1|e st1]; simpl in Hfin; subst st1.
    + unfold bind, Date_now, storage_setAlarm. eexists. split; [reflexivity|].
      simpl. repeat split; try done. by right.
    + unfold ret. eexists. split; [reflexivity|].
      simpl. repeat split; try done. by left.
Qed.

(** X15. [alarm] never throws and touches nothing but the Store and the
    alarm time. It schedules the next run, 30 minutes (1 800 000 ms)
    ahead, when no storage call throws; when [storage.list] throws it
    returns with the state exactly as it was, so no later run is
    scheduled. *)
Theorem alarm_reschedules_only_after_full_sweep st :
  exists st',
    alarm st = Ok tt st' /\
    websockets st' = websockets st /\ outbox st' = outbox st /\
    closed st' = closed st /\ clock st' = clock st /\
    (list_throws (faults st) = None ->
     (forall k, delete_throws (faults st) k = None) ->
     alarm_at st' = Some (clock st + 30 * 60 * 1000)) /\
    (is_Some (list_throws (faults st)) -> st' = st).
Proof.
  destruct (alarm_frame st) as (st' & Hrun & Hws & Hout & Hcl & Hck & _ & _).
  exists st'. split; [exact Hrun|]. repeat (split; [done|]). split.
  - intros Hlist Hall. rewrite alarm_all in Hrun by done.
    injection Hrun as <-. done.
  - intros [e He]. revert Hrun. unfold alarm, try_catch, bind, storage_list.
    rewrite He. unfold ret. by intros [= <-].
Qed.

Lemma swept_nothing oneHourAgo entries : forall m,
  (forall entry, entry ∈ entries -> eligible oneHourAgo entry = false) ->
  swept oneHourAgo entries m = m.
Proof.
  induction entries as [|entry rest IH]; intros m Hnone; [done|].
  rewrite swept_cons, (Hnone entry) by (by left).
  apply IH. intros e He. apply Hnone. by right.
Qed.

(** X16. Sweeping twice at the same time is sweeping once: when no
    storage call throws, a second [alarm] at the same clock deletes
    nothing more, so the Store after it is the Store after the first. *)
Theorem sweep_twice_is_sweep_once st :
  list_throws (faults st) = None ->
  (forall k, delete_throws (faults st) k = None) ->
  exists st1 st2,
    alarm st = Ok tt st1 /\
    alarm st1 = Ok tt st2 /\
    storage st2 = storage st1.
Proof.
  intros Hlist Hall.
  eexists. eexists. split; [by apply alarm_all|]. split.
  - apply alarm_all; done.
  - cbn [storage with_alarm with_storage clock].
    apply swept_nothing. intros [k s] Hin.
    apply elem_of_sorted_entries in Hin. cbn [storage with_alarm with_storage] in Hin.
    destruct (eligible (clock st - 60 * 60 * 1000) (k, s)) eqn:Hel; [|done].
    exfalso. pose proof Hin as Hbefore. apply lookup_swept_Some in Hbefore.
    assert (swept (clock st - 60 * 60 * 1000) (sorted_entries st) (storage st)
              !! k = None) as Hgone.
    { apply lookup_swept_None. right. exists s. split; [|done].
      by apply elem_of_sorted_entries. }
    congruence.
Qed.

Lemma sweep_twice_is_sweep_once_witness :
  let idle id :=
    SessionData.mk id (ISO 0) (ISO 0) SessionData.inactive [] 0 (ISO 0) in
  let st :=
    mkState {[ session_key "a" := idle "a";
               session_key "b" := default_session "b" (ISO 9000000) ]}
      [] [] [] None 9000000 no_faults in
  exists st1 st2,
    alarm st = Ok tt st1 /\ alarm st1 = Ok tt st2 /\ storage st2 = storage st1.
Proof.
  cbv zeta.
  exact (sweep_twice_is_sweep_once
           (mkState
              {[ session_key "a" :=
                   SessionData.mk "a" (ISO 0) (ISO 0) SessionData.inactive []
                     0 (ISO 0);
                 session_key "b" := default_session "b" (ISO 9000000) ]}
              [] [] [] None 9000000 no_faults)
           eq_refl (fun _ => eq_refl)).
Defined.

(** ** The relay without a session, and its frames *)

(** X17. The relay does not create a session: when nothing is stored
    under the session's key (and the Store can be read and the socket
    written), the relay still runs the feed and returns normally. It sends
    the requesting socket, and nobody else, the frames of an ordinary run
    in their order: the start notice (type ['progress'], progress 5,
    stamped with the time of the request), then for each line of the feed
    that starts with [data: ] the decoded event or, when the text does not
    decode, the raw fallback stamped with the time its chunk was read,
    then the error notice when the backend answer fails. The Store is left
    exactly as it was, so the execution is recorded nowhere. *)
Theorem relay_without_session_stores_nothing
    JSON_parse tool_name agent request_id executionId sessionId websocket
    st backend :
  storage st !! session_key sessionId = None ->
  get_throws (faults st) (session_key sessionId) = None ->
  send_throws (faults st) websocket = None ->
  exists st',
    handleToolExecutionRequest JSON_parse tool_name agent request_id
      executionId sessionId websocket backend st = Ok tt st' /\
    storage st' = storage st /\
    websockets st' = websockets st /\
    outbox st' = outbox st ++
      map (fun f => (websocket, f))
        (relay_frames JSON_parse tool_name agent request_id executionId
           sessionId (clock st) backend).
Proof.
  intros Habs Hget Hsend.
  destruct (relay_kept JSON_parse tool_name agent request_id executionId
              sessionId websocket (fun _ => False)
              (fun _ H => False_ind _ H) (fun _ _ H => H)
              st backend Hget Hsend)
    as (st' & Hrun & _ & Hws & _ & _ & _ & Hout & Hsto).
  - by rewrite Habs.
  - intros s0 Hs0. congruence.
  - rewrite Habs in Hsto. by exists st'.
Qed.

Lemma relay_without_session_stores_nothing_witness :
  let st := mkState ∅ [1%nat] [] [] None 100 no_faults in
  let backend :=
    Body [(5, "data: 7" +:+ newline +:+ "note" +:+ newline +:+ "data: [1,")]
      (ReadError "reset") in
  exists st',
    handleToolExecutionRequest sample_parse "scan" "bug_hunter" (Some "req-1")
      "exec_1" "ghost" 1%nat backend st = Ok tt st' /\
    storage st' = ∅ /\
    websockets st' = [1%nat] /\
    outbox st' = [] ++
      map (fun f => (1%nat, f))
        (relay_frames sample_parse "scan" "bug_hunter" (Some "req-1") "exec_1"
           "ghost" 100 backend).
Proof.
  cbv zeta.
  exact (relay_without_session_stores_nothing sample_parse "scan" "bug_hunter"
           (Some "req-1") "exec_1" "ghost" 1%nat
           (mkState ∅ [1%nat] [] [] None 100 no_faults)
           (Body [(5, "data: 7" +:+ newline +:+ "note" +:+ newline
                       +:+ "data: [1,")] (ReadError "reset"))
           (lookup_empty _) eq_refl eq_refl).
Defined.

(** The frames of that run, one by one. *)
Example frames_of_a_failing_run :
  relay_frames sample_parse "scan" "bug_hunter" (Some "req-1") "exec_1"
    "ghost" 100
    (Body [(5, "data: 7" +:+ newline +:+ "note" +:+ newline +:+ "data: [1,")]
       (ReadError "reset"))
  = [Built (StreamMessage.mk MsgType.progress (ISO 100)
              (StreamMessage.Starting "Starting bug_hunter.scan execution..."
                 5 "exec_1")
              "durable-object" "ghost" (Some "req-1"));
     Spread (JNum 7) "exec_1" (Some (JStr "backend-via-durable-object"));
     Built (StreamMessage.mk MsgType.data (ISO 105)
              (StreamMessage.RawEvent "[1,") "backend-raw" "ghost"
              (Some "req-1"));
     Built (StreamMessage.mk MsgType.error (ISO 105)
              (StreamMessage.ExecError "reset" "exec_1")
              "durable-object" "ghost" (Some "req-1"))].
Proof. vm_compute. reflexivity. Qed.

(** X18. One frame per data line: with a working platform, whether or
    not the session is stored, the relay returns normally and has sent
    the requesting socket, and nobody else, exactly the frames of
    [relay_frames], in their order: first the start notice, then one
    frame for each line of the feed that starts with [data: ] (the decoded
    event, or the raw fallback when the text does not decode), and last
    the error notice when the backend answer fails; that is one frame,
    plus one per data line, plus one on failure. *)
Theorem relay_sends_one_frame_per_data_line
    JSON_parse tool_name agent request_id executionId sessionId websocket
    st backend :
  quiet sessionId websocket st ->
  let sent :=
    relay_frames JSON_parse tool_name agent request_id executionId sessionId
      (clock st) backend in
  exists st',
    handleToolExecutionRequest JSON_parse tool_name agent request_id
      executionId sessionId websocket backend st = Ok tt st' /\
    outbox st' = outbox st ++ map (fun f => (websocket, f)) sent /\
    length sent = (1 + data_line_count (chunks_of backend)
                   + (if failed backend then 1 else 0))%nat.
Proof.
  intros (Hget & Hput & Hsend) sent.
  assert (forall s p, is_Some (find_execution executionId s) ->
            is_Some (find_execution executionId
                       (updateProgress executionId p s))) as Hprog.
  { intros s p [e He]. rewrite find_updateProgress, He. by eexists. }
  destruct (relay_kept JSON_parse tool_name agent request_id executionId
              sessionId websocket
              (fun s => is_Some (find_execution executionId s))
              (fun _ H => H) Hprog st backend Hget Hsend)
    as (st' & Hrun & _ & _ & _ & _ & _ & Hout & _).
  - done.
  - intros s0 _. apply find_startExecution.
  - exists st'. split; [exact Hrun|]. split; [exact Hout|].
    unfold sent, relay_frames, failed. cbn [length].
    rewrite length_app, length_feed_frames.
    destruct (failure_of backend); simpl; lia.
Qed.

Lemma relay_sends_one_frame_per_data_line_witness :
  let st :=
    mkState {[ session_key "s1" := default_session "s1" (ISO 0) ]}
      [1%nat; 2%nat] [] [] None 100 no_faults in
  let backend :=
    Body [(5, "data: 7" +:+ newline +:+ "note" +:+ newline +:+ "data: [1,");
          (5, "2]")] (ReadError "reset") in
  let sent :=
    relay_frames sample_parse "scan" "bug_hunter" (Some "req-1") "exec_1" "s1"
      100 backend in
  exists st',
    handleToolExecutionRequest sample_parse "scan" "bug_hunter" (Some "req-1")
      "exec_1" "s1" 1%nat backend st = Ok tt st' /\
    outbox st' = [] ++ map (fun f => (1%nat, f)) sent /\
    length sent = (1 + data_line_count (chunks_of backend)
                   + (if failed backend then 1 else 0))%nat.
Proof.
  cbv zeta.
  exact (relay_sends_one_frame_per_data_line sample_parse "scan" "bug_hunter"
           (Some "req-1") "exec_1" "s1" 1%nat
           (mkState {[ session_key "s1" := default_session "s1" (ISO 0) ]}
              [1%nat; 2%nat] [] [] None 100 no_faults)
           (Body [(5, "data: 7" +:+ newline +:+ "note" +:+ newline
                       +:+ "data: [1,");
                  (5, "2]")] (ReadError "reset"))
           (conj eq_refl (conj eq_refl eq_refl))).
Defined.

(** ** The relay and the rest of the session record *)

(** X19. The relay adds one execution and changes nothing else: for a
    stored session that has no execution under the generated id, and a
    working platform, the session stored after the relay has the same
    id, status, connection counter and timestamps ([lastActivity] and
    [updatedAt] included), and the same executions followed by exactly
    one new one, carrying the request's id, tool and agent, started at
    the time of the request and terminal: [completed] if the feed ended
    cleanly, [failed] otherwise. No other key of the Store is touched. *)
Theorem relay_appends_one_execution
    JSON_parse tool_name agent request_id executionId sessionId websocket
    st s0 backend :
  storage st !! session_key sessionId = Some s0 ->
  quiet sessionId websocket st ->
  find_execution executionId s0 = None ->
  exists st' s e,
    handleToolExecutionRequest JSON_parse tool_name agent request_id
      executionId sessionId websocket backend st = Ok tt st' /\
    storage st' !! session_key sessionId = Some s /\
    SessionData.toolExecutions s = SessionData.toolExecutions s0 ++ [e] /\
    Execution.id e = executionId /\
    Execution.toolName e = tool_name /\
    Execution.agent e = agent /\
    Execution.startTime e = ISO (clock st) /\
    Execution.status e
      = (if failed backend then Execution.failed else Execution.completed) /\
    SessionData.id s = SessionData.id s0 /\
    SessionData.status s = SessionData.status s0 /\
    SessionData.websocketConnections s = SessionData.websocketConnections s0 /\
    SessionData.createdAt s = SessionData.createdAt s0 /\
    SessionData.updatedAt s = SessionData.updatedAt s0 /\
    SessionData.lastActivity s = SessionData.lastActivity s0 /\
    (forall k, k <> session_key sessionId ->
               storage st' !! k = storage st !! k).
Proof.
  intros Hs0 (Hget & Hput & Hsend) Hfresh.
  set (J := extended_by executionId tool_name agent (ISO (clock st)) s0).
  assert (forall s, J s -> is_Some (find_execution executionId s)) as Hfind.
  { intros s (e & -> & Hid & _). unfold find_execution. simpl.
    rewrite find_fresh_app by done. by eexists. }
  assert (forall s p, J s -> J (updateProgress executionId p s)) as Hprog.
  { intros s p Hext. apply extended_by_update; [done| |done].
    intros e. done. }
  destruct (relay_kept JSON_parse tool_name agent request_id executionId
              sessionId websocket J Hfind Hprog st backend Hget Hsend)
    as (st' & Hrun & _ & _ & _ & _ & _ & _ & Hsto).
  - done.
  - intros s1 Hs1. rewrite Hs0 in Hs1. injection Hs1 as <-.
    eexists. split; [reflexivity|]. done.
  - rewrite Hs0 in Hsto.
    destruct Hsto as (s' & (e & -> & Hid & Htool & Hagent & Hstart) & Hsto).
    exists st'. eexists.
    exists (complete (negb (failed backend)) (ISO (clock st')) e).
    split; [exact Hrun|]. split; [rewrite Hsto; apply lookup_insert_eq|].
    split.
    { simpl. by apply update_first_fresh. }
    split; [by destruct (failed backend)|].
    split; [by destruct (failed backend)|].
    split; [by destruct (failed backend)|].
    split; [by destruct (failed backend)|].
    split; [by destruct (failed backend)|].
    repeat (split; [done|]).
    intros k Hk. rewrite Hsto. by apply lookup_insert_ne.
Qed.

Lemma relay_appends_one_execution_witness :
  let old :=
    Execution.mk "exec_0" "scan" "bug_hunter" Execution.completed (ISO 1)
      (Some (ISO 2)) (Some (JNum 100)) in
  let s0 :=
    SessionData.mk "s1" (ISO 0) (ISO 0) SessionData.streaming [old] 1 (ISO 3) in
  let st :=
    mkState {[ session_key "s1" := s0 ]} [1%nat] [] [] None 100 no_faults in
  find_execution "exec_1" s0 = None /\
  exists st' s e,
    handleToolExecutionRequest sample_parse "probe" "rt_dev" (Some "req-2")
      "exec_1" "s1" 1%nat (Body [(5, "data: " +:+ progress_event_text)] Done)
      st = Ok tt st' /\
    storage st' !! session_key "s1" = Some s /\
    SessionData.toolExecutions s = [old] ++ [e] /\
    Execution.id e = "exec_1" /\
    Execution.toolName e = "probe" /\
    Execution.agent e = "rt_dev" /\
    Execution.startTime e = ISO 100 /\
    Execution.status e = Execution.completed /\
    SessionData.id s = "s1" /\
    SessionData.status s = SessionData.streaming /\
    SessionData.websocketConnections s = 1 /\
    SessionData.createdAt s = ISO 0 /\
    SessionData.updatedAt s = ISO 0 /\
    SessionData.lastActivity s = ISO 3 /\
    (forall k, k <> session_key "s1" ->
               storage st' !! k = ({[ session_key "s1" := s0 ]} : gmap _ _) !! k).
Proof.
  cbv zeta. split; [reflexivity|].
  exact (relay_appends_one_execution sample_parse "probe" "rt_dev"
           (Some "req-2") "exec_1" "s1" 1%nat
           (mkState
              {[ session_key "s1" :=
                   SessionData.mk "s1" (ISO 0) (ISO 0) SessionData.streaming
                     [Execution.mk "exec_0" "scan" "bug_hunter"
                        Execution.completed (ISO 1) (Some (ISO 2))
                        (Some (JNum 100))] 1 (ISO 3) ]}
              [1%nat] [] [] None 100 no_faults)
           _ (Body [(5, "data: " +:+ progress_event_text)] Done)
           (lookup_singleton_eq _ _)
           (conj eq_refl (conj eq_refl eq_refl)) eq_refl).
Defined.

(** X20. When the requesting socket cannot be written, the relay fails
    before it calls the backend: the rejection of the first [send]
    escapes the handler (its [catch] block sends again and throws
    again), no frame is sent to anybody and no time is spent waiting,
    whatever the backend would answer; yet the execution has been
    recorded, and the [catch] block has marked it [failed]. *)
Theorem relay_with_dead_requester
    JSON_parse tool_name agent request_id executionId sessionId websocket
    st s0 backend message :
  storage st !! session_key sessionId = Some s0 ->
  get_throws (faults st) (session_key sessionId) = None ->
  put_throws (faults st) (session_key sessionId) = None ->
  send_throws (faults st) websocket = Some message ->
  exists st' s e,
    handleToolExecutionRequest JSON_parse tool_name agent request_id
      executionId sessionId websocket backend st = Throw message st' /\
    outbox st' = outbox st /\
    clock st' = clock st /\
    storage st' !! session_key sessionId = Some s /\
    find_execution executionId s = Some e /\
    Execution.status e = Execution.failed /\
    Execution.endTime e = Some (ISO (clock st)).
Proof.
  intros Hs0 Hget Hput Hsend.
  set (s1 := startExecution executionId tool_name agent (ISO (clock st)) s0).
  destruct (find_startExecution executionId tool_name agent (ISO (clock st)) s0)
    as [e He]. fold s1 in He.
  eexists. exists (completeExecution executionId false (ISO (clock st)) s1).
  exists (complete false (ISO (clock st)) e).
  split.
  - unfold handleToolExecutionRequest.
    erewrite try_throw.
    2: { erewrite bind_ok.
         2: { unfold record_start.
              erewrite bind_ok; [|by apply getSessionData_ok]. rewrite Hs0.
              erewrite bind_ok; [|reflexivity].
              erewrite bind_ok; [|by apply storage_put_ok]. reflexivity. }
         erewrite bind_ok; [|reflexivity].
         erewrite bind_throw; [reflexivity|].
         unfold ws_send. cbn [faults with_storage]. by rewrite Hsend. }
    erewrite bind_ok; [|by apply getSessionData_ok].
    cbn [storage with_storage]. rewrite lookup_insert_eq.
    erewrite bind_ok.
    2: { unfold record_end. fold s1. rewrite He.
         erewrite bind_ok; [|reflexivity]. by apply storage_put_ok. }
    erewrite bind_ok; [|reflexivity].
    unfold ws_send. cbn [faults with_storage]. rewrite Hsend. reflexivity.
  - cbn [outbox clock storage with_storage].
    split; [done|]. split; [done|]. split; [apply lookup_insert_eq|].
    split; [by rewrite find_completeExecution, He|]. done.
Qed.

Lemma relay_with_dead_requester_witness :
  let st :=
    mkState {[ session_key "s1" := default_session "s1" (ISO 0) ]}
      [1%nat] [] [] None 100
      (mkFaults (fun _ => None) (fun _ => None) (fun _ => None) None
         (fun _ => Some "socket closed")) in
  exists st' s e,
    handleToolExecutionRequest sample_parse "scan" "bug_hunter" (Some "req-1")
      "exec_1" "s1" 1%nat (Body [(5, "data: 7")] Done) st
      = Throw "socket closed" st' /\
    outbox st' = [] /\
    clock st' = 100 /\
    storage st' !! session_key "s1" = Some s /\
    find_execution "exec_1" s = Some e /\
    Execution.status e = Execution.failed /\
    Execution.endTime e = Some (ISO 100).
Proof.
  cbv zeta.
  exact (relay_with_dead_requester sample_parse "scan" "bug_hunter"
           (Some "req-1") "exec_1" "s1" 1%nat
           (mkState {[ session_key "s1" := default_session "s1" (ISO 0) ]}
              [1%nat] [] [] None 100
              (mkFaults (fun _ => None) (fun _ => None) (fun _ => None) None
                 (fun _ => Some "socket closed")))
           (default_session "s1" (ISO 0)) (Body [(5, "data: 7")] Done)
           "socket closed" (lookup_singleton_eq _ _) eq_refl eq_refl eq_refl).
Defined.

(** ** Lines and payloads *)

Lemma split_newline_not_nil s : split_newline s <> [].
Proof.
  destruct s as [|c rest]; simpl; [done|].
  destruct (Ascii.eqb c "010"%char); [done|].
  by destruct (split_newline rest).
Qed.

(** X21. Splitting a chunk at newlines loses nothing but the newlines:
    [chunk.split('\n')] always yields at least one line, no line contains
    a newline, and joining the lines with newlines gives the chunk
    back. *)
Theorem split_newline_round_trip chunk :
  split_newline chunk <> [] /\
  Forall (fun line => forall i, String.get i line <> Some "010"%char)
         (split_newline chunk) /\
  join_newline (split_newline chunk) = chunk.
Proof.
  split; [apply split_newline_not_nil|].
  induction chunk as [|c rest [IH1 IH2]]; simpl.
  - split; [|done]. constructor; [|constructor]. intros i. by destruct i.
  - destruct (Ascii.eqb_spec c "010"%char) as [->|Hc].
    + split.
      * constructor; [|done]. intros i. by destruct i.
      * pose proof (split_newline_not_nil rest) as Hne.
        simpl. destruct (split_newline rest) as [|l ls]; [done|].
        by rewrite IH2.
    + pose proof (split_newline_not_nil rest) as Hne.
      destruct (split_newline rest) as [|l ls]; [done|]. split.
      * apply Forall_cons in IH1 as [Hl Hls]. constructor; [|done].
        intros [|i]; simpl; [congruence|apply Hl].
      * destruct ls as [|l' ls'].
        -- simpl in IH2. simpl. by rewrite IH2.
        -- change (join_newline (String c l :: l' :: ls'))
             with (String c (l +:+ newline +:+ join_newline (l' :: ls'))).
           change (join_newline (l :: l' :: ls'))
             with (l +:+ newline +:+ join_newline (l' :: ls')) in IH2.
           by rewrite IH2.
Qed.

(** X22. What the relay takes from a data line is the whole line after
    the prefix: for every line that starts with [data: ], the six
    characters [data: ] followed by [line.slice(6)] are the line, so a
    raw frame carries everything of the line but the prefix. *)
Theorem data_line_is_prefix_and_payload line :
  is_data_line line ->
  "data: " +:+ slice 6 line = line.
Proof.
  unfold is_data_line. intros Hp.
  repeat (destruct line as [|? line]; [done|];
          simpl in Hp;
          match type of Hp with
          | (if ?d then _ else _) = true =>
              destruct d as [<-|]; [|done]
          end).
  reflexivity.
Qed.

Lemma data_line_is_prefix_and_payload_witness :
  is_data_line "data: [1," /\ "data: " +:+ slice 6 "data: [1," = "data: [1,".
Proof.
  split; [reflexivity|].
  apply data_line_is_prefix_and_payload. reflexivity.
Defined.

(** X23. A progress event that cannot be saved is forwarded raw: when a
    data line decodes to a progress event for an execution of the local
    session but [storage.put] throws, the [catch (parseError)] block
    takes over, so the socket gets the raw ['data'] frame with the line's
    text and not the decoded event; the Store is unchanged, while the
    local session already carries the new progress. *)
Theorem unsaved_progress_is_forwarded_raw
    JSON_parse request_id executionId sessionId websocket
    st line s e parsedData message :
  is_data_line line ->
  JSON_parse (slice 6 line) = Some parsedData ->
  is_progress parsedData = true ->
  find_execution executionId s = Some e ->
  put_throws (faults st) (session_key sessionId) = Some message ->
  send_throws (faults st) websocket = None ->
  process_line JSON_parse request_id executionId sessionId websocket
    line (Some s) st
  = Ok (Some (updateProgress executionId
                (opt_prop (prop parsedData "data") "progress") s))
       (with_outbox
          (fun o => o ++ [(websocket,
                           raw_frame request_id sessionId (ISO (clock st))
                             (slice 6 line))]) st).
Proof.
  unfold is_data_line. intros Hd Hparse Hprog Hfind Hput Hsend.
  unfold process_line. rewrite Hd, Hparse.
  assert (forward_raw request_id sessionId websocket (slice 6 line) st
          = Ok tt (with_outbox
                     (fun o => o ++ [(websocket,
                                      raw_frame request_id sessionId
                                        (ISO (clock st)) (slice 6 line))]) st))
    as Hraw.
  { unfold forward_raw, bind, Date_toISOString. by rewrite ws_send_ok. }
  assert (progress_update executionId parsedData (Some s)
          = Some (updateProgress executionId
                    (opt_prop (prop parsedData "data") "progress") s)) as Hup.
  { unfold progress_update. by rewrite Hprog, Hfind. }
  destruct parsedData as [|b|n|str|items|fields]; [done|..];
    cbv zeta; rewrite Hup;
    (erewrite bind_ok; [reflexivity|]);
    (erewrite try_throw; [exact Hraw|]);
    (erewrite bind_throw; [reflexivity|]);
    unfold storage_put; by rewrite Hput.
Qed.

Lemma unsaved_progress_is_forwarded_raw_witness :
  let s :=
    startExecution "exec_1" "scan" "bug_hunter" (ISO 0)
      (default_session "s1" (ISO 0)) in
  let st :=
    mkState ∅ [1%nat] [] [] None 100
      (mkFaults (fun _ => None) (fun _ => Some "quota") (fun _ => None) None
         (fun _ => None)) in
  let line := "data: " +:+ progress_event_text in
  exists parsedData,
    sample_parse (slice 6 line) = Some parsedData /\
    process_line sample_parse (Some "req-1") "exec_1" "s1" 1%nat
      line (Some s) st
    = Ok (Some (updateProgress "exec_1"
                  (opt_prop (prop parsedData "data") "progress") s))
         (with_outbox
            (fun o => o ++ [(1%nat,
                             raw_frame (Some "req-1") "s1" (ISO 100)
                               (slice 6 line))]) st).
Proof.
  cbv zeta.
  exists (JObj [("type", JStr "progress");
                ("data", JObj [("progress", JNum 150)])]).
  split; [reflexivity|].
  apply (unsaved_progress_is_forwarded_raw sample_parse (Some "req-1")
           "exec_1" "s1" 1%nat
           (mkState ∅ [1%nat] [] [] None 100
              (mkFaults (fun _ => None) (fun _ => Some "quota")
                 (fun _ => None) None (fun _ => None)))
           ("data: " +:+ progress_event_text)
           (startExecution "exec_1" "scan" "bug_hunter" (ISO 0)
              (default_session "s1" (ISO 0)))
           (new_execution "exec_1" "scan" "bug_hunter" (ISO 0))
           (JObj [("type", JStr "progress");
                  ("data", JObj [("progress", JNum 150)])])
           "quota");
    reflexivity.
Defined.
